(** * Snake game: the tick state machine, input dispatch and persistence

    A shallow embedding of [snake.py].  The locals of [game_loop] become a
    record that is threaded through the handlers, the two JSON files become a
    small disk record, and the [random] module becomes an oracle indexed by
    the number of calls made so far.  Drawing and sound are left out: they
    read the state and never write it. *)

From Stdlib Require Import ZArith List String Ascii Bool Lia Permutation Sorted.
Import ListNotations.
Local Open Scope Z_scope.
Local Set Warnings "-register-all".

(** ** Constants *)

Definition CELL_SIZE : Z := 20.
Definition FPS : Z := 15.

(** Grid positions are Python tuples [(x, y)] of integers. *)
Definition pos : Type := (Z * Z)%type.

Definition pos_eqb (p q : pos) : bool :=
  (fst p =? fst q) && (snd p =? snd q).

(** [x in l] on a list of positions. *)
Definition pos_in (p : pos) (l : list pos) : bool := existsb (pos_eqb p) l.

(** The keys of [POWERUP_TYPES], in the order of the dictionary literal. *)
Inductive ptype : Type := speed_boost | slow_down.

Definition ptype_eqb (a b : ptype) : bool :=
  match a, b with
  | speed_boost, speed_boost | slow_down, slow_down => true
  | _, _ => false
  end.

Definition ptype_name (t : ptype) : string :=
  match t with
  | speed_boost => "speed_boost"
  | slow_down => "slow_down"
  end.

Definition POWERUP_KEYS : list ptype := [speed_boost; slow_down].

(** [POWERUP_TYPES[t]["duration"]]: both entries are [FPS * 5]. *)
Definition duration (t : ptype) : Z :=
  match t with
  | speed_boost => FPS * 5
  | slow_down => FPS * 5
  end.

(** [int(a / b)]: true division followed by truncation towards zero.  Python
    raises [ZeroDivisionError] for [b = 0].  The numerator is always 1000 in
    this program, so the double quotient truncates to the same integer as the
    exact quotient. *)
Definition int_truediv (a b : Z) : option Z :=
  if b =? 0 then None else Some (Z.quot a b).

(** ** JSON documents as Python sees them after [json.load]

    Numbers are integers: the program writes no others.  An object is the
    parsed dictionary, its keys in insertion order. *)

Inductive json : Type :=
| JNull
| JBool (b : bool)
| JNum (n : Z)
| JStr (s : string)
| JArr (items : list json)
| JObj (fields : list (string * json)).

(** Truth value of a loaded document, as tested by [if loaded_state:]. *)
Definition truthy (j : json) : bool :=
  match j with
  | JNull => false
  | JBool b => b
  | JNum n => negb (n =? 0)
  | JStr s => negb (String.eqb s "")
  | JArr items => match items with [] => false | _ => true end
  | JObj fields => match fields with [] => false | _ => true end
  end.

Fixpoint lookup (key : string) (fields : list (string * json)) : option json :=
  match fields with
  | [] => None
  | (k, v) :: rest => if String.eqb k key then Some v else lookup key rest
  end.

(** [j[key]] with a string key.  [None] stands for the exception Python
    raises: [KeyError] on a dictionary without the key, [TypeError] on every
    other value (lists and strings want integer indices, the rest is not
    subscriptable). *)
Definition subscript (j : json) (key : string) : option json :=
  match j with
  | JObj fields => lookup key fields
  | _ => None
  end.

(** [d.get(key, default)] on a dictionary. *)
Definition dict_get (fields : list (string * json)) (key : string) (default : json) : json :=
  match lookup key fields with
  | Some v => v
  | None => default
  end.

Fixpoint chars (s : string) : list json :=
  match s with
  | EmptyString => []
  | String c rest => JStr (String c EmptyString) :: chars rest
  end.

(** Iterating over a value, as [tuple(j)] and [for x in j] do: lists give
    their items, strings their characters, dictionaries their keys; anything
    else raises [TypeError] ([None]). *)
Definition iterate (j : json) : option (list json) :=
  match j with
  | JArr items => Some items
  | JStr s => Some (chars s)
  | JObj fields => Some (map (fun kv => JStr (fst kv)) fields)
  | _ => None
  end.

(** Running a fallible step over a list, stopping at the first failure. *)
Fixpoint traverse {A B : Type} (f : A -> option B) (l : list A) : option (list B) :=
  match l with
  | [] => Some []
  | x :: rest =>
      match f x with
      | None => None
      | Some y =>
          match traverse f rest with
          | None => None
          | Some ys => Some (y :: ys)
          end
      end
  end.

(** ** The two files *)

(** What stands at a path that [os.path.exists] finds, as [open],
    [json.load] and [os.remove] see it:
    - [Parses]: a file that opens and holds a JSON document;
    - [Malformed]: a file that opens, on which [json.load] raises
      [JSONDecodeError];
    - [Unreadable]: a file that opens, on which reading raises another
      exception (bytes that are no text in the encoding [open] uses); like the
      two above it can be opened for writing and removed;
    - [Blocked]: [open] raises in either mode and [os.remove] raises too (a
      directory stands at the path). *)
Inductive file : Type :=
| Parses (doc : json)
| Malformed (text : string)
| Unreadable
| Blocked.

Record Disk : Type := {
  save_file : option file;          (* SAVE_FILE, [None] when absent *)
  leaderboard_file : option file    (* LEADERBOARD_FILE *)
}.

Definition set_save_file (d : Disk) (f : option file) : Disk :=
  {| save_file := f; leaderboard_file := leaderboard_file d |}.

Definition set_leaderboard_file (d : Disk) (f : option file) : Disk :=
  {| save_file := save_file d; leaderboard_file := f |}.

(** Whether [open(path, "w")] succeeds on a slot.  An absent file is
    created; a file is truncated; only a blocked path raises.  The disk
    records what stands at a path, not permissions or free space: a file
    that opens for reading is taken to open for writing. *)
Definition writable (slot : option file) : bool :=
  match slot with
  | Some Blocked => false
  | _ => true
  end.

(** [save_game]: the slot is overwritten with the dumped document.  When
    [open] raises, the [except] branch prints 'Error saving game' and the
    disk stays as it was; nothing is raised to the caller either way. *)
Definition save_game (state : json) (d : Disk) : Disk :=
  if writable (save_file d)
  then set_save_file d (Some (Parses state))
  else d.

(** [load_game] returns the document or [None], the disk it leaves behind and
    the line it prints (in the last [except] branch the text of the exception
    follows the message and is left out). *)
Definition load_game (d : Disk) : option json * Disk * list string :=
  match save_file d with
  | Some (Parses doc) => (Some doc, d, [])
  | Some (Malformed _) =>
      (None, set_save_file d None,
       ["Error: Save file corrupted. Cannot load game."%string])
  | Some Unreadable => (None, d, ["Error loading game"%string])
  | Some Blocked => (None, d, ["Error loading game"%string])
  | None => (None, d, ["No save game found."%string])
  end.

Definition loaded (d : Disk) : option json := fst (fst (load_game d)).
Definition disk_after_load (d : Disk) : Disk := snd (fst (load_game d)).
Definition printed_by_load (d : Disk) : list string := snd (load_game d).

(** ** Results of code that can fail or leave the typed model *)

Inductive result (A : Type) : Type :=
| Ok (a : A)
| Raised      (* an exception escapes to the caller *)
| Untyped.    (* a value met is not of the type the program itself writes
                 there; what Python makes of it is not modelled *)

Arguments Ok {A} a.
Arguments Raised {A}.
Arguments Untyped {A}.

Definition bind {A B : Type} (r : result A) (k : A -> result B) : result B :=
  match r with
  | Ok a => k a
  | Raised => Raised
  | Untyped => Untyped
  end.

Definition obind {A B : Type} (o : option A) (k : A -> option B) : option B :=
  match o with
  | Some a => k a
  | None => None
  end.

Declare Scope result_scope.
Delimit Scope result_scope with result.
Notation "x <- e ;; k" := (bind e (fun x => k))
  (at level 61, e at next level, right associativity) : result_scope.

Declare Scope option_scope.
Delimit Scope option_scope with option.
Notation "x <- e ;; k" := (obind e (fun x => k))
  (at level 61, e at next level, right associativity) : option_scope.

(** ** Leaderboard *)

Definition load_leaderboard (d : Disk) : json :=
  match leaderboard_file d with
  | Some (Parses doc) => doc
  | Some (Malformed _) => JArr []
  | Some Unreadable => JArr []
  | Some Blocked => JArr []
  | None => JArr []
  end.

(** [json.dump(leaderboard[:5], f)] inside [try]: when [open] raises, the
    [except] branch prints 'Error saving leaderboard' and nothing is
    written. *)
Definition save_leaderboard (leaderboard : list json) (d : Disk) : Disk :=
  if writable (leaderboard_file d)
  then set_leaderboard_file d (Some (Parses (JArr (firstn 5 leaderboard))))
  else d.

(** The character class [[a-zA-Z0-9 ]] of the regular expression. *)
Definition name_char (c : ascii) : bool :=
  let n := nat_of_ascii c in
  ((97 <=? n) && (n <=? 122) || (65 <=? n) && (n <=? 90)
   || (48 <=? n) && (n <=? 57) || (n =? 32))%nat.

(** Characters [str.strip()] removes at either end. *)
Definition whitespace (c : ascii) : bool :=
  let n := nat_of_ascii c in
  ((9 <=? n) && (n <=? 13) || (28 <=? n) && (n <=? 32)
   || (n =? 133) || (n =? 160))%nat.

Fixpoint lstrip (l : list ascii) : list ascii :=
  match l with
  | [] => []
  | c :: rest => if whitespace c then lstrip rest else l
  end.

Definition strip (l : list ascii) : list ascii :=
  rev (lstrip (rev (lstrip l))).

(** [re.sub(r"[^a-zA-Z0-9 ]", "", name).strip()], then the placeholder for an
    empty result.  Names are strings of 8-bit characters here; the
    substitution removes every character outside the class, whatever its
    code. *)
Definition sanitize (name : string) : string :=
  match strip (filter name_char (list_ascii_of_string name)) with
  | [] => "Anonymous"%string
  | cs => string_of_list_ascii cs
  end.

(** [list.sort(key=..., reverse=True)] is stable: among equal keys the
    earlier element stays first.  Insertion from the right gives that order. *)
Section SortDesc.
Context {A : Type} (key : A -> Z).

Fixpoint insert_desc (x : A) (l : list A) : list A :=
  match l with
  | [] => [x]
  | y :: rest => if key x <? key y then y :: insert_desc x rest else x :: l
  end.

Definition sort_desc (l : list A) : list A := fold_right insert_desc [] l.
End SortDesc.

Definition int_of (j : json) : option Z :=
  match j with
  | JNum n => Some n
  | _ => None
  end.

(** The sort keys [x["score"]] of all entries, computed before any
    comparison is made. *)
Definition score_keys (entries : list json) : result (list (Z * json)) :=
  match traverse (fun x => subscript x "score") entries with
  | None => Raised
  | Some keys =>
      match traverse int_of keys with
      | None => Untyped
      | Some ns => Ok (combine ns entries)
      end
  end.

Definition save_score (name : string) (score : Z) (d : Disk) : result Disk :=
  let name := sanitize name in
  match load_leaderboard d with
  | JArr leaderboard =>
      let leaderboard := leaderboard ++ [JObj [("name"%string, JStr name); ("score"%string, JNum score)]] in
      (keyed <- score_keys leaderboard ;;
       Ok (save_leaderboard (map snd (sort_desc fst keyed)) d))%result
  | _ => Raised   (* no [append] on anything but a list *)
  end.

(** A well-formed entry and its document. *)
Record entry : Type := { entry_name : string; entry_score : Z }.

Definition json_entry (e : entry) : json :=
  JObj [("name"%string, JStr (entry_name e)); ("score"%string, JNum (entry_score e))].

(** ** Entities *)

Module Snake.
(** [speed_modifier] and [rainbow_colors] are never read by the game logic
    and are left out. *)
Record t : Type := { body : list pos; direction : pos; skin_idx : Z }.

Definition init (start_pos : pos) (skin : Z) : t :=
  {| body := [start_pos]; direction := (CELL_SIZE, 0); skin_idx := skin |}.

(** [move]: a new head is inserted at index 0.  [self.body[0]] raises
    [IndexError] on an empty body. *)
Definition move (s : t) : option t :=
  match body s with
  | [] => None
  | (head_x, head_y) :: _ =>
      let '(dx, dy) := direction s in
      Some {| body := (head_x + dx, head_y + dy) :: body s;
              direction := direction s; skin_idx := skin_idx s |}
  end.

(** [shrink_tail]: [self.body.pop()], which raises on an empty list. *)
Definition shrink_tail (s : t) : option t :=
  match body s with
  | [] => None
  | _ :: _ =>
      Some {| body := removelast (body s);
              direction := direction s; skin_idx := skin_idx s |}
  end.

Definition turn (s : t) (d : pos) : t :=
  {| body := body s; direction := d; skin_idx := skin_idx s |}.
End Snake.

Module Food.
(** The particle list is cosmetic and is left out. *)
Record t : Type := { position : pos; skin_idx : Z }.

Definition place (f : t) (p : pos) : t :=
  {| position := p; skin_idx := skin_idx f |}.
End Food.

Module Powerup.
(** Colour and duration are functions of the type. *)
Record t : Type := { position : pos; type : ptype }.
End Powerup.

(** An [Obstacle] has its position as only attribute and is represented by
    it. *)

(** ** The random module *)

(** The value returned by the [k]-th call into [random] since the process
    started.  [chance20 k] tells whether [random.random() < 0.2] held at call
    [k]; [choice k n] is the index [random.choice] picks in a list of length
    [n]. *)
Record Random : Type := {
  randint : nat -> Z -> Z -> Z;
  chance20 : nat -> bool;
  choice : nat -> nat -> nat
}.

(** ** The arguments and the screen of one [game_loop] call *)

Record Config : Type := {
  width : Z;              (* screen.get_size() *)
  height : Z;
  speed : Z;              (* difficulty["speed"] *)
  snake_skin_idx : Z;
  fruit_skin_idx : Z;
  rnd : Random
}.

(** [random_position(width, height)], reading calls [k] and [k + 1]. *)
Definition random_position (cfg : Config) (k : nat) : pos :=
  (randint (rnd cfg) k 0 ((width cfg - CELL_SIZE) / CELL_SIZE) * CELL_SIZE,
   randint (rnd cfg) (S k) 0 ((height cfg - CELL_SIZE) / CELL_SIZE) * CELL_SIZE).

Definition grid_width (cfg : Config) : Z := width cfg / CELL_SIZE.
Definition grid_height (cfg : Config) : Z := height cfg / CELL_SIZE.

Definition start_pos (cfg : Config) : pos :=
  (grid_width cfg / 2 * CELL_SIZE, grid_height cfg / 2 * CELL_SIZE).

Definition max_obstacles (cfg : Config) : Z :=
  Z.max 10 ((grid_width cfg * grid_height cfg * 5) / 1000).

(** The three periods given to [pygame.time.set_timer(MOVE_EVENT, ...)]. *)
Definition initial_game_speed_ms (cfg : Config) : option Z :=
  int_truediv 1000 (speed cfg).

Definition boost_interval (cfg : Config) : option Z :=
  option_map (Z.max 50) (int_truediv 1000 (speed cfg + 10)).

Definition slow_interval (cfg : Config) : option Z :=
  int_truediv 1000 (Z.max 1 (speed cfg - 5)).

(** ** The locals of [game_loop] *)

Record Session : Type := {
  snake : Snake.t;
  food : Food.t;
  obstacles : list pos;
  powerups : list Powerup.t;
  score : Z;
  paused : bool;
  running : bool;
  powerup_active : option ptype;
  powerup_timer : Z;
  move_timer : Z;         (* current period of MOVE_EVENT, in ms *)
  rng_calls : nat         (* calls made into [random] so far *)
}.

Definition with_snake (st : Session) (s : Snake.t) : Session :=
  {| snake := s; food := food st; obstacles := obstacles st;
     powerups := powerups st; score := score st; paused := paused st;
     running := running st; powerup_active := powerup_active st;
     powerup_timer := powerup_timer st; move_timer := move_timer st;
     rng_calls := rng_calls st |}.

Definition with_food (st : Session) (f : Food.t) : Session :=
  {| snake := snake st; food := f; obstacles := obstacles st;
     powerups := powerups st; score := score st; paused := paused st;
     running := running st; powerup_active := powerup_active st;
     powerup_timer := powerup_timer st; move_timer := move_timer st;
     rng_calls := rng_calls st |}.

Definition with_obstacles (st : Session) (os : list pos) : Session :=
  {| snake := snake st; food := food st; obstacles := os;
     powerups := powerups st; score := score st; paused := paused st;
     running := running st; powerup_active := powerup_active st;
     powerup_timer := powerup_timer st; move_timer := move_timer st;
     rng_calls := rng_calls st |}.

Definition with_powerups (st : Session) (ps : list Powerup.t) : Session :=
  {| snake := snake st; food := food st; obstacles := obstacles st;
     powerups := ps; score := score st; paused := paused st;
     running := running st; powerup_active := powerup_active st;
     powerup_timer := powerup_timer st; move_timer := move_timer st;
     rng_calls := rng_calls st |}.

Definition with_score (st : Session) (n : Z) : Session :=
  {| snake := snake st; food := food st; obstacles := obstacles st;
     powerups := powerups st; score := n; paused := paused st;
     running := running st; powerup_active := powerup_active st;
     powerup_timer := powerup_timer st; move_timer := move_timer st;
     rng_calls := rng_calls st |}.

Definition with_paused (st : Session) (b : bool) : Session :=
  {| snake := snake st; food := food st; obstacles := obstacles st;
     powerups := powerups st; score := score st; paused := b;
     running := running st; powerup_active := powerup_active st;
     powerup_timer := powerup_timer st; move_timer := move_timer st;
     rng_calls := rng_calls st |}.

Definition with_running (st : Session) (b : bool) : Session :=
  {| snake := snake st; food := food st; obstacles := obstacles st;
     powerups := powerups st; score := score st; paused := paused st;
     running := b; powerup_active := powerup_active st;
     powerup_timer := powerup_timer st; move_timer := move_timer st;
     rng_calls := rng_calls st |}.

Definition with_effect (st : Session) (a : option ptype) (timer : Z) : Session :=
  {| snake := snake st; food := food st; obstacles := obstacles st;
     powerups := powerups st; score := score st; paused := paused st;
     running := running st; powerup_active := a;
     powerup_timer := timer; move_timer := move_timer st;
     rng_calls := rng_calls st |}.

Definition with_move_timer (st : Session) (ms : Z) : Session :=
  {| snake := snake st; food := food st; obstacles := obstacles st;
     powerups := powerups st; score := score st; paused := paused st;
     running := running st; powerup_active := powerup_active st;
     powerup_timer := powerup_timer st; move_timer := ms;
     rng_calls := rng_calls st |}.

Definition with_rng_calls (st : Session) (k : nat) : Session :=
  {| snake := snake st; food := food st; obstacles := obstacles st;
     powerups := powerups st; score := score st; paused := paused st;
     running := running st; powerup_active := powerup_active st;
     powerup_timer := powerup_timer st; move_timer := move_timer st;
     rng_calls := k |}.

(** ** Saved snapshots *)

Definition json_pos (p : pos) : json := JArr [JNum (fst p); JNum (snd p)].

Definition json_powerup (p : Powerup.t) : json :=
  JObj [("pos"%string, json_pos (Powerup.position p));
        ("type"%string, JStr (ptype_name (Powerup.type p)))].

Definition json_active (a : option ptype) : json :=
  match a with
  | Some t => JStr (ptype_name t)
  | None => JNull
  end.

(** [save_game_state], as [json.dump] writes it: tuples become arrays. *)
Definition save_game_state (st : Session) : json :=
  JObj [("snake"%string, JArr (map json_pos (Snake.body (snake st))));
        ("direction"%string, json_pos (Snake.direction (snake st)));
        ("food_pos"%string, json_pos (Food.position (food st)));
        ("food_skin_idx"%string, JNum (Food.skin_idx (food st)));
        ("obstacles"%string, JArr (map json_pos (obstacles st)));
        ("powerups"%string, JArr (map json_powerup (powerups st)));
        ("score"%string, JNum (score st));
        ("powerup_active"%string, json_active (powerup_active st));
        ("powerup_timer"%string, JNum (powerup_timer st));
        ("snake_skin_idx"%string, JNum (Snake.skin_idx (snake st)))].

(** What [load_game_state] leaves in the objects it was given when it
    returns [True]: tuples of whatever the document held. *)
Record raw_snapshot : Type := {
  raw_body : list (list json);
  raw_direction : list json;
  raw_snake_skin : json;
  raw_food_pos : list json;
  raw_food_skin : json;
  raw_obstacles : list (list json);
  raw_powerups : list (list json * ptype)
}.

(** A key of [POWERUP_TYPES]; every other value raises in [Powerup.__init__]. *)
Definition powerup_key (j : json) : option ptype :=
  match j with
  | JStr s =>
      if String.eqb s "speed_boost" then Some speed_boost
      else if String.eqb s "slow_down" then Some slow_down
      else None
  | _ => None
  end.

(** [Powerup(tuple(p["pos"]), p["type"])]. *)
Definition load_powerup (p : json) : option (list json * ptype) :=
  (pj <- subscript p "pos" ;;
   tp <- iterate pj ;;
   tj <- subscript p "type" ;;
   ty <- powerup_key tj ;;
   Some (tp, ty))%option.

(** [load_game_state]: [None] when an exception is caught and [False] is
    returned.  The callers throw away the half-written objects in that case.
    [state.get] is reached only after [state["snake"]] succeeded, so on a
    dictionary. *)
Definition load_game_state (state : json) : option raw_snapshot :=
  match state with
  | JObj fields =>
      (sj <- subscript state "snake" ;;
       segs <- iterate sj ;;
       body <- traverse iterate segs ;;
       dj <- subscript state "direction" ;;
       dir <- iterate dj ;;
       fj <- subscript state "food_pos" ;;
       fpos <- iterate fj ;;
       oj <- subscript state "obstacles" ;;
       os <- iterate oj ;;
       obs <- traverse iterate os ;;
       pj <- subscript state "powerups" ;;
       ps <- iterate pj ;;
       pups <- traverse load_powerup ps ;;
       Some {| raw_body := body;
               raw_direction := dir;
               raw_snake_skin := dict_get fields "snake_skin_idx" (JNum 0);
               raw_food_pos := fpos;
               raw_food_skin := dict_get fields "food_skin_idx" (JNum 0);
               raw_obstacles := obs;
               raw_powerups := pups |})%option
  | _ => None
  end.

(** The typed reading of a loaded snapshot: positions are pairs of integers. *)
Definition typed_pos (t : list json) : option pos :=
  match t with
  | [JNum x; JNum y] => Some (x, y)
  | _ => None
  end.

Definition typed_powerup (p : list json * ptype) : option Powerup.t :=
  option_map (fun q => {| Powerup.position := q; Powerup.type := snd p |})
             (typed_pos (fst p)).

Definition typed_active (j : json) : option (option ptype) :=
  match j with
  | JNull => Some None
  | _ => option_map Some (powerup_key j)
  end.

Record snapshot : Type := {
  snap_snake : Snake.t;
  snap_food : Food.t;
  snap_obstacles : list pos;
  snap_powerups : list Powerup.t
}.

Definition typed_snapshot (r : raw_snapshot) : option snapshot :=
  (body <- traverse typed_pos (raw_body r) ;;
   dir <- typed_pos (raw_direction r) ;;
   sskin <- int_of (raw_snake_skin r) ;;
   fpos <- typed_pos (raw_food_pos r) ;;
   fskin <- int_of (raw_food_skin r) ;;
   obs <- traverse typed_pos (raw_obstacles r) ;;
   pups <- traverse typed_powerup (raw_powerups r) ;;
   Some {| snap_snake := {| Snake.body := body; Snake.direction := dir;
                            Snake.skin_idx := sskin |};
           snap_food := {| Food.position := fpos; Food.skin_idx := fskin |};
           snap_obstacles := obs;
           snap_powerups := pups |})%option.

(** ** Outcomes of the game loop *)

(** Which of the three [game_over(score); return] of the tick was taken
    (lines 810, 815, 820). *)
Inductive cause : Type := HitWall | HitSelf | HitObstacle.

Inductive outcome (A : Type) : Type :=
| Continue (a : A)
| GameOver (c : cause) (final : Session)   (* [game_over(score); return] *)
| Returned                                 (* plain [return] to the menu *)
| Exited                                   (* [sys.exit()] *)
| Crashed                                  (* an uncaught exception *)
| OutOfFuel                                (* the food loop did not finish *)
| OutOfModel.                              (* a loaded value is not of the
                                              type the program writes *)

Arguments Continue {A} a.
Arguments GameOver {A} c final.
Arguments Returned {A}.
Arguments Exited {A}.
Arguments Crashed {A}.
Arguments OutOfFuel {A}.
Arguments OutOfModel {A}.

Definition and_then {A B : Type} (o : outcome A) (k : A -> outcome B) : outcome B :=
  match o with
  | Continue a => k a
  | GameOver c final => GameOver c final
  | Returned => Returned
  | Exited => Exited
  | Crashed => Crashed
  | OutOfFuel => OutOfFuel
  | OutOfModel => OutOfModel
  end.

Definition set_timer (ms : option Z) (st : Session) : outcome Session :=
  match ms with
  | Some ms => Continue (with_move_timer st ms)
  | None => Crashed
  end.

(** ** The move tick *)

Definition powerup_positions (st : Session) : list pos :=
  map Powerup.position (powerups st).

Definition draw_position (cfg : Config) (st : Session) : pos * Session :=
  (random_position cfg (rng_calls st), with_rng_calls st (2 + rng_calls st)).

(** The bounded search for a free cell for a powerup (lines 832-843). *)
Fixpoint spawn_powerup (cfg : Config) (attempts_left : nat) (st : Session) : Session :=
  match attempts_left with
  | O => st
  | S n =>
      let '(ppos, st) := draw_position cfg st in
      if pos_in ppos (Snake.body (snake st) ++ [Food.position (food st)]
                      ++ obstacles st ++ powerup_positions st)
      then spawn_powerup cfg n st
      else
        let ptype := nth (choice (rnd cfg) (rng_calls st) (List.length POWERUP_KEYS))
                         POWERUP_KEYS speed_boost in
        with_rng_calls
          (with_powerups st (powerups st ++ [{| Powerup.position := ppos;
                                                Powerup.type := ptype |}]))
          (S (rng_calls st))
  end.

(** The cells the food loop refuses (lines 848-849). *)
Definition respawn_blocked (st : Session) : list pos :=
  Snake.body (snake st) ++ obstacles st ++ powerup_positions st.

(** The [while True] search for the new food cell (lines 846-852). *)
Fixpoint respawn_food (cfg : Config) (fuel : nat) (st : Session) : option Session :=
  match fuel with
  | O => None
  | S n =>
      let '(new_pos, st) := draw_position cfg st in
      if pos_in new_pos (respawn_blocked st)
      then respawn_food cfg n st
      else Some (with_food st (Food.place (food st) new_pos))
  end.

(** The bounded search for a free cell for an obstacle (lines 856-865). *)
Fixpoint spawn_obstacle (cfg : Config) (attempts_left : nat) (st : Session) : Session :=
  match attempts_left with
  | O => st
  | S n =>
      let '(p, st) := draw_position cfg st in
      if pos_in p (Snake.body (snake st) ++ [Food.position (food st)]
                   ++ powerup_positions st ++ obstacles st)
      then spawn_obstacle cfg n st
      else with_obstacles st (obstacles st ++ [p])
  end.

(** The first half of the branch taken when the head is on the food
    (lines 825-843): the score, the particles and the powerup roll.
    [spawn_particles] draws three numbers for each of its eight particles. *)
Definition bite (cfg : Config) (st : Session) : Session :=
  let st := with_score st (score st + 1) in
  let st := with_rng_calls st (24 + rng_calls st) in
  let roll := chance20 (rnd cfg) (rng_calls st) in
  let st := with_rng_calls st (S (rng_calls st)) in
  if roll then spawn_powerup cfg 100 st else st.

(** The whole branch (lines 825-865). *)
Definition eat (cfg : Config) (fuel : nat) (st : Session) : outcome Session :=
  match respawn_food cfg fuel (bite cfg st) with
  | None => OutOfFuel
  | Some st =>
      if (0 <? score st) && (score st mod 20 =? 0)
         && (Z.of_nat (List.length (obstacles st)) <? max_obstacles cfg)
      then Continue (spawn_obstacle cfg 100 st)
      else Continue st
  end.

(** The first powerup lying on [head], and the list without it. *)
Fixpoint take_powerup (head : pos) (ps : list Powerup.t) : option (Powerup.t * list Powerup.t) :=
  match ps with
  | [] => None
  | p :: rest =>
      if pos_eqb (Powerup.position p) head then Some (p, rest)
      else
        match take_powerup head rest with
        | Some (q, rest') => Some (q, p :: rest')
        | None => None
        end
  end.

(** Powerup collection (lines 870-880). *)
Definition collect (cfg : Config) (head : pos) (st : Session) : outcome Session :=
  match take_powerup head (powerups st) with
  | None => Continue st
  | Some (p, rest) =>
      let st := with_effect st (Some (Powerup.type p)) (duration (Powerup.type p)) in
      let st := with_powerups st rest in
      match Powerup.type p with
      | speed_boost => set_timer (boost_interval cfg) st
      | slow_down => set_timer (slow_interval cfg) st
      end
  end.

(** The timer of the active effect (lines 883-887). *)
Definition decay (cfg : Config) (st : Session) : outcome Session :=
  match powerup_active st with
  | None => Continue st
  | Some t =>
      let st := with_effect st (Some t) (powerup_timer st - 1) in
      if powerup_timer st <=? 0
      then set_timer (initial_game_speed_ms cfg) (with_effect st None (powerup_timer st))
      else Continue st
  end.

Definition in_bounds (cfg : Config) (p : pos) : bool :=
  (0 <=? fst p) && (fst p <? width cfg) && (0 <=? snd p) && (snd p <? height cfg).

(** The handler of [MOVE_EVENT] (lines 805-887). *)
Definition move_tick (cfg : Config) (fuel : nat) (st : Session) : outcome Session :=
  match Snake.move (snake st) with
  | None => Crashed
  | Some s =>
      let st := with_snake st s in
      match Snake.body s with
      | [] => Crashed
      | head :: rest =>
          if negb (in_bounds cfg head) then GameOver HitWall st
          else if pos_in head rest then GameOver HitSelf st
          else if existsb (fun o => pos_eqb o head) (obstacles st) then GameOver HitObstacle st
          else
            and_then
              (if pos_eqb head (Food.position (food st))
               then eat cfg fuel st
               else match Snake.shrink_tail (snake st) with
                    | Some s' => Continue (with_snake st s')
                    | None => Crashed
                    end)
              (fun st => and_then (collect cfg head st) (decay cfg))
      end
  end.

(** ** Starting, loading and restarting a session *)

(** Lines 700-714, and again 735-741 and 785-791: a length-1 snake at the
    grid centre, food at a random cell, nothing else on the board.  [k] is
    the number of calls already made into [random]. *)
Definition fresh (cfg : Config) (k : nat) (ms : Z) (is_paused is_running : bool) : Session :=
  {| snake := Snake.init (start_pos cfg) (snake_skin_idx cfg);
     food := {| Food.position := random_position cfg k;
                Food.skin_idx := fruit_skin_idx cfg |};
     obstacles := [];
     powerups := [];
     score := 0;
     paused := is_paused;
     running := is_running;
     powerup_active := None;
     powerup_timer := 0;
     move_timer := ms;
     rng_calls := (2 + k)%nat |}.

(** The reset after a failed load: [paused], [running] and the timer period
    are not among the locals it assigns. *)
Definition new_game (cfg : Config) (st : Session) : Session :=
  fresh cfg (rng_calls st) (move_timer st) (paused st) (running st).

(** The state of the locals at line 720, before the save file is read. *)
Definition first_locals (cfg : Config) (k : nat) (ms : Z) : Session :=
  fresh cfg k ms false true.

(** The timer is set anew only for the two known effects (lines 728-731). *)
Definition reapply_speed (cfg : Config) (st : Session) : outcome Session :=
  match powerup_active st with
  | Some speed_boost => set_timer (boost_interval cfg) st
  | Some slow_down => set_timer (slow_interval cfg) st
  | None => Continue st
  end.

(** Lines 723-742 (and 773-792): take over a loaded document, or start anew
    when [load_game_state] returns [False]. *)
Definition resume (cfg : Config) (state : json) (st : Session) : outcome Session :=
  match load_game_state state with
  | Some raw =>
      match state with
      | JObj fields =>
          match typed_snapshot raw,
                int_of (dict_get fields "score" (JNum 0)),
                typed_active (dict_get fields "powerup_active" JNull),
                int_of (dict_get fields "powerup_timer" (JNum 0)) with
          | Some snap, Some sc, Some act, Some tm =>
              reapply_speed cfg
                {| snake := snap_snake snap;
                   food := snap_food snap;
                   obstacles := snap_obstacles snap;
                   powerups := snap_powerups snap;
                   score := sc;
                   paused := paused st;
                   running := running st;
                   powerup_active := act;
                   powerup_timer := tm;
                   move_timer := move_timer st;
                   rng_calls := rng_calls st |}
          | _, _, _, _ => OutOfModel
          end
      | _ => Crashed
      end
  | None => set_timer (initial_game_speed_ms cfg) (new_game cfg st)
  end.

(** [game_loop] up to the first iteration of [while running] (lines 696-742).
    [k] is the number of calls already made into [random]. *)
Definition game_loop_start (cfg : Config) (k : nat) (d : Disk) : outcome (Session * Disk) :=
  match initial_game_speed_ms cfg with
  | None => Crashed
  | Some ms =>
      let st := first_locals cfg k ms in
      let d' := disk_after_load d in
      match loaded d with
      | Some doc =>
          if truthy doc
          then and_then (resume cfg doc st) (fun st => Continue (st, d'))
          else Continue (st, d')
      | None => Continue (st, d')
      end
  end.

(** ** Input dispatch *)

Inductive key : Type :=
| K_UP | K_w | K_DOWN | K_s | K_LEFT | K_a | K_RIGHT | K_d
| K_l | K_p | K_ESCAPE | K_other.

(** The buttons of the pause overlay, in the order of the [buttons]
    dictionary. *)
Inductive button : Type := Resume | Restart | Quit.

(** A mouse press carries whether it was the left button ([event.button ==
    1]) and which rectangle of the pause overlay contains [event.pos]; the
    three rectangles do not overlap. *)
Inductive event : Type :=
| QUIT
| KEYDOWN (k : key)
| MOUSEBUTTONDOWN (left : bool) (hit : option button)
| MOVE_EVENT
| OTHER.

Definition key_eqb (a b : key) : bool :=
  match a, b with
  | K_UP, K_UP | K_w, K_w | K_DOWN, K_DOWN | K_s, K_s
  | K_LEFT, K_LEFT | K_a, K_a | K_RIGHT, K_RIGHT | K_d, K_d
  | K_l, K_l | K_p, K_p | K_ESCAPE, K_ESCAPE | K_other, K_other => true
  | _, _ => false
  end.

Definition key_in (k : key) (ks : list key) : bool := existsb (key_eqb k) ks.

Definition turn (st : Session) (d : pos) : Session :=
  with_snake st (Snake.turn (snake st) d).

(** The [K_l] branch (lines 765-792). *)
Definition load_key (cfg : Config) (st : Session) (d : Disk) : outcome (Session * Disk) :=
  let d' := disk_after_load d in
  match loaded d with
  | Some doc =>
      if truthy doc
      then
        let st := with_snake st (Snake.init (start_pos cfg) (snake_skin_idx cfg)) in
        let st := with_food st {| Food.position := random_position cfg (rng_calls st);
                                  Food.skin_idx := fruit_skin_idx cfg |} in
        let st := with_rng_calls st (2 + rng_calls st) in
        let st := with_powerups (with_obstacles st []) [] in
        and_then (resume cfg doc st) (fun st => Continue (st, d'))
      else Continue (st, d')
  | None => Continue (st, d')
  end.

(** The [if]/[elif] chain run on a key press while not paused
    (lines 753-792). *)
Definition movement_keys (cfg : Config) (k : key) (st : Session) (d : Disk)
  : outcome (Session * Disk) :=
  let dir := Snake.direction (snake st) in
  if key_in k [K_UP; K_w] && negb (pos_eqb dir (0, CELL_SIZE))
  then Continue (turn st (0, - CELL_SIZE), d)
  else if key_in k [K_DOWN; K_s] && negb (pos_eqb dir (0, - CELL_SIZE))
  then Continue (turn st (0, CELL_SIZE), d)
  else if key_in k [K_LEFT; K_a] && negb (pos_eqb dir (CELL_SIZE, 0))
  then Continue (turn st (- CELL_SIZE, 0), d)
  else if key_in k [K_RIGHT; K_d] && negb (pos_eqb dir (- CELL_SIZE, 0))
  then Continue (turn st (CELL_SIZE, 0), d)
  else if key_eqb k K_s
  then Continue (st, save_game (save_game_state st) d)
  else if key_eqb k K_l
  then load_key cfg st d
  else Continue (st, d).

(** Lines 794-801: the pause toggle and the way back to the menu. *)
Definition control_keys (k : key) (st : Session) : Session :=
  if key_eqb k K_p then with_paused st (negb (paused st))
  else if key_eqb k K_ESCAPE then with_running st false
  else st.

(** One event of the queue inside [while running] (lines 748-887). *)
Definition handle_event (cfg : Config) (fuel : nat) (ev : event) (st : Session) (d : Disk)
  : outcome (Session * Disk) :=
  match ev with
  | QUIT => Continue (with_running st false, d)
  | KEYDOWN k =>
      and_then
        (if negb (paused st) then movement_keys cfg k st d else Continue (st, d))
        (fun sd => Continue (control_keys k (fst sd), snd sd))
  | MOVE_EVENT =>
      if negb (paused st)
      then and_then (move_tick cfg fuel st) (fun st => Continue (st, d))
      else Continue (st, d)
  | MOUSEBUTTONDOWN _ _ => Continue (st, d)
  | OTHER => Continue (st, d)
  end.

(** The events of one frame, in queue order; a [return] ends the frame. *)
Fixpoint handle_events (cfg : Config) (fuel : nat) (evs : list event) (st : Session) (d : Disk)
  : outcome (Session * Disk) :=
  match evs with
  | [] => Continue (st, d)
  | ev :: rest =>
      and_then (handle_event cfg fuel ev st d)
               (fun sd => handle_events cfg fuel rest (fst sd) (snd sd))
  end.

(** ** The pause overlay and the whole loop *)

(** What one event does to the pause loop (lines 930-950). *)
Inductive pause_action : Type :=
| Stay (st : Session)
| RestartGame              (* [return game_loop(...)] *)
| BackToMenu               (* [return] *)
| Quitting.                (* [sys.exit()] *)

Definition pause_event (ev : event) (st : Session) : pause_action :=
  match ev with
  | QUIT => Quitting
  | MOUSEBUTTONDOWN true (Some Resume) => Stay (with_paused st false)
  | MOUSEBUTTONDOWN true (Some Restart) => RestartGame
  | MOUSEBUTTONDOWN true (Some Quit) => BackToMenu
  | KEYDOWN K_p => Stay (with_paused st false)
  | KEYDOWN K_ESCAPE => BackToMenu
  | _ => Stay st
  end.

(** One pass of [for event in pygame.event.get()] inside the pause loop: the
    events after a resume are still handled here. *)
Fixpoint pause_events (evs : list event) (st : Session) : pause_action :=
  match evs with
  | [] => Stay st
  | ev :: rest =>
      match pause_event ev st with
      | Stay st' => pause_events rest st'
      | other => other
      end
  end.

(** Where the control is between two calls of [pygame.event.get()]. *)
Inductive mode : Type := Playing | Overlay.

(** [while running] with its inner pause loop, fed with the successive
    answers of [pygame.event.get()].  The pause loop is left when [paused]
    has been cleared ([pause_running] is cleared together with it), and
    [running] is tested after each pass.  [Continue] means that the input
    ran out with the loop still going. *)
Fixpoint play (cfg : Config) (fuel : nat) (batches : list (list event))
    (m : mode) (st : Session) (d : Disk) : outcome (Session * Disk) :=
  match batches with
  | [] => Continue (st, d)
  | evs :: later =>
      let next (st : Session) (d : Disk) :=
        if paused st then play cfg fuel later Overlay st d
        else if running st then play cfg fuel later Playing st d
        else Returned in
      match m with
      | Playing =>
          and_then (handle_events cfg fuel evs st d)
                   (fun sd => next (fst sd) (snd sd))
      | Overlay =>
          match pause_events evs st with
          | Stay st' => next st' d
          | RestartGame =>
              and_then (game_loop_start cfg (rng_calls st) d)
                       (fun sd => play cfg fuel later Playing (fst sd) (snd sd))
          | BackToMenu => Returned
          | Quitting => Exited
          end
      end
  end.

(** [game_loop(difficulty, snake_skin_idx, fruit_skin_idx)], entered after
    [k] calls into [random]. *)
Definition game_loop (cfg : Config) (fuel : nat) (k : nat)
    (batches : list (list event)) (d : Disk) : outcome (Session * Disk) :=
  and_then (game_loop_start cfg k d)
           (fun sd => play cfg fuel batches Playing (fst sd) (snd sd)).

(** ** Helpers and menu code that compute *)

(** [clamp(value, minimum, maximum)]. *)
Definition clamp (value minimum maximum : Z) : Z :=
  Z.max minimum (Z.min value maximum).

(** [reset_leaderboard]: the file is removed if it is there, then an empty
    board is written.  [os.remove] stands outside any [try]: on a blocked
    path its exception reaches the caller and nothing is written. *)
Definition reset_leaderboard (d : Disk) : result Disk :=
  match leaderboard_file d with
  | Some Blocked => Raised
  | _ => Ok (save_leaderboard [] (set_leaderboard_file d None))
  end.

(** The high score shown by [main_menu] (lines 378-385):
    [leaderboard[0]['score']] when the loaded leaderboard is truthy, nothing
    otherwise.  Indexing a truthy value that is not a list with [0], or its
    first item with ['score'], raises unless the item is a dictionary with
    that key. *)
Definition menu_high_score (d : Disk) : result (option json) :=
  match load_leaderboard d with
  | JArr [] => Ok None
  | JArr (first :: _) =>
      match subscript first "score" with
      | Some v => Ok (Some v)
      | None => Raised
      end
  | other => if truthy other then Raised else Ok None
  end.

(** ** Vocabulary of the statements *)

(** The four directions the dispatch can set. *)
Inductive heading : Type := Up | Down | Left | Right.

Definition vector (h : heading) : pos :=
  match h with
  | Up => (0, - CELL_SIZE)
  | Down => (0, CELL_SIZE)
  | Left => (- CELL_SIZE, 0)
  | Right => (CELL_SIZE, 0)
  end.

Definition opposite (h : heading) : heading :=
  match h with
  | Up => Down
  | Down => Up
  | Left => Right
  | Right => Left
  end.

Definition heading_eqb (a b : heading) : bool :=
  match a, b with
  | Up, Up | Down, Down | Left, Left | Right, Right => true
  | _, _ => false
  end.

(** The arrow key and the letter key bound to each direction. *)
Definition keys_of (h : heading) : list key :=
  match h with
  | Up => [K_UP; K_w]
  | Down => [K_DOWN; K_s]
  | Left => [K_LEFT; K_a]
  | Right => [K_RIGHT; K_d]
  end.

(** What a phase leaves alone: the snake and the effect. *)
Definition same_snake_and_effect (st st' : Session) : Prop :=
  snake st' = snake st /\
  powerup_active st' = powerup_active st /\
  powerup_timer st' = powerup_timer st /\
  move_timer st' = move_timer st.

(** [a] may stand before [b] on the leaderboard. *)
Definition ranks_before (a b : entry) : Prop := entry_score b <= entry_score a.

(** A name as [save_score] stores it: only characters of the class, no blank
    at either end, never empty. *)
Definition clean_name (name : string) : Prop :=
  let cs := list_ascii_of_string name in
  Forall (fun c => name_char c = true) cs /\
  cs <> [] /\
  (forall c, hd_error cs = Some c -> whitespace c = false) /\
  (forall c, hd_error (rev cs) = Some c -> whitespace c = false).

(** The characters of [[a-zA-Z0-9 ]], written out. *)
Definition name_class : string :=
  "abcdefghijklmnopqrstuvwxyzABCDEFGHIJKLMNOPQRSTUVWXYZ0123456789 ".

(** What is to be stored for a typed name.  The characters of the class, in
    the order typed, fall into the blanks in front, the part kept and the
    blanks behind; the part kept neither starts nor ends with a blank; it is
    what is stored, and the placeholder is stored when nothing is kept. *)
Definition stored_for (typed stored : string) : Prop :=
  exists front kept back : list ascii,
    filter name_char (list_ascii_of_string typed) = front ++ kept ++ back /\
    Forall (fun c => c = " "%char) front /\
    Forall (fun c => c = " "%char) back /\
    (forall c, hd_error kept = Some c -> c <> " "%char) /\
    (forall c, hd_error (rev kept) = Some c -> c <> " "%char) /\
    stored = match kept with
             | [] => "Anonymous"%string
             | _ => string_of_list_ascii kept
             end.

(** One of the first [fuel] draws of the food loop is a free cell. *)
Definition free_draw_within (cfg : Config) (fuel : nat) (st : Session) : Prop :=
  exists i : nat,
    (i < fuel)%nat /\
    pos_in (random_position cfg (rng_calls st + 2 * i)) (respawn_blocked st) = false.

(** ** Sample runs *)

Module Sample.
(** An 800 x 600 screen at the speed the menu passes. *)
Definition config (r : Random) : Config :=
  {| width := 800; height := 600; speed := FPS;
     snake_skin_idx := 0; fruit_skin_idx := 0; rnd := r |}.

(** Every [randint] answers its lower bound, no powerup is rolled. *)
Definition low : Random :=
  {| randint := fun _ a _ => a; chance20 := fun _ => false; choice := fun _ _ => O |}.

(** The first two [randint] calls answer 20 and 15: the grid centre. *)
Definition centre : Random :=
  {| randint := fun k a _ => match k with O => 20 | 1%nat => 15 | _ => a end;
     chance20 := fun _ => false;
     choice := fun _ _ => O |}.

Definition empty_disk : Disk := {| save_file := None; leaderboard_file := None |}.

Definition corrupted_disk : Disk :=
  {| save_file := Some (Malformed "{"); leaderboard_file := None |}.

(** A snake of one segment heading right along row 100. *)
Definition session : Session :=
  {| snake := {| Snake.body := [(100, 100)]; Snake.direction := (CELL_SIZE, 0);
                 Snake.skin_idx := 0 |};
     food := {| Food.position := (300, 300); Food.skin_idx := 0 |};
     obstacles := [];
     powerups := [];
     score := 0;
     paused := false;
     running := true;
     powerup_active := None;
     powerup_timer := 0;
     move_timer := 66;
     rng_calls := O |}.

(** The same with the food right ahead of the head. *)
Definition about_to_eat : Session :=
  with_food session {| Food.position := (120, 100); Food.skin_idx := 0 |}.

(** A boost with ten ticks left, and a slow-down powerup right ahead. *)
Definition boosted_before_pickup : Session :=
  with_powerups
    (with_move_timer (with_effect session (Some speed_boost) 10) 50)
    [{| Powerup.position := (120, 100); Powerup.type := slow_down |}].

(** A boost with ten ticks left and a clear road. *)
Definition boosted : Session :=
  with_move_timer (with_effect session (Some speed_boost) 10) 50.

(** A longer game in progress. *)
Definition midgame : Session :=
  {| snake := {| Snake.body := [(200, 100); (180, 100); (160, 100)];
                 Snake.direction := (CELL_SIZE, 0); Snake.skin_idx := 2 |};
     food := {| Food.position := (40, 60); Food.skin_idx := 1 |};
     obstacles := [(400, 400)];
     powerups := [{| Powerup.position := (20, 20); Powerup.type := speed_boost |}];
     score := 21;
     paused := false;
     running := true;
     powerup_active := Some slow_down;
     powerup_timer := 30;
     move_timer := 100;
     rng_calls := 7%nat |}.

Definition board : list entry :=
  [{| entry_name := "Ada"; entry_score := 9 |};
   {| entry_name := "Bob"; entry_score := 7 |};
   {| entry_name := "Cy"; entry_score := 7 |};
   {| entry_name := "Dee"; entry_score := 3 |};
   {| entry_name := "Eve"; entry_score := 1 |}].

Definition board_disk : Disk :=
  {| save_file := None;
     leaderboard_file := Some (Parses (JArr (map json_entry board))) |}.
End Sample.

(** ** Further vocabulary *)

(** [random.randint(a, b)] answers within its bounds. *)
Definition fair_randint (r : Random) : Prop :=
  forall (k : nat) (a b : Z), a <= b -> a <= randint r k a b <= b.

(** A position whose coordinates are multiples of the cell size. *)
Definition on_grid (p : pos) : Prop :=
  fst p mod CELL_SIZE = 0 /\ snd p mod CELL_SIZE = 0.

(** The board is consistent: no two obstacles and no two powerups share a
    cell, no obstacle shares a cell with a powerup, the food lies on neither,
    and the snake, which does not cross itself, lies on none of them. *)
Record well_placed (st : Session) : Prop := {
  obstacles_distinct : NoDup (obstacles st);
  powerups_distinct : NoDup (powerup_positions st);
  obstacles_off_powerups :
    forall p, In p (obstacles st) -> ~ In p (powerup_positions st);
  food_off_obstacles : ~ In (Food.position (food st)) (obstacles st);
  food_off_powerups : ~ In (Food.position (food st)) (powerup_positions st);
  snake_off_obstacles :
    forall p, In p (Snake.body (snake st)) -> ~ In p (obstacles st);
  snake_off_powerups :
    forall p, In p (Snake.body (snake st)) -> ~ In p (powerup_positions st);
  snake_off_food : ~ In (Food.position (food st)) (Snake.body (snake st));
  snake_simple : NoDup (Snake.body (snake st))
}.

(** The state between the food branch and the collection, for a snake whose
    new head is [head] and whose body before the move was [rest]: everything
    is in place except that a powerup may lie under the head. *)
Definition nearly_placed (head : pos) (rest : list pos) (st1 : Session) : Prop :=
  (forall x, In x (Snake.body (snake st1)) -> x = head \/ In x rest) /\
  NoDup (Snake.body (snake st1)) /\
  NoDup (obstacles st1) /\
  NoDup (powerup_positions st1) /\
  (forall x, In x (obstacles st1) -> ~ In x (powerup_positions st1)) /\
  ~ In (Food.position (food st1)) (obstacles st1) /\
  ~ In (Food.position (food st1)) (powerup_positions st1) /\
  ~ In (Food.position (food st1)) (Snake.body (snake st1)) /\
  (forall x, In x (Snake.body (snake st1)) -> ~ In x (obstacles st1)) /\
  (forall x, In x rest -> ~ In x (powerup_positions st1)).

(** A cell of the grid that lies on the board. *)
Definition board_cell (cfg : Config) (p : pos) : Prop :=
  in_bounds cfg p = true /\ on_grid p.

(** Food, obstacles and powerups all lie on cells of the board. *)
Definition all_on_board (cfg : Config) (st : Session) : Prop :=
  board_cell cfg (Food.position (food st)) /\
  Forall (board_cell cfg) (obstacles st) /\
  Forall (board_cell cfg) (powerup_positions st).

(** The two flags of the loop are as they were. *)
Definition same_flags (st st' : Session) : Prop :=
  paused st' = paused st /\ running st' = running st.

(** Neither the S key nor the L key. *)
Definition no_disk_key (ev : event) : bool :=
  match ev with
  | KEYDOWN K_s => false
  | KEYDOWN K_l => false
  | _ => true
  end.

(** [n] runs of the effect timer, one per tick. *)
Fixpoint decays (cfg : Config) (n : nat) (st : Session) : outcome Session :=
  match n with
  | O => Continue st
  | S m => and_then (decay cfg st) (decays cfg m)
  end.

(** The required keys of a save document. *)
Definition required_keys : list string :=
  ["snake"; "direction"; "food_pos"; "obstacles"; "powerups"]%string.

(** A save document with the required keys only. *)
Definition bare_document (body : list pos) (dir fpos : pos) (obs : list pos)
    (pups : list Powerup.t) : json :=
  JObj [("snake"%string, JArr (map json_pos body));
        ("direction"%string, json_pos dir);
        ("food_pos"%string, json_pos fpos);
        ("obstacles"%string, JArr (map json_pos obs));
        ("powerups"%string, JArr (map json_powerup pups))].

(** Two directions at a right angle. *)
Definition perpendicular (a b : heading) : bool :=
  negb (heading_eqb a b) && negb (heading_eqb a (opposite b)).

(** Events that the main loop drops when [paused] is set. *)
Definition dropped_when_paused (ev : event) : bool :=
  match ev with
  | QUIT => false
  | KEYDOWN K_p => false
  | KEYDOWN K_ESCAPE => false
  | KEYDOWN _ => true
  | MOUSEBUTTONDOWN _ _ => true
  | MOVE_EVENT => true
  | OTHER => true
  end.

(** The period in force after a snapshot with effect [act] was taken over
    while [ms] was the period. *)
Definition period_after_load (cfg : Config) (act : option ptype) (ms : Z) : Z :=
  match act with
  | Some speed_boost => Z.max 50 (1000 / (speed cfg + 10))
  | Some slow_down => 1000 / Z.max 1 (speed cfg - 5)
  | None => ms
  end.

(** ** More sample runs *)

Module Scene.
(** A snake of three segments that has been moving right. *)
Definition long_snake : Session :=
  with_snake Sample.session
    {| Snake.body := [(200, 100); (180, 100); (160, 100)];
       Snake.direction := (CELL_SIZE, 0); Snake.skin_idx := 0 |}.

(** The sample session heading up, from where the S key saves. *)
Definition heading_up : Session :=
  with_snake Sample.session
    {| Snake.body := [(100, 100)]; Snake.direction := (0, - CELL_SIZE);
       Snake.skin_idx := 0 |}.

(** The sample session under the pause overlay. *)
Definition under_overlay : Session := with_paused Sample.session true.

(** Score 19, food right ahead, one obstacle on the board. *)
Definition before_twentieth : Session :=
  with_obstacles (with_score Sample.about_to_eat 19) [(400, 400)].

(** [randint] answers its lower bound plus the number of calls made so far,
    capped at the upper bound: successive draws walk down the diagonal. *)
Definition counting : Random :=
  {| randint := fun k a b => Z.min b (a + Z.of_nat k);
     chance20 := fun _ => false;
     choice := fun _ _ => O |}.

(** A board of two entries. *)
Definition short_board : list entry :=
  [{| entry_name := "Ada"; entry_score := 9 |};
   {| entry_name := "Bob"; entry_score := 7 |}].

Definition short_board_disk : Disk :=
  {| save_file := None;
     leaderboard_file := Some (Parses (JArr (map json_entry short_board))) |}.

(** A leaderboard file that parses to a dictionary. *)
Definition odd_board_disk : Disk :=
  {| save_file := None;
     leaderboard_file := Some (Parses (JObj [("name"%string, JStr "Ada")])) |}.

(** A save document without the obstacles. *)
Definition incomplete_disk : Disk :=
  {| save_file :=
       Some (Parses (JObj [("snake"%string, JArr [json_pos (100, 100)]);
                           ("direction"%string, json_pos (20, 0));
                           ("food_pos"%string, json_pos (40, 40));
                           ("powerups"%string, JArr [])]));
     leaderboard_file := None |}.

(** Directories stand where the two files should be. *)
Definition blocked_disk : Disk :=
  {| save_file := Some Blocked; leaderboard_file := Some Blocked |}.
End Scene.

(** * Properties *)

(** ** Small facts used throughout *)

Lemma pos_eqb_eq (p q : pos) : pos_eqb p q = true <-> p = q.
Proof.
  destruct p as [a b], q as [c d]. unfold pos_eqb. simpl.
  rewrite andb_true_iff, !Z.eqb_eq. split.
  - intros [-> ->]. reflexivity.
  - intros H. inversion H. auto.
Qed.

Lemma pos_eqb_refl (p : pos) : pos_eqb p p = true.
Proof. apply pos_eqb_eq. reflexivity. Qed.

Lemma pos_eqb_neq (p q : pos) : pos_eqb p q = false <-> p <> q.
Proof.
  rewrite <- pos_eqb_eq. destruct (pos_eqb p q); split; congruence.
Qed.

Lemma pos_eqb_sym (p q : pos) : pos_eqb p q = pos_eqb q p.
Proof.
  unfold pos_eqb. rewrite (Z.eqb_sym (fst p)), (Z.eqb_sym (snd p)). reflexivity.
Qed.

Lemma pos_in_In (p : pos) (l : list pos) : pos_in p l = true <-> In p l.
Proof.
  unfold pos_in. rewrite existsb_exists. split.
  - intros [q [Hq He]]. apply pos_eqb_eq in He. subst. assumption.
  - intros H. exists p. split; [assumption | apply pos_eqb_refl].
Qed.

Lemma pos_in_not_In (p : pos) (l : list pos) : pos_in p l = false <-> ~ In p l.
Proof.
  rewrite <- pos_in_In. destruct (pos_in p l); split; congruence.
Qed.

Lemma hits_obstacle_In (p : pos) (l : list pos) :
  existsb (fun o => pos_eqb o p) l = pos_in p l.
Proof.
  unfold pos_in. induction l as [| o l IH]; simpl; [reflexivity |].
  rewrite IH, (pos_eqb_sym o p). reflexivity.
Qed.

Lemma in_bounds_spec (cfg : Config) (p : pos) :
  in_bounds cfg p = true <->
  0 <= fst p < width cfg /\ 0 <= snd p < height cfg.
Proof.
  unfold in_bounds. rewrite !andb_true_iff, !Z.leb_le, !Z.ltb_lt. lia.
Qed.

(** ** Writes that succeed and writes that are swallowed *)

Lemma writable_true (slot : option file) :
  writable slot = true <-> slot <> Some Blocked.
Proof.
  destruct slot as [[] |]; cbn; split; intros H; congruence.
Qed.

Lemma writable_false (slot : option file) :
  writable slot = false <-> slot = Some Blocked.
Proof.
  destruct slot as [[] |]; cbn; split; intros H; congruence.
Qed.

Lemma save_game_written (state : json) (d : Disk) :
  save_file d <> Some Blocked ->
  save_game state d = set_save_file d (Some (Parses state)).
Proof.
  intros H. unfold save_game. rewrite (proj2 (writable_true _) H). reflexivity.
Qed.

Lemma save_game_swallowed (state : json) (d : Disk) :
  save_file d = Some Blocked -> save_game state d = d.
Proof.
  intros H. unfold save_game. rewrite H. reflexivity.
Qed.

Lemma save_game_other_file (state : json) (d : Disk) :
  leaderboard_file (save_game state d) = leaderboard_file d.
Proof.
  unfold save_game. destruct (writable (save_file d)); reflexivity.
Qed.

Lemma save_leaderboard_written (l : list json) (d : Disk) :
  leaderboard_file d <> Some Blocked ->
  save_leaderboard l d
  = set_leaderboard_file d (Some (Parses (JArr (firstn 5 l)))).
Proof.
  intros H. unfold save_leaderboard.
  rewrite (proj2 (writable_true _) H). reflexivity.
Qed.

Lemma save_leaderboard_swallowed (l : list json) (d : Disk) :
  leaderboard_file d = Some Blocked -> save_leaderboard l d = d.
Proof.
  intros H. unfold save_leaderboard. rewrite H. reflexivity.
Qed.

Lemma save_leaderboard_other_file (l : list json) (d : Disk) :
  save_file (save_leaderboard l d) = save_file d.
Proof.
  unfold save_leaderboard. destruct (writable (leaderboard_file d)); reflexivity.
Qed.

Lemma blocked_dec (slot : option file) :
  {slot = Some Blocked} + {slot <> Some Blocked}.
Proof.
  destruct slot as [[] |]; first [left; reflexivity | right; discriminate].
Qed.

(** ** Runs of the model on the scenarios of the specification *)

(** A fresh session on an 800 x 600 screen: after three ticks with no food
    on the way the body still has one segment, three cells to the right. *)
Example three_ticks_from_the_centre :
  exists st d,
    game_loop (Sample.config Sample.low) 1 0
              [[MOVE_EVENT]; [MOVE_EVENT]; [MOVE_EVENT]] Sample.empty_disk
    = Continue (st, d) /\
    Snake.body (snake st) = [(460, 300)] /\ score st = 0.
Proof. eexists. eexists. split; [reflexivity |]. split; reflexivity. Qed.

(** P pauses, ticks are ignored under the overlay, a left click on Resume
    takes the game up again, and the next tick moves the snake. *)
Example pause_and_resume :
  exists st d,
    game_loop (Sample.config Sample.low) 1 0
              [[KEYDOWN K_p; MOVE_EVENT]; [MOVE_EVENT];
               [MOUSEBUTTONDOWN true (Some Resume)]; [MOVE_EVENT]]
              Sample.empty_disk
    = Continue (st, d) /\
    Snake.body (snake st) = [(420, 300)] /\ paused st = false.
Proof. eexists. eexists. split; [reflexivity |]. split; reflexivity. Qed.

(** Running into the right wall ends the session. *)
Example into_the_wall :
  exists final,
    play (Sample.config Sample.low) 1 [[MOVE_EVENT]] Playing
         (with_snake Sample.session
            {| Snake.body := [(780, 100)]; Snake.direction := (CELL_SIZE, 0);
               Snake.skin_idx := 0 |})
         Sample.empty_disk
    = GameOver HitWall final.
Proof. eexists. reflexivity. Qed.

Example sanitize_keeps_letters_digits_blanks : sanitize "Al*ice 99" = "Alice 99"%string.
Proof. reflexivity. Qed.

Example sanitize_placeholder : sanitize " *!? " = "Anonymous"%string.
Proof. reflexivity. Qed.

Example sanitize_trims_both_ends : sanitize "  Bo b_ "%string = "Bo b"%string.
Proof. reflexivity. Qed.

(** With directories in place of the files nothing is written: the save key
    and [save_score] go on as if nothing had happened, a later load finds
    nothing, and [reset_leaderboard] raises. *)
Example writes_where_directories_stand :
  save_game (save_game_state Sample.midgame) Scene.blocked_disk = Scene.blocked_disk /\
  loaded Scene.blocked_disk = None /\
  save_score "Zed" 7 Scene.blocked_disk = Ok Scene.blocked_disk /\
  load_leaderboard Scene.blocked_disk = JArr [] /\
  reset_leaderboard Scene.blocked_disk = Raised.
Proof. repeat split. Qed.

(** A file that does not parse is overwritten by the next write. *)
Example writes_over_a_corrupted_file :
  loaded (save_game (save_game_state Sample.midgame) Sample.corrupted_disk)
  = Some (save_game_state Sample.midgame).
Proof. reflexivity. Qed.

(** ** Loading the save slot *)

(** C4, as the code has it: [load_game] answers [None] both when the slot is
    absent and when its content does not parse, so the two cases differ only
    in the line printed to the console.  A corrupted file is deleted and the
    disk is then the one with the slot absent; starting a session or pressing
    the load key on the corrupted disk goes exactly as on the absent one. *)
Theorem load_game_absent_or_corrupted (lb : option file) (text : string) :
  let absent := {| save_file := None; leaderboard_file := lb |} in
  let corrupted := {| save_file := Some (Malformed text); leaderboard_file := lb |} in
  loaded absent = None /\
  disk_after_load absent = absent /\
  loaded corrupted = None /\
  disk_after_load corrupted = absent /\
  printed_by_load corrupted <> printed_by_load absent /\
  load_game (disk_after_load corrupted) = load_game absent /\
  (forall cfg k, game_loop_start cfg k corrupted = game_loop_start cfg k absent) /\
  (forall cfg st, load_key cfg st corrupted = load_key cfg st absent).
Proof.
  cbn. repeat split; try reflexivity. discriminate.
Qed.

(** C4, the claim as stated fails: the value returned for a file that does
    not parse is the value returned for no file at all. *)
Lemma load_game_corrupted_same_answer :
  loaded Sample.corrupted_disk = None /\
  loaded Sample.empty_disk = None /\
  loaded Sample.corrupted_disk = loaded Sample.empty_disk.
Proof. repeat split. Qed.

(** ** Direction keys *)

Lemma direction_turn (st : Session) (d : pos) :
  Snake.direction (snake (turn st d)) = d.
Proof. reflexivity. Qed.

(** C7: whatever the current direction, a key asking for its exact reverse
    leaves the direction as it is, and a key asking for any of the other
    three sets the direction to the requested vector. *)
Theorem reverse_rejected_others_accepted
    (cfg : Config) (fuel : nat) (cur req : heading) (k : key) (st : Session) (d : Disk) :
  In k (keys_of req) ->
  paused st = false ->
  Snake.direction (snake st) = vector cur ->
  exists st' d',
    handle_event cfg fuel (KEYDOWN k) st d = Continue (st', d') /\
    Snake.direction (snake st') =
      (if heading_eqb req (opposite cur) then vector cur else vector req) /\
    Snake.body (snake st') = Snake.body (snake st).
Proof.
  intros Hk Hp Hd.
  unfold handle_event, movement_keys. rewrite Hp, Hd. cbn [negb].
  destruct cur, req; cbn in Hk;
    destruct Hk as [<- | [<- | []]]; cbn;
    eexists; eexists; (split; [reflexivity |]); cbn; auto.
Qed.

Lemma reverse_rejected_others_accepted_witness :
  exists st' d',
    handle_event (Sample.config Sample.low) 1 (KEYDOWN K_LEFT)
                 Sample.session Sample.empty_disk = Continue (st', d') /\
    Snake.direction (snake st') = (CELL_SIZE, 0) /\
    Snake.body (snake st') = [(100, 100)].
Proof.
  apply (reverse_rejected_others_accepted
           (Sample.config Sample.low) 1 Right Left K_LEFT Sample.session Sample.empty_disk).
  - simpl. left. reflexivity.
  - reflexivity.
  - reflexivity.
Defined.

(** C9: while running, the S key saves only when the snake is heading up;
    for every other direction it is taken as the move-down key, the direction
    becomes down and the disk is left alone. *)
Theorem save_key_saves_only_heading_up
    (cfg : Config) (fuel : nat) (st : Session) (d : Disk) :
  paused st = false ->
  (Snake.direction (snake st) = vector Up ->
   handle_event cfg fuel (KEYDOWN K_s) st d
   = Continue (st, save_game (save_game_state st) d)) /\
  (Snake.direction (snake st) <> vector Up ->
   handle_event cfg fuel (KEYDOWN K_s) st d
   = Continue (turn st (vector Down), d)).
Proof.
  intros Hp. unfold handle_event, movement_keys. rewrite Hp. cbn [negb]. split.
  - intros ->. reflexivity.
  - intros Hne. apply pos_eqb_neq in Hne. cbn in Hne |- *.
    unfold CELL_SIZE in *. cbn in Hne |- *. rewrite Hne. reflexivity.
Qed.

Lemma save_key_saves_only_heading_up_witness :
  handle_event (Sample.config Sample.low) 1 (KEYDOWN K_s)
               Sample.session Sample.empty_disk
  = Continue (turn Sample.session (vector Down), Sample.empty_disk).
Proof.
  apply (save_key_saves_only_heading_up
           (Sample.config Sample.low) 1 Sample.session Sample.empty_disk).
  - reflexivity.
  - discriminate.
Defined.

(** ** Tick intervals *)

Lemma int_truediv_pos (a b : Z) :
  0 <= a -> 0 < b -> int_truediv a b = Some (a / b).
Proof.
  intros Ha Hb. unfold int_truediv.
  destruct (Z.eqb_spec b 0) as [-> | _]; [lia |].
  rewrite Z.quot_div_nonneg by lia. reflexivity.
Qed.

Lemma initial_game_speed_ms_pos (cfg : Config) :
  0 < speed cfg -> initial_game_speed_ms cfg = Some (1000 / speed cfg).
Proof. intros H. apply int_truediv_pos; lia. Qed.

Lemma boost_interval_pos (cfg : Config) :
  0 < speed cfg ->
  boost_interval cfg = Some (Z.max 50 (1000 / (speed cfg + 10))).
Proof.
  intros H. unfold boost_interval. rewrite int_truediv_pos by lia. reflexivity.
Qed.

Lemma slow_interval_pos (cfg : Config) :
  slow_interval cfg = Some (1000 / Z.max 1 (speed cfg - 5)).
Proof. apply int_truediv_pos; lia. Qed.

(** C6: for a positive number of ticks per second, a session starts with the
    period [1000 / ticks_per_second]; collecting a speed boost sets it to
    [1000 / (ticks_per_second + 10)] but not below 50, collecting a slow-down
    to [1000 / max(1, ticks_per_second - 5)], all in integer division. *)
Theorem tick_intervals (cfg : Config) :
  0 < speed cfg ->
  (forall k lb,
     exists st d,
       game_loop_start cfg k {| save_file := None; leaderboard_file := lb |}
       = Continue (st, d) /\
       move_timer st = 1000 / speed cfg) /\
  (forall head st p rest,
     take_powerup head (powerups st) = Some (p, rest) ->
     exists st',
       collect cfg head st = Continue st' /\
       move_timer st' =
         match Powerup.type p with
         | speed_boost => Z.max 50 (1000 / (speed cfg + 10))
         | slow_down => 1000 / Z.max 1 (speed cfg - 5)
         end).
Proof.
  intros Hs. split.
  - intros k lb. unfold game_loop_start.
    rewrite (initial_game_speed_ms_pos cfg Hs). cbn.
    eexists; eexists; split; reflexivity.
  - intros head st p rest Ht. unfold collect. rewrite Ht.
    destruct (Powerup.type p).
    + rewrite (boost_interval_pos cfg Hs). cbn. eexists; split; reflexivity.
    + rewrite slow_interval_pos. cbn. eexists; split; reflexivity.
Qed.

Lemma tick_intervals_witness :
  (exists st d,
     game_loop_start (Sample.config Sample.low) 0 Sample.empty_disk = Continue (st, d) /\
     move_timer st = 66) /\
  (exists st',
     collect (Sample.config Sample.low) (120, 100) Sample.boosted_before_pickup
     = Continue st' /\
     move_timer st' = 100).
Proof.
  destruct (tick_intervals (Sample.config Sample.low)) as [Hstart Hcollect].
  - reflexivity.
  - split.
    + exact (Hstart O None).
    + exact (Hcollect (120, 100) Sample.boosted_before_pickup
                      {| Powerup.position := (120, 100); Powerup.type := slow_down |}
                      [] eq_refl).
Defined.

(** ** Fatal collisions *)

Lemma Continue_inj {A : Type} (a b : A) : Continue a = Continue b -> a = b.
Proof. intros H. injection H as ->. reflexivity. Qed.

Lemma and_then_not_game_over {A B : Type} (o : outcome A) (k : A -> outcome B) :
  (forall c final, o <> GameOver c final) ->
  (forall a c final, k a <> GameOver c final) ->
  forall c final, and_then o k <> GameOver c final.
Proof.
  intros Ho Hk c final. destruct o; cbn; try discriminate.
  - apply Hk.
  - intros H. eapply Ho. reflexivity.
Qed.

Lemma set_timer_not_game_over (ms : option Z) (st : Session) c final :
  set_timer ms st <> GameOver c final.
Proof. destruct ms; discriminate. Qed.

Lemma eat_not_game_over cfg fuel st c final : eat cfg fuel st <> GameOver c final.
Proof.
  unfold eat. destruct (respawn_food cfg fuel (bite cfg st)); [| discriminate].
  destruct (_ && _); discriminate.
Qed.

Lemma collect_not_game_over cfg head st c final : collect cfg head st <> GameOver c final.
Proof.
  unfold collect. destruct (take_powerup head (powerups st)) as [[p rest] |];
    [| discriminate].
  destruct (Powerup.type p); apply set_timer_not_game_over.
Qed.

Lemma decay_not_game_over cfg st c final : decay cfg st <> GameOver c final.
Proof.
  unfold decay. destruct (powerup_active st); [| discriminate].
  destruct (_ <=? _); [apply set_timer_not_game_over | discriminate].
Qed.

(** C1: once the head has been advanced, leaving the board ends the session;
    failing that, landing on another body segment ends it; failing that,
    landing on an obstacle ends it.  In each case the tick stops there: the
    final state is the old one with only the head prepended, nothing of the
    food, score, powerup or timer logic has run.  When none of the three
    holds the tick does not end the session. *)
Theorem fatal_collisions_end_the_tick
    (cfg : Config) (fuel : nat) (st : Session) (s : Snake.t) (head : pos) (rest : list pos) :
  Snake.move (snake st) = Some s ->
  Snake.body s = head :: rest ->
  let outside := ~ (0 <= fst head < width cfg /\ 0 <= snd head < height cfg) in
  (outside -> move_tick cfg fuel st = GameOver HitWall (with_snake st s)) /\
  (~ outside -> In head rest ->
   move_tick cfg fuel st = GameOver HitSelf (with_snake st s)) /\
  (~ outside -> ~ In head rest -> In head (obstacles st) ->
   move_tick cfg fuel st = GameOver HitObstacle (with_snake st s)) /\
  (~ outside -> ~ In head rest -> ~ In head (obstacles st) ->
   forall c final, move_tick cfg fuel st <> GameOver c final).
Proof.
  intros Hm Hb outside. subst outside. unfold move_tick. rewrite Hm, Hb.
  rewrite hits_obstacle_In. cbn [obstacles with_snake].
  destruct (in_bounds cfg head) eqn:Hin.
  - apply in_bounds_spec in Hin. cbn [negb].
    split; [intros H; contradiction |].
    destruct (pos_in head rest) eqn:Hself.
    + apply pos_in_In in Hself.
      split; [reflexivity |]. split; intros _ H; contradiction.
    + apply pos_in_not_In in Hself.
      split; [intros _ H; contradiction |].
      destruct (pos_in head (obstacles st)) eqn:Hobs.
      * apply pos_in_In in Hobs.
        split; [reflexivity |]. intros _ _ H. contradiction.
      * apply pos_in_not_In in Hobs.
        split; [intros _ _ H; contradiction |].
        intros _ _ _. apply and_then_not_game_over.
        -- intros c final. destruct (pos_eqb head _).
           ++ apply eat_not_game_over.
           ++ destruct (Snake.shrink_tail _); discriminate.
        -- intros a. apply and_then_not_game_over.
           ++ intros c final. apply collect_not_game_over.
           ++ intros a' c final. apply decay_not_game_over.
  - assert (Hout : ~ (0 <= fst head < width cfg /\ 0 <= snd head < height cfg)).
    { intros H. apply in_bounds_spec in H. congruence. }
    cbn [negb]. split; [reflexivity |].
    repeat split; intros H; contradiction.
Qed.

Lemma fatal_collisions_end_the_tick_witness :
  let st := with_snake Sample.session
              {| Snake.body := [(780, 100)]; Snake.direction := (CELL_SIZE, 0);
                 Snake.skin_idx := 0 |} in
  move_tick (Sample.config Sample.low) 1 st
  = GameOver HitWall
      (with_snake st {| Snake.body := [(800, 100); (780, 100)];
                        Snake.direction := (CELL_SIZE, 0); Snake.skin_idx := 0 |}).
Proof.
  intros st.
  refine (proj1 (fatal_collisions_end_the_tick
                   (Sample.config Sample.low) 1 st _ (800, 100) [(780, 100)]
                   eq_refl eq_refl) _).
  cbn. lia.
Defined.

(** ** The phases of a tick *)

Section Phases.
Variable cfg : Config.

Lemma spawn_powerup_frame (n : nat) (st : Session) :
  let st' := spawn_powerup cfg n st in
  same_snake_and_effect st st' /\
  food st' = food st /\ obstacles st' = obstacles st /\ score st' = score st.
Proof.
  revert st. induction n as [| n IH]; intros st; cbn.
  - repeat split.
  - destruct (pos_in _ _).
    + apply (IH (with_rng_calls st (2 + rng_calls st))).
    + repeat split.
Qed.

(** The powerup search only ever appends, and never on the snake. *)
Lemma spawn_powerup_appends (n : nat) (st : Session) :
  exists extra,
    powerups (spawn_powerup cfg n st) = powerups st ++ extra /\
    Forall (fun q => ~ In (Powerup.position q) (Snake.body (snake st))) extra.
Proof.
  revert st. induction n as [| n IH]; intros st; cbn.
  - exists []. rewrite app_nil_r. split; [reflexivity | constructor].
  - destruct (pos_in _ _) eqn:Hfree.
    + apply (IH (with_rng_calls st (2 + rng_calls st))).
    + eexists. split; [reflexivity |]. constructor; [| constructor].
      apply pos_in_not_In in Hfree. cbn. intros H. apply Hfree.
      apply in_or_app. left. exact H.
Qed.

Lemma bite_appends (st : Session) :
  exists extra,
    powerups (bite cfg st) = powerups st ++ extra /\
    Forall (fun q => ~ In (Powerup.position q) (Snake.body (snake st))) extra.
Proof.
  unfold bite. destruct (chance20 _ _).
  - apply (spawn_powerup_appends 100
             (with_rng_calls
                (with_rng_calls (with_score st (score st + 1)) (24 + rng_calls st))
                (S (24 + rng_calls st)))).
  - exists []. rewrite app_nil_r. split; [reflexivity | constructor].
Qed.

Lemma bite_frame (st : Session) :
  same_snake_and_effect st (bite cfg st) /\
  food (bite cfg st) = food st /\
  obstacles (bite cfg st) = obstacles st /\
  score (bite cfg st) = score st + 1.
Proof.
  unfold bite. destruct (chance20 _ _).
  - apply (spawn_powerup_frame 100
             (with_rng_calls
                (with_rng_calls (with_score st (score st + 1)) (24 + rng_calls st))
                (S (24 + rng_calls st)))).
  - repeat split.
Qed.

(** The food loop returns the state it was given with the food moved to a
    cell outside the blocked ones, and a later position in the random
    stream. *)
Lemma respawn_food_spec (fuel : nat) (st st' : Session) :
  respawn_food cfg fuel st = Some st' ->
  exists (k : nat) (p : pos),
    st' = with_food (with_rng_calls st k) (Food.place (food st) p) /\
    ~ In p (respawn_blocked st).
Proof.
  revert st. induction fuel as [| n IH]; intros st; cbn; [discriminate |].
  destruct (pos_in _ _) eqn:Hfree.
  - intros H. destruct (IH _ H) as (k & p & -> & Hp).
    exists k, p. split; [reflexivity | exact Hp].
  - intros H. injection H as <-.
    exists (2 + rng_calls st)%nat, (random_position cfg (rng_calls st)).
    split; [reflexivity |]. apply pos_in_not_In. exact Hfree.
Qed.

(** With a free cell among the first [fuel] draws the food loop ends. *)
Lemma respawn_food_total (fuel : nat) (st : Session) :
  free_draw_within cfg fuel st ->
  exists st', respawn_food cfg fuel st = Some st'.
Proof.
  revert st. induction fuel as [| n IH]; intros st (i & Hi & Hfree); [lia |].
  cbn. destruct (pos_in (random_position cfg (rng_calls st)) _) eqn:Hfirst.
  - apply IH. destruct i as [| j].
    + rewrite Nat.add_0_r in Hfree.
      change (respawn_blocked (with_rng_calls st (S (S (rng_calls st)))))
        with (respawn_blocked st) in Hfirst.
      congruence.
    + exists j. split; [lia |].
      change (respawn_blocked (with_rng_calls st (S (S (rng_calls st)))))
        with (respawn_blocked st).
      change (rng_calls (with_rng_calls st (S (S (rng_calls st)))))
        with (S (S (rng_calls st))).
      replace (S (S (rng_calls st)) + 2 * j)%nat
        with (rng_calls st + 2 * S j)%nat by lia.
      exact Hfree.
  - eexists. reflexivity.
Qed.

Lemma spawn_obstacle_frame (n : nat) (st : Session) :
  let st' := spawn_obstacle cfg n st in
  same_snake_and_effect st st' /\
  food st' = food st /\ powerups st' = powerups st /\ score st' = score st /\
  (obstacles st' = obstacles st \/
   exists p, obstacles st' = obstacles st ++ [p] /\ p <> Food.position (food st)).
Proof.
  revert st. induction n as [| n IH]; intros st; cbn.
  - repeat split. left. reflexivity.
  - destruct (pos_in _ _) eqn:Hfree.
    + apply (IH (with_rng_calls st (2 + rng_calls st))).
    + repeat split. right. eexists. split; [reflexivity |].
      apply pos_in_not_In in Hfree. intros Heq. apply Hfree.
      apply in_or_app. right. left. symmetry. exact Heq.
Qed.

(** The eating branch: the score goes up by one and the food moves to a cell
    that holds no body segment, no obstacle and no powerup. *)
Lemma eat_spec (fuel : nat) (st st' : Session) :
  eat cfg fuel st = Continue st' ->
  same_snake_and_effect st st' /\
  score st' = score st + 1 /\
  Food.skin_idx (food st') = Food.skin_idx (food st) /\
  ~ In (Food.position (food st')) (Snake.body (snake st')) /\
  ~ In (Food.position (food st')) (obstacles st') /\
  ~ In (Food.position (food st')) (powerup_positions st') /\
  powerups st' = powerups (bite cfg st).
Proof.
  unfold eat. destruct (respawn_food cfg fuel (bite cfg st)) as [st1 |] eqn:Hr;
    [| discriminate].
  destruct (respawn_food_spec _ _ _ Hr) as (k & p & -> & Hp).
  destruct (bite_frame st) as ((Hs & Ha & Ht & Hm) & Hf & Ho & Hsc).
  unfold respawn_blocked in Hp.
  assert (Hbody : ~ In p (Snake.body (snake (bite cfg st))))
    by (intros H; apply Hp, in_or_app; left; exact H).
  assert (Hobs : ~ In p (obstacles (bite cfg st)))
    by (intros H; apply Hp, in_or_app; right; apply in_or_app; left; exact H).
  assert (Hpup : ~ In p (powerup_positions (bite cfg st)))
    by (intros H; apply Hp, in_or_app; right; apply in_or_app; right; exact H).
  set (st1 := with_food (with_rng_calls (bite cfg st) k) (Food.place (food (bite cfg st)) p)).
  assert (Hresult :
            forall st2, same_snake_and_effect st1 st2 ->
                        food st2 = food st1 -> powerups st2 = powerups st1 ->
                        score st2 = score st1 ->
                        (obstacles st2 = obstacles st1 \/
                         exists q, obstacles st2 = obstacles st1 ++ [q]
                                   /\ q <> Food.position (food st1)) ->
            same_snake_and_effect st st2 /\
            score st2 = score st + 1 /\
            Food.skin_idx (food st2) = Food.skin_idx (food st) /\
            ~ In (Food.position (food st2)) (Snake.body (snake st2)) /\
            ~ In (Food.position (food st2)) (obstacles st2) /\
            ~ In (Food.position (food st2)) (powerup_positions st2) /\
            powerups st2 = powerups (bite cfg st)).
  { intros st2 (Hs2 & Ha2 & Ht2 & Hm2) Hf2 Hp2 Hsc2 Ho2.
    unfold same_snake_and_effect, powerup_positions.
    rewrite Hs2, Ha2, Ht2, Hm2, Hf2, Hp2, Hsc2. subst st1. cbn.
    rewrite Hs, Ha, Ht, Hm, Hf, Hsc. repeat split; try reflexivity.
    - rewrite <- Hs. exact Hbody.
    - destruct Ho2 as [-> | (q & -> & Hq)]; cbn.
      + exact Hobs.
      + intros H. apply in_app_or in H. destruct H as [H | [H | []]].
        * exact (Hobs H).
        * apply Hq. cbn. exact H.
    - exact Hpup. }
  destruct (_ && _); intros H; apply Continue_inj in H; subst st'.
  - destruct (spawn_obstacle_frame 100 st1) as (Hsame & Hf2 & Hp2 & Hsc2 & Ho2).
    apply Hresult; assumption.
  - apply Hresult; try reflexivity.
    + repeat split.
    + left. reflexivity.
Qed.

Lemma eat_total (fuel : nat) (st : Session) :
  free_draw_within cfg fuel (bite cfg st) ->
  exists st', eat cfg fuel st = Continue st'.
Proof.
  intros H. unfold eat. destruct (respawn_food_total _ _ H) as [st1 ->].
  destruct (_ && _); eexists; reflexivity.
Qed.

Lemma take_powerup_spec (head : pos) (ps : list Powerup.t) (p : Powerup.t) (rest : list Powerup.t) :
  take_powerup head ps = Some (p, rest) ->
  Powerup.position p = head /\ In p ps /\
  incl (map Powerup.position rest) (map Powerup.position ps).
Proof.
  revert p rest. induction ps as [| q ps IH]; intros p rest; cbn; [discriminate |].
  destruct (pos_eqb (Powerup.position q) head) eqn:Hq.
  - intros H. injection H as <- <-. apply pos_eqb_eq in Hq.
    split; [exact Hq |]. split; [left; reflexivity |]. apply incl_tl, incl_refl.
  - destruct (take_powerup head ps) as [[r rest'] |]; [| discriminate].
    intros H. injection H as <- <-.
    destruct (IH r rest' eq_refl) as (Hr & Hin & Hincl).
    split; [exact Hr |]. split; [right; exact Hin |].
    cbn. intros x [<- | Hx]; [left; reflexivity | right; apply Hincl, Hx].
Qed.

Lemma take_powerup_some (head : pos) (ps : list Powerup.t) :
  In head (map Powerup.position ps) ->
  exists p rest, take_powerup head ps = Some (p, rest) /\ Powerup.position p = head.
Proof.
  induction ps as [| q ps IH]; cbn; [intros [] |]. intros H.
  destruct (pos_eqb (Powerup.position q) head) eqn:Hq.
  - apply pos_eqb_eq in Hq. exists q, ps. split; [reflexivity | exact Hq].
  - apply pos_eqb_neq in Hq. destruct H as [H | H]; [contradiction |].
    destruct (IH H) as (p & rest & -> & Hp).
    exists p, (q :: rest). split; [reflexivity | exact Hp].
Qed.

Lemma take_powerup_none (head : pos) (ps : list Powerup.t) :
  ~ In head (map Powerup.position ps) -> take_powerup head ps = None.
Proof.
  induction ps as [| q ps IH]; cbn; [reflexivity |]. intros H.
  destruct (pos_eqb (Powerup.position q) head) eqn:Hq.
  - apply pos_eqb_eq in Hq. exfalso. apply H. left. exact Hq.
  - rewrite IH; [reflexivity |]. intros Hin. apply H. right. exact Hin.
Qed.

Hypothesis speed_pos : 0 < speed cfg.

(** Collection keeps snake, food, obstacles and score, and only ever removes
    a powerup from the field. *)
Lemma collect_spec (head : pos) (st : Session) :
  exists st',
    collect cfg head st = Continue st' /\
    snake st' = snake st /\ food st' = food st /\
    obstacles st' = obstacles st /\ score st' = score st /\
    incl (powerup_positions st') (powerup_positions st) /\
    (~ In head (powerup_positions st) -> st' = st).
Proof.
  unfold collect. destruct (take_powerup head (powerups st)) as [[p rest] |] eqn:Ht.
  - destruct (take_powerup_spec _ _ _ _ Ht) as (Hp & Hin & Hincl).
    assert (Hhere : In head (powerup_positions st)).
    { rewrite <- Hp. apply in_map. exact Hin. }
    destruct (Powerup.type p).
    + rewrite (boost_interval_pos cfg speed_pos). cbn.
      eexists. split; [reflexivity |]. cbn. repeat split; try exact Hincl.
      intros H. contradiction.
    + rewrite slow_interval_pos. cbn.
      eexists. split; [reflexivity |]. cbn. repeat split; try exact Hincl.
      intros H. contradiction.
  - exists st. repeat split. apply incl_refl.
Qed.

(** The timer of an active effect goes down by one; once it is at zero or
    below the effect is cleared and the base period is installed. *)
Lemma decay_spec (st : Session) :
  exists st',
    decay cfg st = Continue st' /\
    snake st' = snake st /\ food st' = food st /\
    obstacles st' = obstacles st /\ powerups st' = powerups st /\
    score st' = score st /\
    match powerup_active st with
    | None => st' = st
    | Some t =>
        powerup_timer st' = powerup_timer st - 1 /\
        (powerup_timer st - 1 <= 0 ->
         powerup_active st' = None /\ move_timer st' = 1000 / speed cfg) /\
        (0 < powerup_timer st - 1 ->
         powerup_active st' = Some t /\ move_timer st' = move_timer st)
    end.
Proof.
  unfold decay. destruct (powerup_active st) as [t |].
  - cbn. destruct (Z.leb_spec (powerup_timer st - 1) 0) as [Hle | Hgt].
    + rewrite (initial_game_speed_ms_pos cfg speed_pos). cbn.
      eexists. split; [reflexivity |]. cbn. repeat split; lia.
    + eexists. split; [reflexivity |]. cbn. repeat split; lia.
  - exists st. repeat split.
Qed.

End Phases.

(** ** Non-fatal ticks *)

Lemma move_spec (s0 s : Snake.t) (head : pos) (rest : list pos) :
  Snake.move s0 = Some s ->
  Snake.body s = head :: rest ->
  rest = Snake.body s0 /\ rest <> [] /\
  Snake.shrink_tail s
  = Some {| Snake.body := head :: removelast rest;
            Snake.direction := Snake.direction s; Snake.skin_idx := Snake.skin_idx s |}.
Proof.
  unfold Snake.move. destruct (Snake.body s0) as [| [hx hy] tl] eqn:Hb; [discriminate |].
  destruct (Snake.direction s0) as [dx dy]. intros H. injection H as <-. cbn.
  intros H. injection H as <- <-. split; [reflexivity |]. split; [discriminate |].
  reflexivity.
Qed.

Lemma removelast_length {A : Type} (l : list A) :
  l <> [] -> S (List.length (removelast l)) = List.length l.
Proof.
  intros H. destruct (exists_last H) as (l' & a & ->).
  rewrite removelast_last, length_app. cbn. lia.
Qed.

(** Collecting a powerup starts its effect with the full duration. *)
Lemma collect_pickup (cfg : Config) (head : pos) (st : Session) :
  0 < speed cfg ->
  In head (powerup_positions st) ->
  exists st' p,
    collect cfg head st = Continue st' /\
    In p (powerups st) /\ Powerup.position p = head /\
    powerup_active st' = Some (Powerup.type p) /\
    powerup_timer st' = FPS * 5.
Proof.
  intros Hs Hin. unfold collect.
  destruct (take_powerup_some _ _ Hin) as (p & rest & Ht & Hp). rewrite Ht.
  destruct (take_powerup_spec _ _ _ _ Ht) as (_ & Hmem & _).
  destruct (Powerup.type p) eqn:Hty.
  - rewrite (boost_interval_pos cfg Hs). cbn.
    eexists. exists p. split; [reflexivity |]. rewrite Hty. cbn. auto.
  - rewrite slow_interval_pos. cbn.
    eexists. exists p. split; [reflexivity |]. rewrite Hty. cbn. auto.
Qed.

Section Tick.
Variable cfg : Config.
Variable fuel : nat.
Variables (st : Session) (s : Snake.t) (head : pos) (rest : list pos).

Hypothesis speed_pos : 0 < speed cfg.
Hypothesis moved : Snake.move (snake st) = Some s.
Hypothesis new_body : Snake.body s = head :: rest.
Hypothesis inside : 0 <= fst head < width cfg /\ 0 <= snd head < height cfg.
Hypothesis not_self : ~ In head rest.
Hypothesis not_obstacle : ~ In head (obstacles st).

(** A tick that survives the three checks is the food branch followed by
    powerup collection and the effect timer. *)
Lemma move_tick_survives :
  move_tick cfg fuel st
  = and_then
      (if pos_eqb head (Food.position (food st))
       then eat cfg fuel (with_snake st s)
       else Continue
              (with_snake st
                 {| Snake.body := head :: removelast rest;
                    Snake.direction := Snake.direction s;
                    Snake.skin_idx := Snake.skin_idx s |}))
      (fun st1 => and_then (collect cfg head st1) (decay cfg)).
Proof.
  unfold move_tick. rewrite moved, new_body, hits_obstacle_In.
  cbn [obstacles with_snake snake food].
  apply in_bounds_spec in inside. rewrite inside.
  apply pos_in_not_In in not_self. rewrite not_self.
  apply pos_in_not_In in not_obstacle. rewrite not_obstacle. cbn [negb].
  destruct (move_spec _ _ _ _ moved new_body) as (_ & _ & ->). reflexivity.
Qed.

(** C2: on a tick that survives the three checks, a head landing on the food
    makes the body one longer and the score one higher and moves the food to
    a cell that holds no body segment, no obstacle and no powerup (the food
    loop ends as soon as the random draws offer such a cell); any other head
    position drops the tail, so that the body keeps its length. *)
Theorem eat_grows_else_length_kept :
  (head = Food.position (food st) ->
   free_draw_within cfg fuel (bite cfg (with_snake st s)) ->
   exists st',
     move_tick cfg fuel st = Continue st' /\
     Snake.body (snake st') = head :: Snake.body (snake st) /\
     List.length (Snake.body (snake st')) = S (List.length (Snake.body (snake st))) /\
     score st' = score st + 1 /\
     Food.position (food st') <> Food.position (food st) /\
     ~ In (Food.position (food st')) (Snake.body (snake st')) /\
     ~ In (Food.position (food st')) (obstacles st') /\
     ~ In (Food.position (food st')) (powerup_positions st')) /\
  (head <> Food.position (food st) ->
   exists st',
     move_tick cfg fuel st = Continue st' /\
     Snake.body (snake st') = head :: removelast (Snake.body (snake st)) /\
     List.length (Snake.body (snake st')) = List.length (Snake.body (snake st)) /\
     score st' = score st /\
     food st' = food st).
Proof.
  destruct (move_spec _ _ _ _ moved new_body) as (Hrest & Hne & _).
  rewrite move_tick_survives. split.
  - intros Hfood Hfree. rewrite (proj2 (pos_eqb_eq _ _) Hfood).
    destruct (eat_total cfg fuel _ Hfree) as [st1 Heat]. rewrite Heat.
    destruct (eat_spec cfg fuel _ _ Heat)
      as ((Hs1 & _) & Hsc1 & _ & Hb1 & Ho1 & Hp1 & _).
    cbn [and_then].
    destruct (collect_spec cfg speed_pos head st1)
      as (st2 & -> & Hs2 & Hf2 & Ho2 & Hsc2 & Hp2 & _).
    cbn [and_then].
    destruct (decay_spec cfg speed_pos st2)
      as (st3 & -> & Hs3 & Hf3 & Ho3 & Hp3 & Hsc3 & _).
    exists st3. split; [reflexivity |].
    unfold powerup_positions in *.
    rewrite Hs3, Hf3, Ho3, Hp3, Hsc3, Hs2, Hf2, Ho2, Hsc2, Hs1, Hsc1 in *.
    cbn [snake with_snake score] in *. rewrite new_body, <- Hrest in *.
    repeat split; try assumption.
    + intros Heq. apply Hb1. rewrite Heq, <- Hfood. left. reflexivity.
    + intros H. apply Hp1, Hp2, H.
  - intros Hfood. apply pos_eqb_neq in Hfood. rewrite Hfood. cbn [and_then].
    destruct (collect_spec cfg speed_pos head
                (with_snake st {| Snake.body := head :: removelast rest;
                                  Snake.direction := Snake.direction s;
                                  Snake.skin_idx := Snake.skin_idx s |}))
      as (st2 & -> & Hs2 & Hf2 & Ho2 & Hsc2 & _).
    cbn [and_then].
    destruct (decay_spec cfg speed_pos st2)
      as (st3 & -> & Hs3 & Hf3 & Ho3 & Hp3 & Hsc3 & _).
    exists st3. split; [reflexivity |].
    rewrite Hs3, Hf3, Hsc3, Hs2, Hf2, Hsc2. cbn. rewrite <- Hrest.
    repeat split. apply removelast_length, Hne.
Qed.

(** The food branch leaves the effect alone and puts no powerup under the
    head. *)
Lemma food_branch_keeps_effect :
  (head = Food.position (food st) ->
   free_draw_within cfg fuel (bite cfg (with_snake st s))) ->
  exists st1 extra,
    (if pos_eqb head (Food.position (food st))
     then eat cfg fuel (with_snake st s)
     else Continue
            (with_snake st
               {| Snake.body := head :: removelast rest;
                  Snake.direction := Snake.direction s;
                  Snake.skin_idx := Snake.skin_idx s |}))
    = Continue st1 /\
    powerup_active st1 = powerup_active st /\
    powerup_timer st1 = powerup_timer st /\
    move_timer st1 = move_timer st /\
    powerups st1 = powerups st ++ extra /\
    Forall (fun q => Powerup.position q <> head) extra.
Proof.
  intros Hfree. destruct (pos_eqb head (Food.position (food st))) eqn:Hfood.
  - apply pos_eqb_eq in Hfood.
    destruct (eat_total cfg fuel _ (Hfree Hfood)) as [st1 Heat].
    destruct (eat_spec cfg fuel _ _ Heat)
      as ((_ & Ha & Ht & Hm) & _ & _ & _ & _ & _ & Hp).
    destruct (bite_appends cfg (with_snake st s)) as (extra & Hextra & Hoff).
    exists st1, extra. split; [exact Heat |].
    rewrite Ha, Ht, Hm, Hp, Hextra. repeat split.
    eapply Forall_impl; [| exact Hoff].
    cbn. intros q Hq Heq. apply Hq. rewrite new_body, Heq. left. reflexivity.
  - eexists. exists []. split; [reflexivity |]. cbn. rewrite app_nil_r.
    repeat split. constructor.
Qed.

(** C5, as the code has it: on a tick that survives the three checks and
    collects no powerup, the timer of the active effect goes down by exactly
    one; once it is at zero or below the effect is cleared and the base
    period is put back, otherwise effect and period stay.  A tick that
    collects a powerup instead restarts the timer from the full duration of
    the collected powerup, less the one step of that same tick. *)
Theorem effect_timer_counts_down (t : ptype) :
  powerup_active st = Some t ->
  (head = Food.position (food st) ->
   free_draw_within cfg fuel (bite cfg (with_snake st s))) ->
  (~ In head (powerup_positions st) ->
   exists st',
     move_tick cfg fuel st = Continue st' /\
     powerup_timer st' = powerup_timer st - 1 /\
     (powerup_timer st - 1 <= 0 ->
      powerup_active st' = None /\ move_timer st' = 1000 / speed cfg) /\
     (0 < powerup_timer st - 1 ->
      powerup_active st' = Some t /\ move_timer st' = move_timer st)) /\
  (In head (powerup_positions st) ->
   exists st' p,
     move_tick cfg fuel st = Continue st' /\
     In p (powerups st) /\ Powerup.position p = head /\
     powerup_active st' = Some (Powerup.type p) /\
     powerup_timer st' = FPS * 5 - 1).
Proof.
  intros Hactive Hfree. rewrite move_tick_survives.
  destruct (food_branch_keeps_effect Hfree)
    as (st1 & extra & -> & Ha1 & Ht1 & Hm1 & Hp1 & Hoff).
  cbn [and_then]. split.
  - intros Hnone.
    assert (Hnone1 : ~ In head (powerup_positions st1)).
    { unfold powerup_positions. rewrite Hp1, map_app. intros H.
      apply in_app_or in H. destruct H as [H | H]; [exact (Hnone H) |].
      apply in_map_iff in H. destruct H as (q & Hq & Hin).
      rewrite Forall_forall in Hoff. exact (Hoff q Hin Hq). }
    destruct (collect_spec cfg speed_pos head st1) as (st2 & -> & _ & _ & _ & _ & _ & Hsame).
    rewrite (Hsame Hnone1). cbn [and_then].
    destruct (decay_spec cfg speed_pos st1) as (st3 & -> & _ & _ & _ & _ & _ & Hdecay).
    rewrite Ha1, Hactive, Ht1, Hm1 in Hdecay.
    exists st3. split; [reflexivity | exact Hdecay].
  - intros Hhere.
    assert (Hhere1 : In head (powerup_positions st1)).
    { unfold powerup_positions. rewrite Hp1, map_app. apply in_or_app. left. exact Hhere. }
    destruct (collect_pickup cfg head st1 speed_pos Hhere1)
      as (st2 & p & -> & Hin & Hp & Ha2 & Ht2).
    cbn [and_then].
    destruct (decay_spec cfg speed_pos st2) as (st3 & -> & _ & _ & _ & _ & _ & Hdecay).
    rewrite Ha2, Ht2 in Hdecay. destruct Hdecay as (Ht3 & _ & Hkeep).
    exists st3, p. split; [reflexivity |].
    rewrite Hp1 in Hin. apply in_app_or in Hin. destruct Hin as [Hin | Hin].
    + repeat split; try assumption. apply Hkeep. reflexivity.
    + rewrite Forall_forall in Hoff. exfalso. exact (Hoff p Hin Hp).
Qed.

End Tick.

Lemma eat_grows_else_length_kept_witness :
  (exists st',
     move_tick (Sample.config Sample.low) 1 Sample.about_to_eat = Continue st' /\
     Snake.body (snake st') = [(120, 100); (100, 100)] /\
     List.length (Snake.body (snake st')) = 2%nat /\
     score st' = 0 + 1 /\
     Food.position (food st') <> (120, 100) /\
     ~ In (Food.position (food st')) (Snake.body (snake st')) /\
     ~ In (Food.position (food st')) (obstacles st') /\
     ~ In (Food.position (food st')) (powerup_positions st')) /\
  (exists st',
     move_tick (Sample.config Sample.low) 1 Sample.session = Continue st' /\
     Snake.body (snake st') = [(120, 100)] /\
     List.length (Snake.body (snake st')) = 1%nat /\
     score st' = 0 /\
     food st' = food Sample.session).
Proof.
  split.
  - refine (proj1 (eat_grows_else_length_kept
                     (Sample.config Sample.low) 1 Sample.about_to_eat
                     _ (120, 100) [(100, 100)] _ eq_refl eq_refl _ _ _) eq_refl _).
    + reflexivity.
    + cbn. lia.
    + intros [H | []]. discriminate H.
    + intros [].
    + exists O. split; [lia | reflexivity].
  - refine (proj2 (eat_grows_else_length_kept
                     (Sample.config Sample.low) 1 Sample.session
                     _ (120, 100) [(100, 100)] _ eq_refl eq_refl _ _ _) _).
    + reflexivity.
    + cbn. lia.
    + intros [H | []]. discriminate H.
    + intros [].
    + discriminate.
Defined.

Lemma effect_timer_counts_down_witness :
  exists st',
    move_tick (Sample.config Sample.low) 1 Sample.boosted = Continue st' /\
    powerup_timer st' = 10 - 1 /\
    (10 - 1 <= 0 -> powerup_active st' = None /\ move_timer st' = 1000 / 15) /\
    (0 < 10 - 1 -> powerup_active st' = Some speed_boost /\ move_timer st' = 50).
Proof.
  refine (proj1 (effect_timer_counts_down
                   (Sample.config Sample.low) 1 Sample.boosted
                   _ (120, 100) [(100, 100)] _ eq_refl eq_refl _ _ _
                   speed_boost eq_refl _) _).
  - reflexivity.
  - cbn. lia.
  - intros [H | []]. discriminate H.
  - intros [].
  - discriminate.
  - intros [].
Defined.

(** C5, the claim as stated fails: with a boost that has ten ticks left, a
    tick on which the head lands on a slow-down powerup leaves the timer at
    74, not at 9. *)
Lemma effect_timer_restarts_on_pickup :
  powerup_active Sample.boosted_before_pickup = Some speed_boost /\
  powerup_timer Sample.boosted_before_pickup = 10 /\
  exists st',
    move_tick (Sample.config Sample.low) 1 Sample.boosted_before_pickup = Continue st' /\
    running st' = true /\
    powerup_active st' = Some slow_down /\
    powerup_timer st' = 74 /\
    powerup_timer st' <> powerup_timer Sample.boosted_before_pickup - 1.
Proof.
  split; [reflexivity |]. split; [reflexivity |].
  eexists. split; [reflexivity |]. cbn. repeat split. discriminate.
Qed.

(** ** Food placement *)

(** C3, the first placement of a session is unchecked: on an 800 x 600
    screen, when the two draws of line 702 answer 20 and 15, the food is
    created at (400, 300), the cell of the snake's only segment. *)
Theorem first_food_can_land_on_snake :
  exists st d,
    game_loop_start (Sample.config Sample.centre) 0 Sample.empty_disk = Continue (st, d) /\
    Snake.body (snake st) = [(400, 300)] /\
    Food.position (food st) = (400, 300) /\
    In (Food.position (food st)) (Snake.body (snake st)).
Proof.
  eexists. eexists. split; [reflexivity |]. cbn. repeat split. left. reflexivity.
Qed.

(** ** Leaderboard *)

Section SortDescFacts.
Context {A : Type} (key : A -> Z).

Lemma insert_desc_perm (x : A) (l : list A) :
  Permutation (insert_desc key x l) (x :: l).
Proof.
  induction l as [| y l IH]; cbn; [reflexivity |].
  destruct (key x <? key y); [| reflexivity].
  rewrite IH. apply perm_swap.
Qed.

Lemma sort_desc_perm (l : list A) : Permutation (sort_desc key l) l.
Proof.
  induction l as [| x l IH]; cbn; [reflexivity |].
  rewrite insert_desc_perm. apply perm_skip, IH.
Qed.

Lemma insert_desc_sorted (x : A) (l : list A) :
  StronglySorted (fun a b => key b <= key a) l ->
  StronglySorted (fun a b => key b <= key a) (insert_desc key x l).
Proof.
  induction l as [| y l IH]; cbn; intros Hs.
  - constructor; constructor.
  - apply StronglySorted_inv in Hs. destruct Hs as [Hl Hy].
    destruct (Z.ltb_spec (key x) (key y)) as [Hlt | Hge].
    + constructor; [apply IH, Hl |].
      eapply Permutation_Forall; [symmetry; apply insert_desc_perm |].
      constructor; [lia | exact Hy].
    + constructor; [constructor; assumption |].
      constructor; [exact Hge |].
      eapply Forall_impl; [| exact Hy]. cbn. intros a Ha. lia.
Qed.

Lemma sort_desc_sorted (l : list A) :
  StronglySorted (fun a b => key b <= key a) (sort_desc key l).
Proof.
  induction l as [| x l IH]; cbn; [constructor |].
  apply insert_desc_sorted, IH.
Qed.

(** Stability: the elements of any one score come out in the order they
    went in. *)
Lemma insert_desc_stable (v : Z) (x : A) (l : list A) :
  filter (fun a => key a =? v) (insert_desc key x l)
  = filter (fun a => key a =? v) (x :: l).
Proof.
  induction l as [| y l IH]; [reflexivity |].
  cbn [insert_desc]. destruct (Z.ltb_spec (key x) (key y)) as [Hlt | Hge];
    [| reflexivity].
  cbn [filter] in *. rewrite IH.
  destruct (Z.eqb_spec (key x) v) as [Hx | Hx];
    destruct (Z.eqb_spec (key y) v) as [Hy | Hy]; try reflexivity.
  lia.
Qed.

Lemma sort_desc_stable (v : Z) (l : list A) :
  filter (fun a => key a =? v) (sort_desc key l) = filter (fun a => key a =? v) l.
Proof.
  induction l as [| x l IH]; [reflexivity |].
  cbn [sort_desc fold_right]. fold (sort_desc key l).
  rewrite insert_desc_stable. cbn [filter]. rewrite IH. reflexivity.
Qed.

Lemma firstn_sorted (n : nat) (l : list A) :
  StronglySorted (fun a b => key b <= key a) l ->
  StronglySorted (fun a b => key b <= key a) (firstn n l).
Proof.
  revert n. induction l as [| x l IH]; intros [| n] Hs; cbn; try constructor.
  - apply StronglySorted_inv in Hs. apply IH, Hs.
  - apply StronglySorted_inv in Hs. destruct Hs as [_ Hx].
    rewrite Forall_forall in *. intros a Ha. apply Hx.
    rewrite <- (firstn_skipn n l). apply in_or_app. left. exact Ha.
Qed.

End SortDescFacts.

(** Sorting commutes with a map that keeps the keys. *)
Lemma sort_desc_map {A B : Type} (keyA : A -> Z) (keyB : B -> Z) (f : A -> B) (l : list A) :
  (forall a, keyB (f a) = keyA a) ->
  sort_desc keyB (map f l) = map f (sort_desc keyA l).
Proof.
  intros Hkey. induction l as [| x l IH]; [reflexivity |].
  cbn [map sort_desc fold_right]. fold (sort_desc keyB (map f l)). fold (sort_desc keyA l).
  rewrite IH. generalize (sort_desc keyA l) as m. intros m.
  induction m as [| y m IHm]; [reflexivity |].
  cbn [map insert_desc]. rewrite !Hkey.
  destruct (keyA x <? keyA y); cbn [map]; [rewrite IHm |]; reflexivity.
Qed.

Lemma traverse_map {A B C : Type} (f : B -> option C) (g : A -> B) (h : A -> C) (l : list A) :
  (forall a, f (g a) = Some (h a)) ->
  traverse f (map g l) = Some (map h l).
Proof.
  intros H. induction l as [| x l IH]; [reflexivity |].
  cbn. rewrite H, IH. reflexivity.
Qed.

Lemma score_keys_entries (l : list entry) :
  score_keys (map json_entry l)
  = Ok (map (fun e => (entry_score e, json_entry e)) l).
Proof.
  unfold score_keys.
  rewrite (traverse_map _ json_entry (fun e => JNum (entry_score e))) by reflexivity.
  rewrite (traverse_map _ _ entry_score) by reflexivity.
  f_equal. induction l as [| e l IH]; [reflexivity |].
  cbn. rewrite IH. reflexivity.
Qed.

(** ** Names *)

Lemma lstrip_split (l : list ascii) :
  exists pre, l = pre ++ lstrip l.
Proof.
  induction l as [| c l [pre IH]]; [exists []; reflexivity |].
  cbn. destruct (whitespace c).
  - exists (c :: pre). cbn. rewrite <- IH. reflexivity.
  - exists []. reflexivity.
Qed.

Lemma lstrip_hd (l : list ascii) (c : ascii) :
  hd_error (lstrip l) = Some c -> whitespace c = false.
Proof.
  induction l as [| a l IH]; cbn; [discriminate |].
  destruct (whitespace a) eqn:Ha; [exact IH |].
  cbn. intros H. injection H as <-. exact Ha.
Qed.

Lemma lstrip_Forall (P : ascii -> Prop) (l : list ascii) :
  Forall P l -> Forall P (lstrip l).
Proof.
  destruct (lstrip_split l) as [pre Hpre]. intros H.
  rewrite Hpre in H. apply Forall_app in H. apply H.
Qed.

Lemma strip_Forall (P : ascii -> Prop) (l : list ascii) :
  Forall P l -> Forall P (strip l).
Proof.
  intros H. unfold strip.
  apply Forall_rev, lstrip_Forall, Forall_rev, lstrip_Forall, H.
Qed.

Lemma strip_ends (l : list ascii) (c : ascii) :
  (hd_error (strip l) = Some c -> whitespace c = false) /\
  (hd_error (rev (strip l)) = Some c -> whitespace c = false).
Proof.
  unfold strip. split.
  - destruct (lstrip_split (rev (lstrip l))) as [pre Hpre].
    set (b := lstrip (rev (lstrip l))) in *.
    assert (Ha : lstrip l = rev b ++ rev pre).
    { rewrite <- rev_app_distr, <- Hpre, rev_involutive. reflexivity. }
    intros Hc. apply (lstrip_hd l). rewrite Ha.
    destruct (rev b); [discriminate | exact Hc].
  - rewrite rev_involutive. apply lstrip_hd.
Qed.

(** Whatever is typed, the stored name is clean. *)
Lemma sanitize_clean (name : string) : clean_name (sanitize name).
Proof.
  unfold sanitize.
  destruct (strip (filter name_char (list_ascii_of_string name))) as [| c cs] eqn:Hs.
  - unfold clean_name. cbn. repeat split.
    + repeat constructor.
    + discriminate.
    + intros c H. injection H as <-. reflexivity.
    + intros c H. injection H as <-. reflexivity.
  - unfold clean_name. cbv zeta. rewrite list_ascii_of_string_of_list_ascii.
    rewrite <- Hs. split; [| split; [| split]].
    + apply strip_Forall, Forall_forall. intros a Ha.
      apply filter_In in Ha. apply Ha.
    + rewrite Hs. discriminate.
    + intros a. apply strip_ends.
    + intros a. apply strip_ends.
Qed.

Lemma lstrip_split_blank (l : list ascii) :
  exists pre, l = pre ++ lstrip l /\ Forall (fun c => whitespace c = true) pre.
Proof.
  induction l as [| c l (pre & IH & Hpre)]; [exists []; split; [reflexivity | constructor] |].
  cbn. destruct (whitespace c) eqn:Hc.
  - exists (c :: pre). split; [cbn; rewrite <- IH; reflexivity |].
    constructor; assumption.
  - exists []. split; [reflexivity | constructor].
Qed.

(** [strip] removes a run of whitespace in front and one behind. *)
Lemma strip_split (l : list ascii) :
  exists front back,
    l = front ++ strip l ++ back /\
    Forall (fun c => whitespace c = true) front /\
    Forall (fun c => whitespace c = true) back.
Proof.
  unfold strip.
  destruct (lstrip_split_blank l) as (front & Hl & Hfront).
  destruct (lstrip_split_blank (rev (lstrip l))) as (pre & Hr & Hpre).
  exists front, (rev pre). split; [| split].
  - rewrite <- rev_app_distr, <- Hr, rev_involutive. exact Hl.
  - exact Hfront.
  - apply Forall_rev, Hpre.
Qed.

(** The blank is the one character of the class that [strip] removes. *)
Lemma class_whitespace_blank (c : ascii) :
  name_char c = true -> whitespace c = true -> c = " "%char.
Proof.
  destruct c as [[] [] [] [] [] [] [] []]; vm_compute; intros H1 H2;
    first [reflexivity | discriminate].
Qed.

Lemma not_whitespace_not_blank (c : ascii) :
  whitespace c = false -> c <> " "%char.
Proof. intros H ->. discriminate H. Qed.

(** [name_char] holds of the sixty-three characters of the class and of no
    other. *)
Lemma name_char_class (c : ascii) :
  name_char c = true <-> In c (list_ascii_of_string name_class).
Proof.
  assert (Hb : name_char c
               = existsb (Ascii.eqb c) (list_ascii_of_string name_class)).
  { destruct c as [[] [] [] [] [] [] [] []]; vm_compute; reflexivity. }
  rewrite Hb, existsb_exists. split.
  - intros (x & Hx & Heq). apply Ascii.eqb_eq in Heq. subst. exact Hx.
  - intros Hc. exists c. split; [exact Hc | apply Ascii.eqb_refl].
Qed.

(** What is stored is the typed name without the characters outside the
    class and without the blanks at either end. *)
Lemma sanitize_stored (name : string) : stored_for name (sanitize name).
Proof.
  unfold sanitize, stored_for.
  set (l := filter name_char (list_ascii_of_string name)).
  assert (Hclass : Forall (fun c => name_char c = true) l).
  { apply Forall_forall. intros a Ha. apply filter_In in Ha. apply Ha. }
  destruct (strip_split l) as (front & back & Hl & Hfront & Hback).
  assert (Hblank : forall part,
             Forall (fun c => name_char c = true) part ->
             Forall (fun c => whitespace c = true) part ->
             Forall (fun c => c = " "%char) part).
  { intros part H1 H2. rewrite Forall_forall in *.
    intros a Ha. apply class_whitespace_blank; auto. }
  rewrite Hl in Hclass.
  apply Forall_app in Hclass. destruct Hclass as [Hc1 Hc2].
  apply Forall_app in Hc2. destruct Hc2 as [_ Hc3].
  exists front, (strip l), back.
  split; [exact Hl |].
  split; [apply Hblank; assumption |].
  split; [apply Hblank; assumption |].
  split; [intros c Hc; apply not_whitespace_not_blank, (proj1 (strip_ends l c)), Hc |].
  split; [intros c Hc; apply not_whitespace_not_blank, (proj2 (strip_ends l c)), Hc |].
  destruct (strip l); reflexivity.
Qed.

(** The entry appended is ranked, and what is written is read back. *)
Lemma save_score_ranked (name : string) (sc : Z) (d : Disk) (old : list entry) :
  load_leaderboard d = JArr (map json_entry old) ->
  save_score name sc d
  = Ok (save_leaderboard
          (map json_entry
             (sort_desc entry_score
                (old ++ [{| entry_name := sanitize name; entry_score := sc |}])))
          d).
Proof.
  intros Hload. unfold save_score. rewrite Hload.
  change (map json_entry old
          ++ [JObj [("name"%string, JStr (sanitize name)); ("score"%string, JNum sc)]])
    with (map json_entry old
          ++ map json_entry [{| entry_name := sanitize name; entry_score := sc |}]).
  rewrite <- map_app, score_keys_entries. cbn [bind].
  rewrite (sort_desc_map entry_score fst) by reflexivity.
  rewrite map_map. cbn [snd]. reflexivity.
Qed.

Lemma load_written_leaderboard (l : list entry) (d : Disk) :
  leaderboard_file d <> Some Blocked ->
  load_leaderboard (save_leaderboard (map json_entry l) d)
  = JArr (map json_entry (firstn 5 l)).
Proof.
  intros Hw. rewrite save_leaderboard_written by exact Hw.
  unfold load_leaderboard, set_leaderboard_file.
  cbn [leaderboard_file]. rewrite firstn_map. reflexivity.
Qed.

Lemma load_blocked_leaderboard (d : Disk) :
  leaderboard_file d = Some Blocked -> load_leaderboard d = JArr [].
Proof. intros H. unfold load_leaderboard. rewrite H. reflexivity. Qed.

(** C8: [save_score] stores the typed name without the characters outside
    [[a-zA-Z0-9 ]] (the sixty-three characters of [name_class]) and without
    the blanks at either end (["Anonymous"] when nothing is left), appends the entry to the loaded leaderboard, sorts by
    score from high to low keeping entries of equal score in their order of
    insertion, and saves without raising or touching the save slot.  When
    the leaderboard file can be opened for writing, loading afterwards gives
    the first five of that ranking.  When it cannot, the write is swallowed:
    the disk is as before and the list loaded is empty.  Either way what is
    loaded afterwards is sorted from high to low and has at most five
    entries. *)
Theorem save_score_then_load (name : string) (sc : Z) (d : Disk) (old : list entry) :
  load_leaderboard d = JArr (map json_entry old) ->
  let added := {| entry_name := sanitize name; entry_score := sc |} in
  let ranked := sort_desc entry_score (old ++ [added]) in
  (forall c, name_char c = true <-> In c (list_ascii_of_string name_class)) /\
  clean_name (entry_name added) /\
  stored_for name (entry_name added) /\
  Permutation ranked (old ++ [added]) /\
  StronglySorted ranks_before ranked /\
  (forall v, filter (fun e => entry_score e =? v) ranked
             = filter (fun e => entry_score e =? v) (old ++ [added])) /\
  StronglySorted ranks_before (firstn 5 ranked) /\
  (List.length (firstn 5 ranked) <= 5)%nat /\
  exists d',
    save_score name sc d = Ok d' /\
    save_file d' = save_file d /\
    (leaderboard_file d <> Some Blocked ->
     leaderboard_file d' = Some (Parses (JArr (map json_entry (firstn 5 ranked)))) /\
     load_leaderboard d' = JArr (map json_entry (firstn 5 ranked))) /\
    (leaderboard_file d = Some Blocked ->
     d' = d /\ load_leaderboard d' = JArr []) /\
    exists kept,
      load_leaderboard d' = JArr (map json_entry kept) /\
      StronglySorted ranks_before kept /\
      (List.length kept <= 5)%nat.
Proof.
  intros Hload added ranked.
  assert (Hsorted : StronglySorted ranks_before (firstn 5 ranked)).
  { apply (firstn_sorted entry_score), sort_desc_sorted. }
  split; [exact name_char_class |].
  split; [apply sanitize_clean |].
  split; [apply sanitize_stored |].
  split; [apply sort_desc_perm |].
  split; [apply sort_desc_sorted |].
  split; [intros v; apply sort_desc_stable |].
  split; [exact Hsorted |].
  split; [apply firstn_le_length |].
  exists (save_leaderboard (map json_entry ranked) d).
  split; [apply save_score_ranked, Hload |].
  split; [apply save_leaderboard_other_file |].
  split; [| split].
  - intros Hw. split; [| apply load_written_leaderboard, Hw].
    rewrite save_leaderboard_written by exact Hw.
    cbn [set_leaderboard_file leaderboard_file]. rewrite firstn_map. reflexivity.
  - intros Hb. rewrite save_leaderboard_swallowed by exact Hb.
    split; [reflexivity | apply load_blocked_leaderboard, Hb].
  - destruct (blocked_dec (leaderboard_file d)) as [Hb | Hw].
    + exists []. rewrite save_leaderboard_swallowed by exact Hb.
      split; [apply load_blocked_leaderboard, Hb |].
      split; [constructor | cbn; lia].
    + exists (firstn 5 ranked).
      split; [apply load_written_leaderboard, Hw |].
      split; [exact Hsorted | apply firstn_le_length].
Qed.

Lemma save_score_then_load_witness :
  let added := {| entry_name := sanitize "Zed!"; entry_score := 7 |} in
  let ranked := sort_desc entry_score (Sample.board ++ [added]) in
  (forall c, name_char c = true <-> In c (list_ascii_of_string name_class)) /\
  clean_name (entry_name added) /\
  stored_for "Zed!" (entry_name added) /\
  Permutation ranked (Sample.board ++ [added]) /\
  StronglySorted ranks_before ranked /\
  (forall v, filter (fun e => entry_score e =? v) ranked
             = filter (fun e => entry_score e =? v) (Sample.board ++ [added])) /\
  StronglySorted ranks_before (firstn 5 ranked) /\
  (List.length (firstn 5 ranked) <= 5)%nat /\
  exists d',
    save_score "Zed!" 7 Sample.board_disk = Ok d' /\
    save_file d' = save_file Sample.board_disk /\
    (leaderboard_file Sample.board_disk <> Some Blocked ->
     leaderboard_file d' = Some (Parses (JArr (map json_entry (firstn 5 ranked)))) /\
     load_leaderboard d' = JArr (map json_entry (firstn 5 ranked))) /\
    (leaderboard_file Sample.board_disk = Some Blocked ->
     d' = Sample.board_disk /\ load_leaderboard d' = JArr []) /\
    exists kept,
      load_leaderboard d' = JArr (map json_entry kept) /\
      StronglySorted ranks_before kept /\
      (List.length kept <= 5)%nat.
Proof.
  exact (save_score_then_load "Zed!" 7 Sample.board_disk Sample.board eq_refl).
Defined.

(** ** Starting from the save slot *)

Lemma traverse_iterate_pos (l : list pos) :
  traverse iterate (map json_pos l)
  = Some (map (fun p => [JNum (fst p); JNum (snd p)]) l).
Proof. apply traverse_map. reflexivity. Qed.

Lemma traverse_typed_pos (l : list pos) :
  traverse typed_pos (map (fun p => [JNum (fst p); JNum (snd p)]) l) = Some l.
Proof.
  rewrite (traverse_map _ _ (fun p => p)); [rewrite map_id; reflexivity |].
  intros [x y]. reflexivity.
Qed.

Lemma traverse_load_powerup (l : list Powerup.t) :
  traverse load_powerup (map json_powerup l)
  = Some (map (fun p => ([JNum (fst (Powerup.position p));
                          JNum (snd (Powerup.position p))], Powerup.type p)) l).
Proof. apply traverse_map. intros [q []]; reflexivity. Qed.

Lemma traverse_typed_powerup (l : list Powerup.t) :
  traverse typed_powerup
    (map (fun p => ([JNum (fst (Powerup.position p));
                     JNum (snd (Powerup.position p))], Powerup.type p)) l)
  = Some l.
Proof.
  rewrite (traverse_map _ _ (fun p => p)); [rewrite map_id; reflexivity |].
  intros [[x y] t]. reflexivity.
Qed.

Lemma typed_active_saved (a : option ptype) : typed_active (json_active a) = Some a.
Proof. destruct a as [[] |]; reflexivity. Qed.

(** What the save key writes is read back field by field. *)
Lemma resume_saved (cfg : Config) (saved st : Session) :
  resume cfg (save_game_state saved) st
  = reapply_speed cfg
      {| snake := snake saved; food := food saved;
         obstacles := obstacles saved; powerups := powerups saved;
         score := score saved;
         paused := paused st; running := running st;
         powerup_active := powerup_active saved;
         powerup_timer := powerup_timer saved;
         move_timer := move_timer st; rng_calls := rng_calls st |}.
Proof.
  unfold resume, save_game_state, load_game_state.
  cbn [subscript lookup String.eqb Ascii.eqb Bool.eqb iterate obind dict_get].
  rewrite !traverse_iterate_pos. cbn [obind iterate json_pos].
  rewrite traverse_load_powerup. cbn [obind].
  unfold typed_snapshot.
  cbn [raw_body raw_direction raw_snake_skin raw_food_pos raw_food_skin
       raw_obstacles raw_powerups].
  rewrite !traverse_typed_pos, traverse_typed_powerup.
  cbn [obind typed_pos int_of]. rewrite typed_active_saved.
  destruct (snake saved) as [b [dx dy] sk], (food saved) as [[fx fy] fsk].
  reflexivity.
Qed.

Lemma reapply_speed_spec (cfg : Config) (st : Session) :
  0 < speed cfg ->
  reapply_speed cfg st
  = Continue
      (with_move_timer st
         match powerup_active st with
         | Some speed_boost => Z.max 50 (1000 / (speed cfg + 10))
         | Some slow_down => 1000 / Z.max 1 (speed cfg - 5)
         | None => move_timer st
         end).
Proof.
  intros Hs. unfold reapply_speed. destruct (powerup_active st) as [[] |].
  - rewrite (boost_interval_pos cfg Hs). reflexivity.
  - rewrite slow_interval_pos. reflexivity.
  - destruct st. reflexivity.
Qed.

(** C10: every call of [game_loop] reads the save slot before its first
    tick, and the Restart button of the pause menu is such a call.  A
    document that [load_game_state] accepts is what play starts from: snake,
    food, obstacles, powerups, score, active effect and its timer come from
    the document and the tick period is derived from the effect.  That holds
    in particular for every snapshot written by the save key.  A document
    that is refused gives a clean new session, and so does an absent, empty
    or unreadable slot. *)
Theorem game_loop_resumes_from_save_slot (cfg : Config) (k : nat) (d : Disk) :
  0 < speed cfg ->
  let period (act : option ptype) :=
    match act with
    | Some speed_boost => Z.max 50 (1000 / (speed cfg + 10))
    | Some slow_down => 1000 / Z.max 1 (speed cfg - 5)
    | None => 1000 / speed cfg
    end in
  (forall fuel st later,
     play cfg fuel ([MOUSEBUTTONDOWN true (Some Restart)] :: later) Overlay st d
     = game_loop cfg fuel (rng_calls st) later d) /\
  (forall fuel batches,
     game_loop cfg fuel k batches d
     = and_then (game_loop_start cfg k d)
                (fun sd => play cfg fuel batches Playing (fst sd) (snd sd))) /\
  (forall fields raw snap sc act tm,
     save_file d = Some (Parses (JObj fields)) ->
     load_game_state (JObj fields) = Some raw ->
     typed_snapshot raw = Some snap ->
     int_of (dict_get fields "score" (JNum 0)) = Some sc ->
     typed_active (dict_get fields "powerup_active" JNull) = Some act ->
     int_of (dict_get fields "powerup_timer" (JNum 0)) = Some tm ->
     game_loop_start cfg k d
     = Continue ({| snake := snap_snake snap; food := snap_food snap;
                    obstacles := snap_obstacles snap; powerups := snap_powerups snap;
                    score := sc; paused := false; running := true;
                    powerup_active := act; powerup_timer := tm;
                    move_timer := period act; rng_calls := (2 + k)%nat |}, d)) /\
  (forall saved,
     save_file d = Some (Parses (save_game_state saved)) ->
     game_loop_start cfg k d
     = Continue ({| snake := snake saved; food := food saved;
                    obstacles := obstacles saved; powerups := powerups saved;
                    score := score saved; paused := false; running := true;
                    powerup_active := powerup_active saved;
                    powerup_timer := powerup_timer saved;
                    move_timer := period (powerup_active saved);
                    rng_calls := (2 + k)%nat |}, d)) /\
  (forall doc,
     save_file d = Some (Parses doc) ->
     truthy doc = true ->
     load_game_state doc = None ->
     game_loop_start cfg k d
     = Continue (fresh cfg (2 + k) (1000 / speed cfg) false true, d)) /\
  (loaded d = None \/ (exists doc, loaded d = Some doc /\ truthy doc = false) ->
   game_loop_start cfg k d
   = Continue (fresh cfg k (1000 / speed cfg) false true, disk_after_load d)).
Proof.
  intros Hs period. split; [reflexivity |]. split; [reflexivity |].
  unfold game_loop_start. rewrite (initial_game_speed_ms_pos cfg Hs).
  split; [| split; [| split]].
  - intros fields raw snap sc act tm Hfile Hraw Hsnap Hsc Hact Htm.
    assert (Hfields : truthy (JObj fields) = true).
    { destruct fields; [discriminate Hraw | reflexivity]. }
    unfold loaded, disk_after_load, load_game. rewrite Hfile. cbn [fst snd].
    rewrite Hfields. unfold resume. rewrite Hraw, Hsnap, Hsc, Hact, Htm.
    rewrite (reapply_speed_spec cfg _ Hs). cbn. destruct act as [[] |]; reflexivity.
  - intros saved Hfile.
    unfold loaded, disk_after_load, load_game. rewrite Hfile. cbn [fst snd truthy save_game_state].
    fold (save_game_state saved). rewrite resume_saved.
    rewrite (reapply_speed_spec cfg _ Hs). cbn.
    destruct (powerup_active saved) as [[] |]; reflexivity.
  - intros doc Hfile Htruthy Hrefused.
    unfold loaded, disk_after_load, load_game. rewrite Hfile. cbn [fst snd].
    rewrite Htruthy. unfold resume. rewrite Hrefused.
    rewrite (initial_game_speed_ms_pos cfg Hs). reflexivity.
  - intros [Hnone | (doc & Hdoc & Hfalsy)].
    + rewrite Hnone. reflexivity.
    + rewrite Hdoc, Hfalsy. reflexivity.
Qed.

Lemma game_loop_resumes_from_save_slot_witness :
  let d := save_game (save_game_state Sample.midgame) Sample.empty_disk in
  game_loop_start (Sample.config Sample.low) 0 d
  = Continue ({| snake := snake Sample.midgame; food := food Sample.midgame;
                 obstacles := [(400, 400)];
                 powerups := powerups Sample.midgame;
                 score := 21; paused := false; running := true;
                 powerup_active := Some slow_down;
                 powerup_timer := 30;
                 move_timer := 100;
                 rng_calls := 2%nat |}, d).
Proof.
  intros d.
  destruct (game_loop_resumes_from_save_slot (Sample.config Sample.low) 0 d)
    as (_ & _ & _ & Hsaved & _).
  - reflexivity.
  - exact (Hsaved Sample.midgame eq_refl).
Defined.

(** * Further properties of the code *)

(** ** Helpers *)

(** X1: with bounds in order, [clamp] answers within them, leaves a value
    that is already inside alone and sends a value outside to the nearer
    bound; with the bounds the wrong way round it answers the minimum. *)
Theorem clamp_within_bounds (value minimum maximum : Z) :
  (minimum <= maximum ->
   minimum <= clamp value minimum maximum <= maximum /\
   (minimum <= value <= maximum -> clamp value minimum maximum = value) /\
   (value < minimum -> clamp value minimum maximum = minimum) /\
   (maximum < value -> clamp value minimum maximum = maximum)) /\
  (maximum < minimum -> clamp value minimum maximum = minimum).
Proof. unfold clamp. lia. Qed.

Lemma clamp_within_bounds_witness :
  0 <= clamp 300 0 255 <= 255 /\ clamp 300 0 255 = 255 /\ clamp 7 9 3 = 9.
Proof.
  destruct (clamp_within_bounds 300 0 255) as [Hin _].
  destruct (Hin ltac:(lia)) as (Hb & _ & _ & Hhi).
  split; [exact Hb |]. split; [apply Hhi; lia |].
  apply (proj2 (clamp_within_bounds 7 9 3)). lia.
Defined.

Lemma random_position_fair (cfg : Config) (k : nat) :
  fair_randint (rnd cfg) ->
  CELL_SIZE <= width cfg ->
  CELL_SIZE <= height cfg ->
  in_bounds cfg (random_position cfg k) = true /\
  on_grid (random_position cfg k) /\
  fst (random_position cfg k) + CELL_SIZE <= width cfg /\
  snd (random_position cfg k) + CELL_SIZE <= height cfg.
Proof.
  intros Hfair Hw Hh. unfold CELL_SIZE in *.
  assert (Hx : 0 <= randint (rnd cfg) k 0 ((width cfg - 20) / 20)
               <= (width cfg - 20) / 20)
    by (apply Hfair, Z.div_pos; lia).
  assert (Hy : 0 <= randint (rnd cfg) (S k) 0 ((height cfg - 20) / 20)
               <= (height cfg - 20) / 20)
    by (apply Hfair, Z.div_pos; lia).
  assert (Hwq : 20 * ((width cfg - 20) / 20) <= width cfg - 20)
    by (apply Z.mul_div_le; lia).
  assert (Hhq : 20 * ((height cfg - 20) / 20) <= height cfg - 20)
    by (apply Z.mul_div_le; lia).
  unfold random_position, on_grid, CELL_SIZE. cbn [fst snd].
  rewrite !Z.mod_mul by lia.
  split; [| split; [split; reflexivity |]].
  - apply in_bounds_spec. cbn [fst snd]. nia.
  - nia.
Qed.

(** X2: on a screen at least one cell wide and high, and with [randint]
    answering within its bounds, [random_position] gives a cell of the grid
    that lies on the board. *)
Theorem random_position_on_board (cfg : Config) (k : nat) :
  fair_randint (rnd cfg) ->
  CELL_SIZE <= width cfg ->
  CELL_SIZE <= height cfg ->
  in_bounds cfg (random_position cfg k) = true /\
  on_grid (random_position cfg k) /\
  fst (random_position cfg k) + CELL_SIZE <= width cfg /\
  snd (random_position cfg k) + CELL_SIZE <= height cfg.
Proof. exact (random_position_fair cfg k). Qed.

Lemma random_position_on_board_witness :
  in_bounds (Sample.config Sample.low) (random_position (Sample.config Sample.low) 0) = true /\
  on_grid (random_position (Sample.config Sample.low) 0) /\
  fst (random_position (Sample.config Sample.low) 0) + CELL_SIZE <= 800 /\
  snd (random_position (Sample.config Sample.low) 0) + CELL_SIZE <= 600.
Proof.
  apply (random_position_on_board (Sample.config Sample.low) 0).
  - intros k a b Hab. cbn. lia.
  - cbn. unfold CELL_SIZE. lia.
  - cbn. unfold CELL_SIZE. lia.
Defined.

(** ** Save documents *)

Lemma traverse_fails {A B : Type} (f : A -> option B) (l : list A) (x : A) :
  In x l -> f x = None -> traverse f l = None.
Proof.
  intros Hin Hx. induction l as [| y l IH]; [destruct Hin |].
  cbn. destruct Hin as [-> | Hin].
  - rewrite Hx. reflexivity.
  - destruct (f y); [| reflexivity]. rewrite (IH Hin). reflexivity.
Qed.

(** X3: when the save slot can be opened for writing, a snapshot written to
    it is the document read back from it; when it cannot, the write is
    swallowed, the disk is as before and nothing is read back.  The
    leaderboard file is not touched.  [load_game_state] followed by the typed
    reading gives back snake (body, direction, skin), food (position, skin),
    obstacles and powerups exactly; score, active effect and timer are found
    under their keys. *)
Theorem snapshot_round_trip (st : Session) (d : Disk) :
  (save_file d <> Some Blocked ->
   save_file (save_game (save_game_state st) d)
   = Some (Parses (save_game_state st)) /\
   loaded (save_game (save_game_state st) d) = Some (save_game_state st)) /\
  (save_file d = Some Blocked ->
   save_game (save_game_state st) d = d /\
   loaded (save_game (save_game_state st) d) = None) /\
  leaderboard_file (save_game (save_game_state st) d) = leaderboard_file d /\
  (exists raw,
     load_game_state (save_game_state st) = Some raw /\
     typed_snapshot raw
     = Some {| snap_snake := snake st; snap_food := food st;
               snap_obstacles := obstacles st; snap_powerups := powerups st |}) /\
  subscript (save_game_state st) "score" = Some (JNum (score st)) /\
  option_map typed_active (subscript (save_game_state st) "powerup_active")
  = Some (Some (powerup_active st)) /\
  subscript (save_game_state st) "powerup_timer" = Some (JNum (powerup_timer st)).
Proof.
  split; [| split; [| split; [apply save_game_other_file |]]].
  { intros Hw. rewrite save_game_written by exact Hw. split; reflexivity. }
  { intros Hb. rewrite save_game_swallowed by exact Hb.
    split; [reflexivity |]. unfold loaded, load_game. rewrite Hb. reflexivity. }
  split.
  - unfold save_game_state, load_game_state.
    cbn [subscript lookup String.eqb Ascii.eqb Bool.eqb iterate obind dict_get].
    rewrite !traverse_iterate_pos. cbn [obind iterate json_pos].
    rewrite traverse_load_powerup. cbn [obind].
    eexists. split; [reflexivity |].
    unfold typed_snapshot.
    cbn [raw_body raw_direction raw_snake_skin raw_food_pos raw_food_skin
         raw_obstacles raw_powerups].
    rewrite !traverse_typed_pos, traverse_typed_powerup.
    cbn [obind typed_pos int_of].
    destruct (snake st) as [b [dx dy] sk], (food st) as [[fx fy] fsk].
    reflexivity.
  - split; [reflexivity |]. split; [| reflexivity].
    cbn. rewrite typed_active_saved. reflexivity.
Qed.

Lemma snapshot_round_trip_witness :
  save_file (save_game (save_game_state Sample.midgame) Sample.corrupted_disk)
  = Some (Parses (save_game_state Sample.midgame)) /\
  loaded (save_game (save_game_state Sample.midgame) Sample.corrupted_disk)
  = Some (save_game_state Sample.midgame).
Proof.
  apply (proj1 (snapshot_round_trip Sample.midgame Sample.corrupted_disk)).
  discriminate.
Defined.

Ltac refuse_with H :=
  repeat match goal with
         | |- obind ?o _ = None =>
             first [ rewrite H; reflexivity
                   | destruct o; cbn [obind]; [| reflexivity] ]
         end.

(** X4: [load_game_state] refuses every document that is not a dictionary,
    every dictionary that lacks one of the keys snake, direction, food_pos,
    obstacles and powerups, and every document with a powerup that cannot be
    built (no position, or a type that is not one of the two names). *)
Theorem load_game_state_refuses :
  (forall state, (forall fields, state <> JObj fields) -> load_game_state state = None) /\
  (forall fields key,
     In key required_keys -> lookup key fields = None ->
     load_game_state (JObj fields) = None) /\
  (forall fields ps p,
     lookup "powerups" fields = Some (JArr ps) ->
     In p ps -> load_powerup p = None ->
     load_game_state (JObj fields) = None) /\
  (forall p,
     subscript p "pos" = None \/
     subscript p "type" = None \/
     (exists t, subscript p "type" = Some t /\ powerup_key t = None) ->
     load_powerup p = None).
Proof.
  split; [| split; [| split]]; cycle 3.
  { intros p Hbad. unfold load_powerup.
    destruct (subscript p "pos") as [pj |]; cbn [obind];
      [| reflexivity].
    destruct (iterate pj); cbn [obind]; [| reflexivity].
    destruct Hbad as [Hbad | [-> | (t & -> & Ht)]];
      [discriminate Hbad | reflexivity |].
    cbn [obind]. rewrite Ht. reflexivity. }
  - intros state Hnot. destruct state; try reflexivity.
    exfalso. exact (Hnot fields eq_refl).
  - intros fields key Hkey Hmissing. unfold load_game_state. cbn [subscript].
    cbn in Hkey.
    destruct Hkey as [<- | [<- | [<- | [<- | [<- | []]]]]]; refuse_with Hmissing.
  - intros fields ps p Hps Hin Hp. unfold load_game_state. cbn [subscript].
    assert (Htrav : traverse load_powerup ps = None)
      by (exact (traverse_fails _ _ _ Hin Hp)).
    repeat match goal with
           | |- obind (lookup "powerups" fields) _ = None =>
               rewrite Hps; cbn [obind iterate]; rewrite Htrav; reflexivity
           | |- obind ?o _ = None => destruct o; cbn [obind]; [| reflexivity]
           end.
Qed.

Lemma load_game_state_refuses_witness :
  load_game_state
    (JObj [("snake"%string, JArr [json_pos (100, 100)]);
           ("direction"%string, json_pos (20, 0));
           ("food_pos"%string, json_pos (40, 40));
           ("powerups"%string, JArr [])])
  = None /\
  load_game_state (JArr []) = None.
Proof.
  destruct load_game_state_refuses as (Hshape & Hkeys & _ & _). split.
  - apply (Hkeys _ "obstacles"%string).
    + cbn. auto.
    + reflexivity.
  - apply Hshape. discriminate.
Defined.

Lemma resume_bare (cfg : Config) (body : list pos) (dir fpos : pos)
    (obs : list pos) (pups : list Powerup.t) (st : Session) :
  resume cfg (bare_document body dir fpos obs pups) st
  = Continue
      {| snake := {| Snake.body := body; Snake.direction := dir; Snake.skin_idx := 0 |};
         food := {| Food.position := fpos; Food.skin_idx := 0 |};
         obstacles := obs; powerups := pups; score := 0;
         paused := paused st; running := running st;
         powerup_active := None; powerup_timer := 0;
         move_timer := move_timer st; rng_calls := rng_calls st |}.
Proof.
  unfold resume, bare_document, load_game_state.
  cbn [subscript lookup String.eqb Ascii.eqb Bool.eqb iterate obind dict_get].
  rewrite !traverse_iterate_pos. cbn [obind iterate json_pos].
  rewrite traverse_load_powerup. cbn [obind].
  unfold typed_snapshot.
  cbn [raw_body raw_direction raw_snake_skin raw_food_pos raw_food_skin
       raw_obstacles raw_powerups].
  rewrite !traverse_typed_pos, traverse_typed_powerup.
  cbn [obind typed_pos int_of typed_active].
  destruct dir, fpos. reflexivity.
Qed.

(** X5: the keys score, powerup_active, powerup_timer and the two skin
    indices are optional.  A session started from a document that has only
    the five required keys takes body, direction, food, obstacles and
    powerups from it and begins with score 0, no effect, timer 0, skins 0
    and the base period. *)
Theorem optional_keys_default (cfg : Config) (k : nat) (d : Disk)
    (body : list pos) (dir fpos : pos) (obs : list pos) (pups : list Powerup.t) :
  0 < speed cfg ->
  save_file d = Some (Parses (bare_document body dir fpos obs pups)) ->
  game_loop_start cfg k d
  = Continue
      ({| snake := {| Snake.body := body; Snake.direction := dir; Snake.skin_idx := 0 |};
          food := {| Food.position := fpos; Food.skin_idx := 0 |};
          obstacles := obs; powerups := pups; score := 0;
          paused := false; running := true;
          powerup_active := None; powerup_timer := 0;
          move_timer := 1000 / speed cfg; rng_calls := (2 + k)%nat |}, d).
Proof.
  intros Hs Hfile. unfold game_loop_start.
  rewrite (initial_game_speed_ms_pos cfg Hs).
  unfold loaded, disk_after_load, load_game. rewrite Hfile. cbn [fst snd].
  change (truthy (bare_document body dir fpos obs pups)) with true. cbv iota.
  rewrite resume_bare. reflexivity.
Qed.

Lemma optional_keys_default_witness :
  let d := {| save_file := Some (Parses (bare_document [(100, 100); (80, 100)] (20, 0)
                                                       (40, 40) [(400, 400)] []));
              leaderboard_file := None |} in
  exists st,
    game_loop_start (Sample.config Sample.low) 0 d = Continue (st, d) /\
    score st = 0 /\ powerup_active st = None /\ move_timer st = 66 /\
    Snake.body (snake st) = [(100, 100); (80, 100)].
Proof.
  intros d. eexists. split.
  - apply (optional_keys_default (Sample.config Sample.low) 0 d
             [(100, 100); (80, 100)] (20, 0) (40, 40) [(400, 400)] []).
    + reflexivity.
    + reflexivity.
  - repeat split.
Defined.

(** ** The load key *)

Lemma movement_keys_load (cfg : Config) (st : Session) (d : Disk) :
  movement_keys cfg K_l st d = load_key cfg st d.
Proof. reflexivity. Qed.



Lemma load_key_saved (cfg : Config) (st saved : Session) (d : Disk) :
  0 < speed cfg ->
  save_file d = Some (Parses (save_game_state saved)) ->
  load_key cfg st d
  = Continue
      ({| snake := snake saved; food := food saved;
          obstacles := obstacles saved; powerups := powerups saved;
          score := score saved;
          paused := paused st; running := running st;
          powerup_active := powerup_active saved;
          powerup_timer := powerup_timer saved;
          move_timer := period_after_load cfg (powerup_active saved) (move_timer st);
          rng_calls := (2 + rng_calls st)%nat |}, d).
Proof.
  intros Hs Hfile. unfold load_key, loaded, disk_after_load, load_game.
  rewrite Hfile. cbn [fst snd].
  change (truthy (save_game_state saved)) with true. cbv iota.
  rewrite resume_saved, (reapply_speed_spec cfg _ Hs).
  cbn. destruct (powerup_active saved) as [[] |]; reflexivity.
Qed.

(** X7: the load key replaces snake, food, obstacles, powerups, score, active
    effect and timer by those of the saved snapshot and draws one random
    position on the way.  The tick period is set again only when the
    snapshot has an active effect; a snapshot without one leaves the period
    as it was, boosted or slowed as it may be. *)
Theorem load_key_takes_snapshot
    (cfg : Config) (fuel : nat) (st saved : Session) (d : Disk) :
  0 < speed cfg ->
  paused st = false ->
  save_file d = Some (Parses (save_game_state saved)) ->
  handle_event cfg fuel (KEYDOWN K_l) st d
  = Continue
      ({| snake := snake saved; food := food saved;
          obstacles := obstacles saved; powerups := powerups saved;
          score := score saved;
          paused := false; running := running st;
          powerup_active := powerup_active saved;
          powerup_timer := powerup_timer saved;
          move_timer := period_after_load cfg (powerup_active saved) (move_timer st);
          rng_calls := (2 + rng_calls st)%nat |}, d).
Proof.
  intros Hs Hp Hfile. unfold handle_event. rewrite Hp. cbn [negb].
  rewrite movement_keys_load, (load_key_saved cfg st saved d Hs Hfile).
  rewrite Hp. reflexivity.
Qed.

Lemma load_key_takes_snapshot_witness :
  let d := save_game (save_game_state Sample.session) Sample.empty_disk in
  exists st',
    handle_event (Sample.config Sample.low) 1 (KEYDOWN K_l) Sample.boosted d
    = Continue (st', d) /\
    powerup_active st' = None /\ move_timer st' = 50.
Proof.
  intros d. eexists. split.
  - apply (load_key_takes_snapshot (Sample.config Sample.low) 1
             Sample.boosted Sample.session d).
    + reflexivity.
    + reflexivity.
    + reflexivity.
  - split; reflexivity.
Defined.

(** X8: heading up, S followed by L in the same frame.  When the save slot
    can be opened for writing, the snapshot is written and taken over again:
    the slot holds the snapshot and the session is as before, but for the
    two random numbers drawn on the way (and the period set anew from the
    active effect).  When the slot cannot be opened, the write is swallowed
    and the load finds nothing: session and disk are as before. *)
Theorem save_then_load_restores (cfg : Config) (fuel : nat) (st : Session) (d : Disk) :
  0 < speed cfg ->
  paused st = false ->
  Snake.direction (snake st) = vector Up ->
  (save_file d <> Some Blocked ->
   handle_events cfg fuel [KEYDOWN K_s; KEYDOWN K_l] st d
   = Continue
       (with_rng_calls
          (with_move_timer st (period_after_load cfg (powerup_active st) (move_timer st)))
          (2 + rng_calls st),
        set_save_file d (Some (Parses (save_game_state st))))) /\
  (save_file d = Some Blocked ->
   handle_events cfg fuel [KEYDOWN K_s; KEYDOWN K_l] st d = Continue (st, d)).
Proof.
  intros Hs Hp Hd.
  assert (Hsave : handle_event cfg fuel (KEYDOWN K_s) st d
                  = Continue (st, save_game (save_game_state st) d)).
  { unfold handle_event, movement_keys. rewrite Hp, Hd. reflexivity. }
  split.
  - intros Hw.
    cbn [handle_events]. rewrite Hsave. cbn [and_then fst snd].
    rewrite save_game_written by exact Hw.
    unfold handle_event. rewrite Hp. cbn [negb].
    rewrite movement_keys_load.
    rewrite (load_key_saved cfg st st
               (set_save_file d (Some (Parses (save_game_state st)))) Hs eq_refl).
    cbn [and_then fst snd]. destruct st. cbn in Hp. subst. reflexivity.
  - intros Hb.
    cbn [handle_events]. rewrite Hsave. cbn [and_then fst snd].
    rewrite save_game_swallowed by exact Hb.
    unfold handle_event. rewrite Hp. cbn [negb].
    rewrite movement_keys_load. unfold load_key, loaded, disk_after_load, load_game.
    rewrite Hb. reflexivity.
Qed.

Lemma save_then_load_restores_witness :
  handle_events (Sample.config Sample.low) 1 [KEYDOWN K_s; KEYDOWN K_l]
                Scene.heading_up Sample.corrupted_disk
  = Continue
      (with_rng_calls Scene.heading_up 2,
       set_save_file Sample.corrupted_disk
         (Some (Parses (save_game_state Scene.heading_up)))).
Proof.
  apply (save_then_load_restores (Sample.config Sample.low) 1
           Scene.heading_up Sample.corrupted_disk).
  - reflexivity.
  - reflexivity.
  - reflexivity.
  - discriminate.
Defined.

(** ** Pausing *)

Lemma dropped_event (cfg : Config) (fuel : nat) (ev : event) (st : Session) (d : Disk) :
  paused st = true -> dropped_when_paused ev = true ->
  handle_event cfg fuel ev st d = Continue (st, d).
Proof.
  intros Hp Hev. unfold handle_event. rewrite Hp. cbn [negb].
  destruct ev as [| k | left hit | |]; try reflexivity; try discriminate.
  destruct k; try discriminate; reflexivity.
Qed.

(** X9: once P has been pressed, whatever else the same frame brings apart
    from P, Escape and the window being closed is dropped: no tick moves the
    snake, no key turns it, S does not save and L does not load. *)
Theorem pause_drops_rest_of_frame
    (cfg : Config) (fuel : nat) (evs : list event) (st : Session) (d : Disk) :
  paused st = false ->
  forallb dropped_when_paused evs = true ->
  handle_events cfg fuel (KEYDOWN K_p :: evs) st d
  = Continue (with_paused st true, d).
Proof.
  intros Hp Hevs. cbn [handle_events].
  assert (Hfirst : handle_event cfg fuel (KEYDOWN K_p) st d
                   = Continue (with_paused st true, d)).
  { unfold handle_event. rewrite Hp. cbn. rewrite Hp. reflexivity. }
  rewrite Hfirst. cbn [and_then fst snd].
  assert (Hpaused : paused (with_paused st true) = true) by reflexivity.
  revert Hpaused. generalize (with_paused st true) as st1. intros st1 Hp1.
  induction evs as [| ev evs IH]; [reflexivity |].
  cbn [forallb] in Hevs. apply andb_true_iff in Hevs. destruct Hevs as [Hev Hevs].
  cbn [handle_events]. rewrite (dropped_event cfg fuel ev st1 d Hp1 Hev).
  cbn [and_then fst snd]. apply IH, Hevs.
Qed.

Lemma pause_drops_rest_of_frame_witness :
  handle_events (Sample.config Sample.low) 1
                [KEYDOWN K_p; MOVE_EVENT; KEYDOWN K_LEFT; KEYDOWN K_s; MOVE_EVENT]
                Scene.heading_up Sample.empty_disk
  = Continue (with_paused Scene.heading_up true, Sample.empty_disk).
Proof.
  apply (pause_drops_rest_of_frame (Sample.config Sample.low) 1
           [MOVE_EVENT; KEYDOWN K_LEFT; KEYDOWN K_s; MOVE_EVENT]
           Scene.heading_up Sample.empty_disk).
  - reflexivity.
  - reflexivity.
Defined.

(** X10: the pause overlay changes nothing of the session but the [paused]
    flag, which it can only clear: whatever events one pass of its loop
    handles, the session it hands on is the one it was given, or that one
    with [paused] cleared. *)
Theorem overlay_only_clears_paused (evs : list event) (st st' : Session) :
  pause_events evs st = Stay st' ->
  st' = st \/ st' = with_paused st false.
Proof.
  revert st. induction evs as [| ev evs IH]; intros st; cbn [pause_events].
  - intros H. injection H as <-. left. reflexivity.
  - destruct (pause_event ev st) as [st1 | | |] eqn:Hev; try discriminate.
    intros H. apply IH in H.
    assert (Hst1 : st1 = st \/ st1 = with_paused st false).
    { destruct ev as [| k | left hit | |]; cbn in Hev.
      - discriminate.
      - destruct k; try discriminate; injection Hev as <-; auto.
      - destruct left, hit as [[] |]; try discriminate; injection Hev as <-; auto.
      - injection Hev as <-. auto.
      - injection Hev as <-. auto. }
    destruct Hst1 as [-> | ->]; [exact H |].
    right. destruct H as [-> | ->]; reflexivity.
Qed.

Lemma overlay_only_clears_paused_witness :
  with_paused Scene.under_overlay false = Scene.under_overlay \/
  with_paused Scene.under_overlay false = with_paused Scene.under_overlay false.
Proof.
  apply (overlay_only_clears_paused
           [MOVE_EVENT; KEYDOWN K_LEFT; MOUSEBUTTONDOWN true (Some Resume); MOVE_EVENT]
           Scene.under_overlay).
  reflexivity.
Defined.

(** ** Two turns within one tick *)

Lemma turn_key (cfg : Config) (fuel : nat) (cur req : heading) (k : key)
    (st : Session) (d : Disk) :
  In k (keys_of req) ->
  paused st = false ->
  Snake.direction (snake st) = vector cur ->
  heading_eqb req (opposite cur) = false ->
  handle_event cfg fuel (KEYDOWN k) st d = Continue (turn st (vector req), d).
Proof.
  intros Hk Hp Hd Hrev. unfold handle_event, movement_keys. rewrite Hp, Hd.
  destruct cur, req; try discriminate Hrev; cbn in Hk;
    destruct Hk as [<- | [<- | []]]; reflexivity.
Qed.

(** X11: the reverse of the current direction is refused only against the
    direction last set, not against the last move.  A sideways key followed
    by the reverse key before the next tick is accepted twice, and the tick
    then drives the head back into the segment behind it: a snake of two or
    more segments that was moving straight ends the session by hitting
    itself. *)
Theorem two_turns_reverse_into_body
    (cfg : Config) (fuel : nat) (cur side : heading) (k1 k2 : key)
    (st : Session) (d : Disk) (head : pos) (tl : list pos) :
  paused st = false ->
  Snake.direction (snake st) = vector cur ->
  perpendicular side cur = true ->
  In k1 (keys_of side) ->
  In k2 (keys_of (opposite cur)) ->
  let neck := (fst head - fst (vector cur), snd head - snd (vector cur)) in
  Snake.body (snake st) = head :: neck :: tl ->
  in_bounds cfg neck = true ->
  handle_events cfg fuel [KEYDOWN k1; KEYDOWN k2; MOVE_EVENT] st d
  = GameOver HitSelf
      (with_snake st {| Snake.body := neck :: head :: neck :: tl;
                        Snake.direction := vector (opposite cur);
                        Snake.skin_idx := Snake.skin_idx (snake st) |}).
Proof.
  intros Hp Hd Hperp Hk1 Hk2 neck Hbody Hin.
  assert (Hside : heading_eqb side (opposite cur) = false).
  { unfold perpendicular in Hperp. apply andb_true_iff in Hperp.
    destruct Hperp as [_ H]. apply negb_true_iff in H. exact H. }
  assert (Hback : heading_eqb (opposite cur) (opposite side) = false).
  { destruct cur, side; try reflexivity; discriminate Hperp. }
  cbn [handle_events].
  rewrite (turn_key cfg fuel cur side k1 st d Hk1 Hp Hd Hside).
  cbn [and_then fst snd].
  rewrite (turn_key cfg fuel side (opposite cur) k2 (turn st (vector side)) d
             Hk2 Hp eq_refl Hback).
  cbn [and_then fst snd].
  unfold handle_event. cbn [paused turn with_snake]. rewrite Hp. cbn [negb].
  unfold move_tick, Snake.move.
  cbn [snake turn with_snake Snake.body Snake.direction Snake.turn Snake.skin_idx].
  rewrite Hbody. destruct head as [hx hy].
  assert (Hneck : (hx + fst (vector (opposite cur)), hy + snd (vector (opposite cur)))
                  = neck).
  { subst neck. destruct cur; cbn; f_equal; lia. }
  destruct (vector (opposite cur)) as [dx dy] eqn:Hvec. cbn [fst snd] in Hneck.
  rewrite Hneck. cbn [Snake.body]. rewrite Hin. cbn [negb].
  match goal with
  | |- context [if ?c then GameOver HitSelf _ else _] =>
      assert (Hself : c = true) by (apply pos_in_In; right; left; reflexivity);
      rewrite Hself
  end.
  cbn [and_then]. reflexivity.
Qed.

Lemma two_turns_reverse_into_body_witness :
  exists final,
    handle_events (Sample.config Sample.low) 1
                  [KEYDOWN K_UP; KEYDOWN K_LEFT; MOVE_EVENT]
                  Scene.long_snake Sample.empty_disk
    = GameOver HitSelf final /\
    Snake.body (snake final) = [(180, 100); (200, 100); (180, 100); (160, 100)].
Proof.
  eexists. split.
  - apply (two_turns_reverse_into_body (Sample.config Sample.low) 1 Right Up
             K_UP K_LEFT Scene.long_snake Sample.empty_disk (200, 100) [(160, 100)]).
    + reflexivity.
    + reflexivity.
    + reflexivity.
    + simpl. left. reflexivity.
    + simpl. left. reflexivity.
    + reflexivity.
    + reflexivity.
  - reflexivity.
Defined.

(** ** Where the tick puts things *)

Lemma NoDup_snoc {A : Type} (l : list A) (x : A) :
  NoDup l -> ~ In x l -> NoDup (l ++ [x]).
Proof.
  intros Hl Hx. apply NoDup_app; [exact Hl | repeat constructor; intros [] |].
  intros a Ha [<- | []]. exact (Hx Ha).
Qed.

Lemma In_removelast {A : Type} (l : list A) (x : A) :
  In x (removelast l) -> In x l.
Proof.
  induction l as [| a l IH]; [intros [] |].
  cbn. destruct l as [| b l]; [intros [] |].
  intros [<- | H]; [left; reflexivity | right; apply IH, H].
Qed.

Lemma NoDup_removelast {A : Type} (l : list A) :
  NoDup l -> NoDup (removelast l).
Proof.
  induction l as [| a l IH]; [intros H; exact H |].
  intros H. apply NoDup_cons_iff in H. destruct H as [Ha Hl].
  cbn. destruct l as [| b l]; [constructor |].
  constructor; [| apply IH, Hl].
  intros Hin. apply Ha. apply (In_removelast (b :: l)), Hin.
Qed.

Section Placement.
Variable cfg : Config.

Lemma spawn_powerup_placed (n : nat) (st : Session) :
  powerups (spawn_powerup cfg n st) = powerups st \/
  exists q j,
    powerups (spawn_powerup cfg n st) = powerups st ++ [q] /\
    Powerup.position q = random_position cfg j /\
    ~ In (Powerup.position q)
         (Snake.body (snake st) ++ [Food.position (food st)]
          ++ obstacles st ++ powerup_positions st).
Proof.
  revert st. induction n as [| n IH]; intros st; cbn.
  - left. reflexivity.
  - destruct (pos_in _ _) eqn:Hfree.
    + apply (IH (with_rng_calls st (2 + rng_calls st))).
    + right. eexists. exists (rng_calls st). split; [reflexivity |].
      split; [reflexivity |]. apply pos_in_not_In in Hfree. exact Hfree.
Qed.

Lemma bite_placed (st : Session) :
  powerups (bite cfg st) = powerups st \/
  exists q j,
    powerups (bite cfg st) = powerups st ++ [q] /\
    Powerup.position q = random_position cfg j /\
    ~ In (Powerup.position q)
         (Snake.body (snake st) ++ [Food.position (food st)]
          ++ obstacles st ++ powerup_positions st).
Proof.
  unfold bite. destruct (chance20 _ _).
  - apply (spawn_powerup_placed 100
             (with_rng_calls
                (with_rng_calls (with_score st (score st + 1)) (24 + rng_calls st))
                (S (24 + rng_calls st)))).
  - left. reflexivity.
Qed.

Lemma spawn_obstacle_placed (n : nat) (st : Session) :
  obstacles (spawn_obstacle cfg n st) = obstacles st \/
  exists p j,
    obstacles (spawn_obstacle cfg n st) = obstacles st ++ [p] /\
    p = random_position cfg j /\
    ~ In p (Snake.body (snake st) ++ [Food.position (food st)]
            ++ powerup_positions st ++ obstacles st).
Proof.
  revert st. induction n as [| n IH]; intros st; cbn.
  - left. reflexivity.
  - destruct (pos_in _ _) eqn:Hfree.
    + apply (IH (with_rng_calls st (2 + rng_calls st))).
    + right. eexists. exists (rng_calls st). split; [reflexivity |].
      split; [reflexivity |]. apply pos_in_not_In in Hfree. exact Hfree.
Qed.

Lemma respawn_food_drawn (fuel : nat) (st st' : Session) :
  respawn_food cfg fuel st = Some st' ->
  exists j, Food.position (food st') = random_position cfg j.
Proof.
  revert st. induction fuel as [| n IH]; intros st; cbn; [discriminate |].
  destruct (pos_in _ _).
  - apply IH.
  - intros H. injection H as <-. exists (rng_calls st). reflexivity.
Qed.

(** The eating branch in full: what it does to score, powerups, food and
    obstacles. *)
Lemma eat_placed (fuel : nat) (st st' : Session) :
  eat cfg fuel st = Continue st' ->
  snake st' = snake st /\
  score st' = score st + 1 /\
  powerups st' = powerups (bite cfg st) /\
  (exists j, Food.position (food st') = random_position cfg j) /\
  ~ In (Food.position (food st'))
       (Snake.body (snake st) ++ obstacles st ++ powerup_positions (bite cfg st)) /\
  (obstacles st' = obstacles st \/
   exists p j,
     obstacles st' = obstacles st ++ [p] /\
     p = random_position cfg j /\
     ~ In p (Snake.body (snake st) ++ [Food.position (food st')]
             ++ powerup_positions (bite cfg st) ++ obstacles st) /\
     0 < score st + 1 /\
     (score st + 1) mod 20 = 0 /\
     Z.of_nat (List.length (obstacles st)) < max_obstacles cfg).
Proof.
  unfold eat. destruct (respawn_food cfg fuel (bite cfg st)) as [st1 |] eqn:Hr;
    [| discriminate].
  destruct (respawn_food_drawn _ _ _ Hr) as [j Hj].
  destruct (respawn_food_spec cfg _ _ _ Hr) as (k & p & Hst1 & Hp).
  destruct (bite_frame cfg st) as ((Hs & _) & _ & Ho & Hsc).
  assert (Hs1 : snake st1 = snake st) by (rewrite Hst1; exact Hs).
  assert (Hsc1 : score st1 = score st + 1) by (rewrite Hst1; exact Hsc).
  assert (Ho1 : obstacles st1 = obstacles st) by (rewrite Hst1; exact Ho).
  assert (Hp1 : powerups st1 = powerups (bite cfg st)) by (rewrite Hst1; reflexivity).
  assert (Hf1 : Food.position (food st1) = p) by (rewrite Hst1; reflexivity).
  unfold respawn_blocked in Hp. rewrite Hs, Ho, <- Hf1 in Hp.
  destruct (_ && _) eqn:Hc; intros H; apply Continue_inj in H; subst st'.
  - apply andb_true_iff in Hc. destruct Hc as [Hc Hcap].
    apply andb_true_iff in Hc. destruct Hc as [Hpos Hmod].
    apply Z.ltb_lt in Hpos, Hcap. apply Z.eqb_eq in Hmod.
    rewrite Hsc1 in Hpos, Hmod. rewrite Ho1 in Hcap.
    destruct (spawn_obstacle_frame cfg 100 st1)
      as ((Hs2 & _) & Hf2 & Hp2 & Hsc2 & _).
    rewrite Hs2, Hsc2, Hp2, Hf2, Hs1, Hsc1, Hp1.
    repeat split; try reflexivity; [exists j; exact Hj | exact Hp |].
    destruct (spawn_obstacle_placed 100 st1) as [-> | (q & i & -> & Hq & Hfree)].
    + left. exact Ho1.
    + right. exists q, i. unfold powerup_positions in *.
      rewrite Hs1, Ho1, Hp1 in Hfree. rewrite Ho1. repeat split; assumption.
  - rewrite Hs1, Hsc1, Hp1, Ho1.
    repeat split; try reflexivity; [exists j; exact Hj | exact Hp |].
    left. reflexivity.
Qed.

(** Collection, read from its result. *)
Lemma collect_field (head : pos) (st st' : Session) :
  collect cfg head st = Continue st' ->
  snake st' = snake st /\ food st' = food st /\
  obstacles st' = obstacles st /\ score st' = score st /\
  (take_powerup head (powerups st) = None /\ powerups st' = powerups st \/
   exists p rest,
     take_powerup head (powerups st) = Some (p, rest) /\ powerups st' = rest).
Proof.
  unfold collect. destruct (take_powerup head (powerups st)) as [[p rest] |] eqn:Ht.
  - destruct (Powerup.type p); unfold set_timer;
      [destruct (boost_interval cfg) | destruct (slow_interval cfg)];
      try discriminate; intros H; apply Continue_inj in H; subst st'; cbn;
      repeat split; right; exists p, rest; split; reflexivity.
  - intros H. apply Continue_inj in H. subst st'. repeat split. left. auto.
Qed.

(** The effect timer touches nothing on the board. *)
Lemma decay_frame (st st' : Session) :
  decay cfg st = Continue st' ->
  snake st' = snake st /\ food st' = food st /\
  obstacles st' = obstacles st /\ powerups st' = powerups st /\
  score st' = score st.
Proof.
  unfold decay. destruct (powerup_active st); [| intros H; apply Continue_inj in H;
                                                 subst; repeat split].
  destruct (_ <=? _).
  - unfold set_timer. destruct (initial_game_speed_ms cfg); [| discriminate].
    intros H. apply Continue_inj in H. subst. repeat split.
  - intros H. apply Continue_inj in H. subst. repeat split.
Qed.

Lemma take_powerup_clears (head : pos) (ps : list Powerup.t) (p : Powerup.t)
    (rest : list Powerup.t) :
  NoDup (map Powerup.position ps) ->
  take_powerup head ps = Some (p, rest) ->
  NoDup (map Powerup.position rest) /\ ~ In head (map Powerup.position rest).
Proof.
  revert p rest. induction ps as [| q ps IH]; intros p rest Hnd; cbn; [discriminate |].
  cbn in Hnd. apply NoDup_cons_iff in Hnd. destruct Hnd as [Hq Hps].
  destruct (pos_eqb (Powerup.position q) head) eqn:Hhere.
  - intros H. injection H as <- <-. apply pos_eqb_eq in Hhere.
    split; [exact Hps | rewrite <- Hhere; exact Hq].
  - destruct (take_powerup head ps) as [[r rest'] |] eqn:Ht; [| discriminate].
    intros H. injection H as <- <-.
    destruct (IH r rest' Hps eq_refl) as (Hnd' & Hclear).
    destruct (take_powerup_spec _ _ _ _ Ht) as (_ & _ & Hincl).
    apply pos_eqb_neq in Hhere. cbn. split.
    + constructor; [| exact Hnd']. intros Hin. apply Hq, Hincl, Hin.
    + intros [H | H]; [exact (Hhere H) | exact (Hclear H)].
Qed.

Lemma take_powerup_absent (head : pos) (ps : list Powerup.t) :
  take_powerup head ps = None -> ~ In head (map Powerup.position ps).
Proof.
  intros Hnone Hin. destruct (take_powerup_some _ _ Hin) as (p & rest & H & _).
  congruence.
Qed.

(** After collection no powerup is left under the head. *)
Lemma collect_clears_head (head : pos) (st st' : Session) :
  collect cfg head st = Continue st' ->
  NoDup (powerup_positions st) ->
  NoDup (powerup_positions st') /\
  incl (powerup_positions st') (powerup_positions st) /\
  ~ In head (powerup_positions st').
Proof.
  intros Hc Hnd. destruct (collect_field _ _ _ Hc) as (_ & _ & _ & _ & Hp).
  unfold powerup_positions in *.
  destruct Hp as [(Hnone & ->) | (p & rest & Ht & ->)].
  - split; [exact Hnd |]. split; [apply incl_refl |].
    apply take_powerup_absent, Hnone.
  - destruct (take_powerup_clears _ _ _ _ Hnd Ht) as (Hnd' & Hclear).
    destruct (take_powerup_spec _ _ _ _ Ht) as (_ & _ & Hincl).
    repeat split; assumption.
Qed.

(** A tick that goes on has passed the three checks. *)
Lemma move_tick_continue_inv (fuel : nat) (st st' : Session) :
  move_tick cfg fuel st = Continue st' ->
  exists s head rest,
    Snake.move (snake st) = Some s /\
    Snake.body s = head :: rest /\
    (0 <= fst head < width cfg /\ 0 <= snd head < height cfg) /\
    ~ In head rest /\
    ~ In head (obstacles st).
Proof.
  unfold move_tick. destruct (Snake.move (snake st)) as [s |] eqn:Hm; [| discriminate].
  destruct (Snake.body s) as [| head rest] eqn:Hb; [discriminate |].
  rewrite hits_obstacle_In. cbn [obstacles with_snake].
  destruct (in_bounds cfg head) eqn:Hin; [| discriminate].
  destruct (pos_in head rest) eqn:Hself; [discriminate |].
  destruct (pos_in head (obstacles st)) eqn:Hobs; [discriminate |].
  intros _. exists s, head, rest.
  apply in_bounds_spec in Hin. apply pos_in_not_In in Hself, Hobs. auto.
Qed.

(** The three phases of a tick that goes on, with the states between them. *)
Lemma move_tick_phases (fuel : nat) (st st' : Session) :
  move_tick cfg fuel st = Continue st' ->
  exists s head rest st1 st2,
    Snake.move (snake st) = Some s /\
    Snake.body s = head :: rest /\
    rest = Snake.body (snake st) /\
    (0 <= fst head < width cfg /\ 0 <= snd head < height cfg) /\
    ~ In head rest /\
    ~ In head (obstacles st) /\
    (head = Food.position (food st) /\ eat cfg fuel (with_snake st s) = Continue st1 \/
     head <> Food.position (food st) /\
     st1 = with_snake st {| Snake.body := head :: removelast rest;
                            Snake.direction := Snake.direction s;
                            Snake.skin_idx := Snake.skin_idx s |}) /\
    collect cfg head st1 = Continue st2 /\
    decay cfg st2 = Continue st'.
Proof.
  intros Htick.
  destruct (move_tick_continue_inv _ _ _ Htick)
    as (s & head & rest & Hm & Hb & Hin & Hself & Hobs).
  rewrite (move_tick_survives cfg fuel st s head rest Hm Hb Hin Hself Hobs) in Htick.
  destruct (move_spec _ _ _ _ Hm Hb) as (Hrest & _ & _).
  exists s, head, rest.
  destruct (pos_eqb head (Food.position (food st))) eqn:Hfood.
  - apply pos_eqb_eq in Hfood.
    destruct (eat cfg fuel (with_snake st s)) as [st1 | | | | | |] eqn:Heat;
      try discriminate.
    cbn [and_then] in Htick.
    destruct (collect cfg head st1) as [st2 | | | | | |] eqn:Hc; try discriminate.
    cbn [and_then] in Htick. exists st1, st2.
    split; [exact Hm |]. split; [exact Hb |]. split; [exact Hrest |].
    split; [exact Hin |]. split; [exact Hself |]. split; [exact Hobs |].
    split; [left; split; [exact Hfood | reflexivity] |].
    split; [exact Hc | exact Htick].
  - apply pos_eqb_neq in Hfood. cbn [and_then] in Htick.
    destruct (collect cfg head _) as [st2 | | | | | |] eqn:Hc; try discriminate.
    cbn [and_then] in Htick. eexists. exists st2.
    split; [exact Hm |]. split; [exact Hb |]. split; [exact Hrest |].
    split; [exact Hin |]. split; [exact Hself |]. split; [exact Hobs |].
    split; [right; split; [exact Hfood | reflexivity] |].
    split; [exact Hc | exact Htick].
Qed.

End Placement.

(** ** Obstacles *)

Lemma collect_incl (cfg : Config) (head : pos) (st st' : Session) :
  collect cfg head st = Continue st' ->
  incl (powerup_positions st') (powerup_positions st).
Proof.
  intros Hc. destruct (collect_field cfg _ _ _ Hc) as (_ & _ & _ & _ & Hp).
  unfold powerup_positions.
  destruct Hp as [(_ & ->) | (p & rest & Ht & ->)]; [apply incl_refl |].
  apply (take_powerup_spec _ _ _ _ Ht).
Qed.

(** X12: a tick never removes or moves an obstacle, and adds at most one, at
    the end of the list.  It adds one only when the head has landed on the
    food, the new score is a multiple of 20 and the count is below
    [max_obstacles]; the new obstacle is a drawn position that holds no
    other obstacle, no body segment, no powerup and not the food.  So a
    count within [max_obstacles] stays within it. *)
Theorem obstacles_only_grow (cfg : Config) (fuel : nat) (st st' : Session) :
  move_tick cfg fuel st = Continue st' ->
  (obstacles st' = obstacles st \/
   exists p j,
     obstacles st' = obstacles st ++ [p] /\
     p = random_position cfg j /\
     score st' = score st + 1 /\
     score st' mod 20 = 0 /\
     Z.of_nat (List.length (obstacles st)) < max_obstacles cfg /\
     ~ In p (obstacles st) /\
     ~ In p (Snake.body (snake st')) /\
     p <> Food.position (food st') /\
     ~ In p (powerup_positions st')) /\
  (Z.of_nat (List.length (obstacles st)) <= max_obstacles cfg ->
   Z.of_nat (List.length (obstacles st')) <= max_obstacles cfg).
Proof.
  intros Htick.
  destruct (move_tick_phases cfg _ _ _ Htick)
    as (s & head & rest & st1 & st2 & Hm & Hb & Hrest & Hin & Hself & Hobs
        & Hbranch & Hc & Hd).
  destruct (decay_frame cfg _ _ Hd) as (Hs3 & Hf3 & Ho3 & Hp3 & Hsc3).
  destruct (collect_field cfg _ _ _ Hc) as (Hs2 & Hf2 & Ho2 & Hsc2 & _).
  assert (Hincl := collect_incl cfg _ _ _ Hc).
  unfold powerup_positions in *.
  rewrite Ho3, Ho2, Hs3, Hs2, Hf3, Hf2, Hsc3, Hsc2, Hp3.
  destruct Hbranch as [(Hfood & Heat) | (Hfood & ->)].
  - destruct (eat_placed cfg _ _ _ Heat) as (Hs1 & Hsc1 & Hp1 & _ & _ & Ho1).
    cbn [snake score obstacles with_snake] in Hs1, Hsc1, Ho1.
    destruct Ho1 as [-> | (p & j & -> & Hj & Hfree & Hpos & Hmod & Hcap)].
    + split; [left; reflexivity | auto].
    + split.
      * right. exists p, j. rewrite Hs1, Hsc1.
        split; [reflexivity |]. split; [exact Hj |]. split; [reflexivity |].
        split; [exact Hmod |]. split; [exact Hcap |].
        repeat split; intros H; apply Hfree.
        -- apply in_or_app. right. apply in_or_app. right.
           apply in_or_app. right. exact H.
        -- apply in_or_app. left. exact H.
        -- apply in_or_app. right. left. symmetry. exact H.
        -- apply in_or_app. right. apply in_or_app. right.
           apply in_or_app. left. unfold powerup_positions.
           rewrite <- Hp1. apply Hincl, H.
      * intros _. rewrite length_app. cbn [List.length]. lia.
  - split; [left; reflexivity | auto].
Qed.

Lemma obstacles_only_grow_witness :
  let st' := {| snake := {| Snake.body := [(120, 100); (100, 100)];
                            Snake.direction := (20, 0); Snake.skin_idx := 0 |};
                food := {| Food.position := (500, 520); Food.skin_idx := 0 |};
                obstacles := [(400, 400); (540, 560)];
                powerups := []; score := 20; paused := false; running := true;
                powerup_active := None; powerup_timer := 0;
                move_timer := 66; rng_calls := 29 |} in
  (obstacles st' = [(400, 400)] \/
   exists p j,
     obstacles st' = [(400, 400)] ++ [p] /\
     p = random_position (Sample.config Scene.counting) j /\
     score st' = 19 + 1 /\
     score st' mod 20 = 0 /\
     Z.of_nat 1 < max_obstacles (Sample.config Scene.counting) /\
     ~ In p [(400, 400)] /\
     ~ In p (Snake.body (snake st')) /\
     p <> Food.position (food st') /\
     ~ In p (powerup_positions st')) /\
  (Z.of_nat 1 <= max_obstacles (Sample.config Scene.counting) ->
   Z.of_nat (List.length (obstacles st')) <= max_obstacles (Sample.config Scene.counting)).
Proof.
  intros st'.
  exact (obstacles_only_grow (Sample.config Scene.counting) 1
           Scene.before_twentieth st' eq_refl).
Defined.

(** ** Consistency of the board *)

Section Consistency.
Variable cfg : Config.
Variable fuel : nat.
Variables (st : Session) (s : Snake.t) (head : pos) (rest : list pos).

Hypothesis consistent : well_placed st.
Hypothesis moved : Snake.move (snake st) = Some s.
Hypothesis new_body : Snake.body s = head :: rest.
Hypothesis old_body : rest = Snake.body (snake st).
Hypothesis not_self : ~ In head rest.
Hypothesis not_obstacle : ~ In head (obstacles st).

Lemma shrink_nearly_placed :
  head <> Food.position (food st) ->
  nearly_placed head rest
    (with_snake st {| Snake.body := head :: removelast rest;
                      Snake.direction := Snake.direction s;
                      Snake.skin_idx := Snake.skin_idx s |}).
Proof.
  intros Hfood. destruct consistent as [Hod Hpd Hop Hfo Hfp Hso Hsp Hsf Hss].
  rewrite <- old_body in Hso, Hsp, Hsf, Hss.
  unfold nearly_placed, powerup_positions.
  cbn [snake food obstacles powerups with_snake Snake.body].
  repeat split; try assumption.
  - intros x [<- | Hx]; [left; reflexivity | right; apply In_removelast, Hx].
  - constructor; [| apply NoDup_removelast, Hss].
    intros H. apply not_self, In_removelast, H.
  - intros [H | H]; [apply Hfood; exact H |].
    apply Hsf, In_removelast, H.
  - intros x [<- | Hx]; [exact not_obstacle | apply Hso, In_removelast, Hx].
Qed.

Lemma eat_nearly_placed (st1 : Session) :
  eat cfg fuel (with_snake st s) = Continue st1 ->
  nearly_placed head rest st1.
Proof.
  intros Heat. destruct consistent as [Hod Hpd Hop Hfo Hfp Hso Hsp Hsf Hss].
  rewrite <- old_body in Hso, Hsp, Hsf, Hss.
  destruct (eat_placed cfg _ _ _ Heat) as (Hs1 & _ & Hp1 & _ & Hf1 & Ho1).
  cbn [snake obstacles with_snake] in Hs1, Hf1, Ho1. rewrite new_body in Hf1, Ho1.
  set (b := bite cfg (with_snake st s)) in *.
  assert (Hb : NoDup (powerup_positions b) /\
               forall x, In x (powerup_positions b) ->
                         In x (powerup_positions st) \/
                         (~ In x (head :: rest) /\ ~ In x (obstacles st))).
  { unfold powerup_positions.
    destruct (bite_placed cfg (with_snake st s)) as [Hsame | (q & j & Hq & _ & Hfree)];
      fold b in Hsame || fold b in Hq.
    - rewrite Hsame. split; [exact Hpd | auto].
    - rewrite Hq, map_app. cbn [map].
      cbn [snake food obstacles with_snake] in Hfree. rewrite new_body in Hfree.
      split.
      + apply NoDup_snoc; [exact Hpd |]. intros H. apply Hfree.
        apply in_or_app. right. apply in_or_app. right. apply in_or_app. right.
        exact H.
      + intros x Hx. apply in_app_or in Hx. destruct Hx as [Hx | [<- | []]];
          [left; exact Hx | right]. split; intros H; apply Hfree.
        * apply in_or_app. left. exact H.
        * apply in_or_app. right. apply in_or_app. right.
          apply in_or_app. left. exact H. }
  destruct Hb as [Hbnd Hbsub].
  assert (Hbody : Snake.body (snake st1) = head :: rest)
    by (rewrite Hs1; exact new_body).
  assert (Hpos1 : powerup_positions st1 = powerup_positions b)
    by (unfold powerup_positions; rewrite Hp1; reflexivity).
  unfold nearly_placed. rewrite Hbody, Hpos1.
  assert (Hfood_body : ~ In (Food.position (food st1)) (head :: rest))
    by (intros H; apply Hf1, in_or_app; left; exact H).
  assert (Hfood_obs : ~ In (Food.position (food st1)) (obstacles st))
    by (intros H; apply Hf1, in_or_app; right; apply in_or_app; left; exact H).
  assert (Hfood_pup : ~ In (Food.position (food st1)) (powerup_positions b))
    by (intros H; apply Hf1, in_or_app; right; apply in_or_app; right; exact H).
  assert (Hold_pup : forall x, In x rest -> ~ In x (powerup_positions b)).
  { intros x Hx Hin. destruct (Hbsub x Hin) as [H | [H _]].
    - exact (Hsp x Hx H).
    - apply H. right. exact Hx. }
  assert (Hobs_pup : forall x, In x (obstacles st) -> ~ In x (powerup_positions b)).
  { intros x Hx Hin. destruct (Hbsub x Hin) as [H | [_ H]].
    - exact (Hop x Hx H).
    - exact (H Hx). }
  assert (Hbody_obs : forall x, In x (head :: rest) -> ~ In x (obstacles st)).
  { intros x [<- | Hx]; [exact not_obstacle | exact (Hso x Hx)]. }
  split; [intros x [<- | Hx]; auto |].
  split; [constructor; assumption |].
  destruct Ho1 as [-> | (p & j & -> & _ & Hfree & _)].
  - repeat split; assumption.
  - assert (Hp_body : ~ In p (head :: rest))
      by (intros H; apply Hfree, in_or_app; left; exact H).
    assert (Hp_food : p <> Food.position (food st1))
      by (intros H; apply Hfree, in_or_app; right; left; symmetry; exact H).
    assert (Hp_pup : ~ In p (powerup_positions b))
      by (intros H; apply Hfree, in_or_app; right; apply in_or_app; right;
          apply in_or_app; left; exact H).
    assert (Hp_obs : ~ In p (obstacles st))
      by (intros H; apply Hfree, in_or_app; right; apply in_or_app; right;
          apply in_or_app; right; exact H).
    split; [apply NoDup_snoc; assumption |].
    split; [exact Hbnd |].
    split.
    { intros x Hx. apply in_app_or in Hx.
      destruct Hx as [Hx | [<- | []]]; [apply Hobs_pup, Hx | exact Hp_pup]. }
    split.
    { intros H. apply in_app_or in H.
      destruct H as [H | [H | []]]; [exact (Hfood_obs H) | exact (Hp_food H)]. }
    split; [exact Hfood_pup |]. split; [exact Hfood_body |].
    split; [| exact Hold_pup].
    intros x Hx H. apply in_app_or in H.
    destruct H as [H | [<- | []]]; [exact (Hbody_obs x Hx H) | exact (Hp_body Hx)].
Qed.

End Consistency.

(** X13: a tick that goes on keeps the board consistent: if no two obstacles
    and no two powerups share a cell, no obstacle lies on a powerup, the
    food on neither, and the snake crosses neither itself nor any of them,
    then the same holds after the tick. *)
Theorem tick_keeps_board_consistent (cfg : Config) (fuel : nat) (st st' : Session) :
  move_tick cfg fuel st = Continue st' ->
  well_placed st ->
  well_placed st'.
Proof.
  intros Htick Hwp.
  destruct (move_tick_phases cfg _ _ _ Htick)
    as (s & head & rest & st1 & st2 & Hm & Hb & Hrest & Hin & Hself & Hobs
        & Hbranch & Hc & Hd).
  assert (Hnear : nearly_placed head rest st1).
  { destruct Hbranch as [(_ & Heat) | (Hfood & ->)].
    - eapply eat_nearly_placed; eassumption.
    - eapply shrink_nearly_placed; eassumption. }
  destruct Hnear as (Hsub & Hss & Hod & Hpd & Hop & Hfo & Hfp & Hsf & Hso & Hold).
  destruct (decay_frame cfg _ _ Hd) as (Hs3 & Hf3 & Ho3 & Hp3 & _).
  destruct (collect_field cfg _ _ _ Hc) as (Hs2 & Hf2 & Ho2 & _ & _).
  destruct (collect_clears_head cfg _ _ _ Hc Hpd) as (Hnd2 & Hincl & Hclear).
  assert (Hpos3 : powerup_positions st' = powerup_positions st2)
    by (unfold powerup_positions; rewrite Hp3; reflexivity).
  constructor; rewrite ?Hpos3, ?Ho3, ?Ho2, ?Hs3, ?Hs2, ?Hf3, ?Hf2; try assumption.
  - intros p Hp H. exact (Hop p Hp (Hincl p H)).
  - intros H. exact (Hfp (Hincl _ H)).
  - intros p Hp H. destruct (Hsub p Hp) as [-> | Hp'].
    + exact (Hclear H).
    + exact (Hold p Hp' (Hincl p H)).
Qed.

Lemma tick_keeps_board_consistent_witness :
  well_placed
    {| snake := {| Snake.body := [(120, 100); (100, 100)];
                   Snake.direction := (20, 0); Snake.skin_idx := 0 |};
       food := {| Food.position := (500, 520); Food.skin_idx := 0 |};
       obstacles := [(400, 400); (540, 560)];
       powerups := []; score := 20; paused := false; running := true;
       powerup_active := None; powerup_timer := 0;
       move_timer := 66; rng_calls := 29 |}.
Proof.
  apply (tick_keeps_board_consistent (Sample.config Scene.counting) 1
           Scene.before_twentieth).
  - reflexivity.
  - constructor; cbn.
    + repeat constructor. intros [].
    + constructor.
    + intros p _ [].
    + intros [H | []]. discriminate H.
    + intros [].
    + intros p [<- | []] [H | []]. discriminate H.
    + intros p _ [].
    + intros [H | []]. discriminate H.
    + repeat constructor. intros [].
Defined.

(** ** The snake and the spawns stay on the board *)

Lemma move_head (s0 s : Snake.t) :
  Snake.move s0 = Some s ->
  exists h tl,
    Snake.body s0 = h :: tl /\
    Snake.body s
    = (fst h + fst (Snake.direction s0), snd h + snd (Snake.direction s0)) :: h :: tl /\
    Snake.direction s = Snake.direction s0.
Proof.
  unfold Snake.move. destruct (Snake.body s0) as [| [hx hy] tl]; [discriminate |].
  destruct (Snake.direction s0) as [dx dy]. intros H. injection H as <-.
  exists (hx, hy), tl. repeat split.
Qed.

Lemma on_grid_step (p : pos) (h : heading) :
  on_grid p -> on_grid (fst p + fst (vector h), snd p + snd (vector h)).
Proof.
  unfold on_grid, CELL_SIZE. intros [Hx Hy].
  apply Z.mod_divide in Hx, Hy; try lia.
  destruct Hx as [a Ha], Hy as [b Hb]. rewrite Ha, Hb.
  destruct h; cbn [vector fst snd CELL_SIZE]; unfold CELL_SIZE; split.
  all: try (replace (a * 20 + 0) with (a * 20) by lia; apply Z.mod_mul; lia).
  all: try (replace (b * 20 + 0) with (b * 20) by lia; apply Z.mod_mul; lia).
  - replace (b * 20 + - (20)) with ((b - 1) * 20) by lia. apply Z.mod_mul. lia.
  - replace (b * 20 + 20) with ((b + 1) * 20) by lia. apply Z.mod_mul. lia.
  - replace (a * 20 + - (20)) with ((a - 1) * 20) by lia. apply Z.mod_mul. lia.
  - replace (a * 20 + 20) with ((a + 1) * 20) by lia. apply Z.mod_mul. lia.
Qed.

(** X14: a tick that goes on moves the head by exactly the direction vector
    and keeps the direction; the body it leaves is the new head followed by
    segments of the old body, so that a body that lay on the board still
    does, and a body on the grid with one of the four directions stays on
    the grid. *)
Theorem snake_stays_on_board (cfg : Config) (fuel : nat) (st st' : Session) :
  move_tick cfg fuel st = Continue st' ->
  Snake.direction (snake st') = Snake.direction (snake st) /\
  (exists h tl,
     Snake.body (snake st) = h :: tl /\
     hd_error (Snake.body (snake st'))
     = Some (fst h + fst (Snake.direction (snake st)),
             snd h + snd (Snake.direction (snake st)))) /\
  (Forall (fun p => in_bounds cfg p = true) (Snake.body (snake st)) ->
   Forall (fun p => in_bounds cfg p = true) (Snake.body (snake st'))) /\
  ((exists h, Snake.direction (snake st) = vector h) ->
   Forall on_grid (Snake.body (snake st)) ->
   Forall on_grid (Snake.body (snake st'))).
Proof.
  intros Htick.
  destruct (move_tick_phases cfg _ _ _ Htick)
    as (s & head & rest & st1 & st2 & Hm & Hb & Hrest & Hin & Hself & Hobs
        & Hbranch & Hc & Hd).
  destruct (decay_frame cfg _ _ Hd) as (Hs3 & _).
  destruct (collect_field cfg _ _ _ Hc) as (Hs2 & _).
  destruct (move_head _ _ Hm) as (h & tl & Hold & Hnew & Hdir).
  rewrite Hb in Hnew. injection Hnew as Hhead Hrest'.
  assert (Hshape : Snake.direction (snake st1) = Snake.direction (snake st) /\
                   exists kept, Snake.body (snake st1) = head :: kept /\
                                forall x, In x kept -> In x rest).
  { destruct Hbranch as [(_ & Heat) | (_ & ->)].
    - destruct (eat_placed cfg _ _ _ Heat) as (Hs1 & _).
      rewrite Hs1. cbn [snake with_snake]. split; [exact Hdir |].
      exists rest. split; [exact Hb | auto].
    - cbn [snake with_snake Snake.body Snake.direction]. split; [exact Hdir |].
      exists (removelast rest). split; [reflexivity | apply In_removelast]. }
  destruct Hshape as (Hdir1 & kept & Hbody1 & Hkept).
  rewrite Hs3, Hs2, Hdir1, Hbody1, Hold.
  split; [reflexivity |].
  split; [exists h, tl; split; [reflexivity | cbn; rewrite Hhead; reflexivity] |].
  rewrite <- Hold, <- Hrest. split.
  - intros Hall. constructor.
    + apply in_bounds_spec. exact Hin.
    + rewrite Forall_forall in *. intros x Hx. apply Hall, Hkept, Hx.
  - intros [hd Hvec] Hall. constructor.
    + rewrite Hhead, Hvec. apply on_grid_step.
      rewrite Forall_forall in Hall. apply Hall. rewrite Hrest, Hold. left. reflexivity.
    + rewrite Forall_forall in *. intros x Hx. apply Hall, Hkept, Hx.
Qed.

Lemma snake_stays_on_board_witness :
  let st' := with_snake Sample.session
               {| Snake.body := [(120, 100)]; Snake.direction := (CELL_SIZE, 0);
                  Snake.skin_idx := 0 |} in
  Snake.direction (snake st') = (CELL_SIZE, 0) /\
  (exists h tl,
     [(100, 100)] = h :: tl /\
     hd_error (Snake.body (snake st')) = Some (fst h + CELL_SIZE, snd h + 0)) /\
  (Forall (fun p => in_bounds (Sample.config Sample.low) p = true) [(100, 100)] ->
   Forall (fun p => in_bounds (Sample.config Sample.low) p = true)
          (Snake.body (snake st'))) /\
  ((exists h, (CELL_SIZE, 0) = vector h) ->
   Forall on_grid [(100, 100)] ->
   Forall on_grid (Snake.body (snake st'))).
Proof.
  intros st'.
  exact (snake_stays_on_board (Sample.config Sample.low) 1 Sample.session st' eq_refl).
Defined.

(** X15: on a screen of at least one cell, with [randint] answering within
    its bounds, whatever a tick spawns lies on a cell of the board: if food,
    obstacles and powerups were all on board cells before a tick that goes
    on, they are after it. *)
Theorem spawns_stay_on_board (cfg : Config) (fuel : nat) (st st' : Session) :
  fair_randint (rnd cfg) ->
  CELL_SIZE <= width cfg ->
  CELL_SIZE <= height cfg ->
  move_tick cfg fuel st = Continue st' ->
  all_on_board cfg st ->
  all_on_board cfg st'.
Proof.
  intros Hfair Hw Hh Htick (Hfood & Hobs & Hpups).
  assert (Hdrawn : forall j, board_cell cfg (random_position cfg j)).
  { intros j. destruct (random_position_fair cfg j Hfair Hw Hh) as (H1 & H2 & _).
    split; assumption. }
  destruct (move_tick_phases cfg _ _ _ Htick)
    as (s & head & rest & st1 & st2 & _ & _ & _ & _ & _ & _ & Hbranch & Hc & Hd).
  destruct (decay_frame cfg _ _ Hd) as (_ & Hf3 & Ho3 & Hp3 & _).
  destruct (collect_field cfg _ _ _ Hc) as (_ & Hf2 & Ho2 & _ & _).
  assert (Hincl := collect_incl cfg _ _ _ Hc).
  assert (H1 : all_on_board cfg st1).
  { destruct Hbranch as [(_ & Heat) | (_ & ->)];
      [| split; [exact Hfood | split; [exact Hobs | exact Hpups]]].
    destruct (eat_placed cfg _ _ _ Heat) as (_ & _ & Hp1 & (j & Hj) & _ & Ho1).
    cbn [obstacles with_snake] in Ho1.
    split; [rewrite Hj; apply Hdrawn |]. split.
    - destruct Ho1 as [-> | (p & i & -> & -> & _)]; [exact Hobs |].
      apply Forall_app. split; [exact Hobs |]. constructor; [apply Hdrawn | constructor].
    - unfold powerup_positions. rewrite Hp1.
      destruct (bite_placed cfg (with_snake st s)) as [-> | (q & i & -> & Hq & _)];
        [exact Hpups |].
      rewrite map_app. apply Forall_app. split; [exact Hpups |].
      constructor; [rewrite Hq; apply Hdrawn | constructor]. }
  destruct H1 as (Hfood1 & Hobs1 & Hpups1).
  unfold all_on_board, powerup_positions in *. rewrite Hf3, Hf2, Ho3, Ho2, Hp3.
  split; [exact Hfood1 |]. split; [exact Hobs1 |].
  apply Forall_forall. intros x Hx.
  apply (proj1 (Forall_forall _ _) Hpups1), Hincl, Hx.
Qed.

Lemma spawns_stay_on_board_witness :
  all_on_board (Sample.config Scene.counting)
    {| snake := {| Snake.body := [(120, 100); (100, 100)];
                   Snake.direction := (20, 0); Snake.skin_idx := 0 |};
       food := {| Food.position := (500, 520); Food.skin_idx := 0 |};
       obstacles := [(400, 400); (540, 560)];
       powerups := []; score := 20; paused := false; running := true;
       powerup_active := None; powerup_timer := 0;
       move_timer := 66; rng_calls := 29 |}.
Proof.
  apply (spawns_stay_on_board (Sample.config Scene.counting) 1 Scene.before_twentieth).
  - intros k a b Hab. cbn. lia.
  - cbn. unfold CELL_SIZE. lia.
  - cbn. unfold CELL_SIZE. lia.
  - reflexivity.
  - repeat split; repeat constructor.
Defined.

(** ** The life of an effect *)

Lemma decays_snoc (cfg : Config) (n : nat) (st : Session) :
  decays cfg (S n) st = and_then (decays cfg n st) (decay cfg).
Proof.
  revert st. induction n as [| n IH]; intros st.
  - cbn. destruct (decay cfg st); reflexivity.
  - change (decays cfg (S (S n)) st) with (and_then (decay cfg st) (decays cfg (S n))).
    change (decays cfg (S n) st) with (and_then (decay cfg st) (decays cfg n)).
    destruct (decay cfg st) as [st1 | | | | | |]; try reflexivity.
    cbn [and_then]. apply IH.
Qed.

Lemma decays_counting (cfg : Config) (t : ptype) (n : nat) (st : Session) :
  powerup_active st = Some t ->
  Z.of_nat n < powerup_timer st ->
  decays cfg n st = Continue (with_effect st (Some t) (powerup_timer st - Z.of_nat n)).
Proof.
  revert st. induction n as [| n IH]; intros st Ha Hn.
  - cbn [decays Z.of_nat]. rewrite Z.sub_0_r.
    destruct st. cbn in Ha |- *. subst. reflexivity.
  - cbn [decays]. unfold decay. rewrite Ha.
    cbn [powerup_timer with_effect].
    destruct (Z.leb_spec (powerup_timer st - 1) 0) as [Hle | Hgt]; [lia |].
    cbn [and_then]. rewrite IH; [| reflexivity | cbn [powerup_timer with_effect]; lia].
    cbn [powerup_timer with_effect].
    replace (powerup_timer st - 1 - Z.of_nat n)
      with (powerup_timer st - Z.of_nat (S n)) by lia.
    reflexivity.
Qed.

(** X16: an effect with [t > 0] ticks on its timer counts down by one with
    each run of the timer, stays active and leaves the period alone through
    the first [t - 1] runs, and is cleared by the [t]-th, which puts the base
    period back. *)
Theorem effect_lasts_its_timer (cfg : Config) (t : ptype) (st : Session) :
  0 < speed cfg ->
  powerup_active st = Some t ->
  0 < powerup_timer st ->
  (forall n, Z.of_nat n < powerup_timer st ->
             decays cfg n st
             = Continue (with_effect st (Some t) (powerup_timer st - Z.of_nat n))) /\
  decays cfg (Z.to_nat (powerup_timer st)) st
  = Continue (with_move_timer (with_effect st None 0) (1000 / speed cfg)).
Proof.
  intros Hs Ha Ht. split; [intros n Hn; apply decays_counting; assumption |].
  replace (Z.to_nat (powerup_timer st)) with (S (Z.to_nat (powerup_timer st - 1)))
    by lia.
  rewrite decays_snoc, (decays_counting cfg t) by (assumption || lia).
  cbn [and_then]. unfold decay. cbn [powerup_active powerup_timer with_effect].
  rewrite Z2Nat.id by lia.
  destruct (Z.leb_spec (powerup_timer st - (powerup_timer st - 1) - 1) 0) as [_ | Hgt];
    [| lia].
  rewrite (initial_game_speed_ms_pos cfg Hs).
  cbn [set_timer with_effect with_move_timer powerup_timer].
  replace (powerup_timer st - (powerup_timer st - 1) - 1) with 0 by lia.
  reflexivity.
Qed.

Lemma effect_lasts_its_timer_witness :
  (forall n, Z.of_nat n < 10 ->
             decays (Sample.config Sample.low) n Sample.boosted
             = Continue (with_effect Sample.boosted (Some speed_boost) (10 - Z.of_nat n))) /\
  decays (Sample.config Sample.low) 10 Sample.boosted
  = Continue (with_move_timer (with_effect Sample.boosted None 0) (1000 / 15)).
Proof.
  apply (effect_lasts_its_timer (Sample.config Sample.low) speed_boost Sample.boosted).
  - reflexivity.
  - reflexivity.
  - reflexivity.
Defined.

(** X17: for a positive base speed a slow-down never shortens the period and
    a boosted period is never below 50.  The boost shortens the period (or
    leaves it) only up to a base speed of 20; above that the floor of 50
    makes the boosted period longer than the base period. *)
Theorem periods_compared (cfg : Config) :
  0 < speed cfg ->
  exists base boosted slowed,
    initial_game_speed_ms cfg = Some base /\
    boost_interval cfg = Some boosted /\
    slow_interval cfg = Some slowed /\
    base <= slowed /\
    50 <= boosted /\
    (speed cfg <= 20 -> boosted <= base) /\
    (20 < speed cfg -> boosted = 50 /\ base < boosted).
Proof.
  intros Hs. eexists. eexists. eexists.
  split; [apply (initial_game_speed_ms_pos cfg Hs) |].
  split; [apply (boost_interval_pos cfg Hs) |].
  split; [apply slow_interval_pos |].
  assert (Hmono : 1000 / (speed cfg + 10) <= 1000 / speed cfg)
    by (apply Z.div_le_compat_l; lia).
  split; [apply Z.div_le_compat_l; lia |].
  split; [lia |]. split.
  - intros Hle.
    assert (1000 / 20 <= 1000 / speed cfg) by (apply Z.div_le_compat_l; lia).
    change (1000 / 20) with 50 in *. lia.
  - intros Hgt.
    assert (1000 / speed cfg <= 1000 / 21) by (apply Z.div_le_compat_l; lia).
    change (1000 / 21) with 47 in *. lia.
Qed.

Lemma periods_compared_witness :
  exists base boosted slowed,
    initial_game_speed_ms (Sample.config Sample.low) = Some base /\
    boost_interval (Sample.config Sample.low) = Some boosted /\
    slow_interval (Sample.config Sample.low) = Some slowed /\
    base <= slowed /\
    50 <= boosted /\
    (15 <= 20 -> boosted <= base) /\
    (20 < 15 -> boosted = 50 /\ base < boosted).
Proof.
  apply (periods_compared (Sample.config Sample.low)). reflexivity.
Defined.

(** ** More on the leaderboard *)

(** A board with an entry on it was read from a file that parses. *)
Lemma entries_read_from_file (d : Disk) (old : list entry) :
  load_leaderboard d = JArr (map json_entry old) ->
  old <> [] ->
  leaderboard_file d <> Some Blocked.
Proof.
  intros Hload Hold Hb. unfold load_leaderboard in Hload. rewrite Hb in Hload.
  destruct old; [congruence | discriminate].
Qed.

Section Ranking.
Context {A : Type} (key : A -> Z).

Lemma insert_desc_front (y : A) (l : list A) :
  Forall (fun z => key z <= key y) l -> insert_desc key y l = y :: l.
Proof.
  intros H. destruct l as [| z l]; [reflexivity |].
  apply Forall_inv in H. cbn.
  destruct (Z.ltb_spec (key y) (key z)); [lia | reflexivity].
Qed.

(** Ranking an element behind a list that is already ranked puts it after
    the elements that score at least as much and before the others. *)
Lemma rank_behind_sorted (x : A) (l : list A) :
  StronglySorted (fun a b => key b <= key a) l ->
  exists l1 l2,
    l = l1 ++ l2 /\
    Forall (fun a => key x <= key a) l1 /\
    Forall (fun a => key a < key x) l2 /\
    sort_desc key (l ++ [x]) = l1 ++ x :: l2.
Proof.
  induction l as [| y l IH]; intros Hs.
  - exists [], []. repeat split; constructor.
  - apply StronglySorted_inv in Hs. destruct Hs as [Hl Hy].
    destruct (IH Hl) as (l1 & l2 & Hsplit & H1 & H2 & Hsort).
    cbn [app sort_desc fold_right]. fold (sort_desc key (l ++ [x])). rewrite Hsort.
    destruct (Z.le_gt_cases (key x) (key y)) as [Hge | Hlt].
    + exists (y :: l1), l2. rewrite Hsplit.
      split; [reflexivity |]. split; [constructor; assumption |].
      split; [exact H2 |].
      apply insert_desc_front. rewrite Hsplit in Hy.
      apply Forall_app in Hy. destruct Hy as [Hy1 Hy2].
      apply Forall_app. split; [exact Hy1 |]. constructor; assumption.
    + assert (Hl1 : l1 = []).
      { destruct l1 as [| z l1]; [reflexivity |]. exfalso.
        rewrite Hsplit in Hy. apply Forall_inv in Hy. apply Forall_inv in H1. lia. }
      subst l1. cbn [app] in *. subst l2.
      exists [], (y :: l). split; [reflexivity |]. split; [constructor |].
      split; [constructor; assumption |].
      cbn [app insert_desc]. destruct (Z.ltb_spec (key y) (key x)); [| lia].
      rewrite insert_desc_front by exact Hy. reflexivity.
Qed.

End Ranking.

(** X18: on a board of fewer than five entries whose file can be opened for
    writing, the new entry is always kept: what is loaded afterwards is the
    whole ranking of the old entries and the new one. *)
Theorem short_board_keeps_entry (name : string) (sc : Z) (d : Disk) (old : list entry) :
  load_leaderboard d = JArr (map json_entry old) ->
  leaderboard_file d <> Some Blocked ->
  (List.length old < 5)%nat ->
  let added := {| entry_name := sanitize name; entry_score := sc |} in
  exists d' kept,
    save_score name sc d = Ok d' /\
    load_leaderboard d' = JArr (map json_entry kept) /\
    Permutation kept (old ++ [added]) /\
    In added kept /\
    List.length kept = S (List.length old).
Proof.
  intros Hload Hw Hlen added.
  set (ranked := sort_desc entry_score (old ++ [added])).
  assert (Hperm : Permutation ranked (old ++ [added])) by apply sort_desc_perm.
  assert (Hrlen : List.length ranked = S (List.length old)).
  { rewrite (Permutation_length Hperm), length_app. cbn. lia. }
  exists (save_leaderboard (map json_entry ranked) d), ranked.
  split; [apply save_score_ranked, Hload |].
  split; [rewrite (load_written_leaderboard _ _ Hw), firstn_all2 by lia; reflexivity |].
  split; [exact Hperm |]. split; [| exact Hrlen].
  apply (Permutation_in _ (Permutation_sym Hperm)), in_or_app. right. left. reflexivity.
Qed.

Lemma short_board_keeps_entry_witness :
  let added := {| entry_name := sanitize "Zed!"; entry_score := 1 |} in
  exists d' kept,
    save_score "Zed!" 1 Scene.short_board_disk = Ok d' /\
    load_leaderboard d' = JArr (map json_entry kept) /\
    Permutation kept (Scene.short_board ++ [added]) /\
    In added kept /\
    List.length kept = 3%nat.
Proof.
  apply (short_board_keeps_entry "Zed!" 1 Scene.short_board_disk Scene.short_board).
  - reflexivity.
  - discriminate.
  - cbn. lia.
Defined.

(** X19: on a ranked board of five or more entries, a score that does not
    exceed any of the first five is not recorded: a tie with the fifth loses,
    and what is loaded afterwards is the old top five. *)
Theorem full_board_drops_low_score (name : string) (sc : Z) (d : Disk) (old : list entry) :
  load_leaderboard d = JArr (map json_entry old) ->
  StronglySorted ranks_before old ->
  (5 <= List.length old)%nat ->
  Forall (fun e => sc <= entry_score e) (firstn 5 old) ->
  exists d',
    save_score name sc d = Ok d' /\
    load_leaderboard d' = JArr (map json_entry (firstn 5 old)).
Proof.
  intros Hload Hsorted Hlen Hlow.
  set (added := {| entry_name := sanitize name; entry_score := sc |}).
  destruct (rank_behind_sorted entry_score added old Hsorted)
    as (l1 & l2 & Hsplit & H1 & H2 & Hrank).
  assert (Hw : leaderboard_file d <> Some Blocked).
  { apply (entries_read_from_file d old Hload). intros ->. cbn in Hlen. lia. }
  eexists. split; [apply save_score_ranked, Hload |].
  rewrite (load_written_leaderboard _ _ Hw). fold added. rewrite Hrank. do 2 f_equal.
  assert (Hl1 : (5 <= List.length l1)%nat).
  { destruct (Nat.le_gt_cases 5 (List.length l1)) as [H | H]; [exact H | exfalso].
    rewrite Hsplit, firstn_app in Hlow. apply Forall_app in Hlow.
    destruct Hlow as [_ Hlow].
    destruct l2 as [| z l2].
    - rewrite Hsplit, app_nil_r in Hlen. lia.
    - destruct (5 - List.length l1)%nat as [| m] eqn:Hm; [lia |].
      cbn in Hlow. apply Forall_inv in Hlow. apply Forall_inv in H2.
      cbn in H2. lia. }
  rewrite Hsplit, !firstn_app.
  replace (5 - List.length l1)%nat with O by lia. reflexivity.
Qed.

Lemma full_board_drops_low_score_witness :
  exists d',
    save_score "Zed!" 1 Sample.board_disk = Ok d' /\
    load_leaderboard d' = JArr (map json_entry (firstn 5 Sample.board)).
Proof.
  apply (full_board_drops_low_score "Zed!" 1 Sample.board_disk Sample.board).
  - reflexivity.
  - unfold Sample.board, ranks_before. repeat constructor; cbn; lia.
  - cbn. lia.
  - repeat constructor; cbn; lia.
Defined.

(** X20: on a ranked board, a score that exceeds one of the first five gets
    among the five that are loaded afterwards. *)
Theorem full_board_takes_high_score (name : string) (sc : Z) (d : Disk)
    (old : list entry) (beaten : entry) :
  load_leaderboard d = JArr (map json_entry old) ->
  StronglySorted ranks_before old ->
  In beaten (firstn 5 old) ->
  entry_score beaten < sc ->
  let added := {| entry_name := sanitize name; entry_score := sc |} in
  exists d' kept,
    save_score name sc d = Ok d' /\
    load_leaderboard d' = JArr (map json_entry kept) /\
    In added kept /\
    (List.length kept <= 5)%nat.
Proof.
  intros Hload Hsorted Hbeaten Hlt added.
  destruct (rank_behind_sorted entry_score added old Hsorted)
    as (l1 & l2 & Hsplit & H1 & H2 & Hrank).
  exists (save_leaderboard
            (map json_entry (sort_desc entry_score (old ++ [added]))) d),
         (firstn 5 (sort_desc entry_score (old ++ [added]))).
  assert (Hw : leaderboard_file d <> Some Blocked).
  { apply (entries_read_from_file d old Hload). intros ->.
    rewrite firstn_nil in Hbeaten. destruct Hbeaten. }
  split; [apply save_score_ranked, Hload |].
  split; [apply load_written_leaderboard, Hw |].
  split; [| apply firstn_le_length].
  assert (Hl1 : (List.length l1 < 5)%nat).
  { destruct (Nat.le_gt_cases 5 (List.length l1)) as [H | H]; [exfalso | exact H].
    rewrite Hsplit, firstn_app in Hbeaten.
    replace (5 - List.length l1)%nat with O in Hbeaten by lia.
    rewrite app_nil_r in Hbeaten.
    assert (Hin : In beaten l1).
    { rewrite <- (firstn_skipn 5 l1). apply in_or_app. left. exact Hbeaten. }
    rewrite Forall_forall in H1. specialize (H1 beaten Hin). cbn in H1. lia. }
  rewrite Hrank, firstn_app. apply in_or_app. right.
  destruct (5 - List.length l1)%nat as [| m] eqn:Hm; [lia |].
  left. reflexivity.
Qed.

Lemma full_board_takes_high_score_witness :
  let added := {| entry_name := sanitize "Zed!"; entry_score := 8 |} in
  exists d' kept,
    save_score "Zed!" 8 Sample.board_disk = Ok d' /\
    load_leaderboard d' = JArr (map json_entry kept) /\
    In added kept /\
    (List.length kept <= 5)%nat.
Proof.
  apply (full_board_takes_high_score "Zed!" 8 Sample.board_disk Sample.board
           {| entry_name := "Eve"; entry_score := 1 |}).
  - reflexivity.
  - unfold Sample.board, ranks_before. repeat constructor; cbn; lia.
  - cbn. auto 10.
  - cbn. lia.
Defined.

(** X21: resetting the leaderboard raises when the file cannot be removed.
    Otherwise, whatever the file held before (also when it was absent or did
    not parse), it leaves a file that holds and loads as the empty list,
    shows no high score in the menu and does not touch the save slot; the
    first score recorded after it is alone on the board. *)
Theorem reset_leaderboard_empties (d : Disk) (name : string) (sc : Z) :
  (leaderboard_file d = Some Blocked -> reset_leaderboard d = Raised) /\
  (leaderboard_file d <> Some Blocked ->
   exists d0,
     reset_leaderboard d = Ok d0 /\
     load_leaderboard d0 = JArr [] /\
     leaderboard_file d0 = Some (Parses (JArr [])) /\
     save_file d0 = save_file d /\
     menu_high_score d0 = Ok None /\
     exists d',
       save_score name sc d0 = Ok d' /\
       load_leaderboard d'
       = JArr [json_entry {| entry_name := sanitize name; entry_score := sc |}]).
Proof.
  split.
  - intros Hb. unfold reset_leaderboard. rewrite Hb. reflexivity.
  - intros Hw. exists (save_leaderboard [] (set_leaderboard_file d None)).
    split.
    { unfold reset_leaderboard.
      destruct (leaderboard_file d) as [[] |]; try reflexivity.
      exfalso. apply Hw. reflexivity. }
    repeat split. eexists. split; reflexivity.
Qed.

Lemma reset_leaderboard_empties_witness :
  exists d0,
    reset_leaderboard Sample.board_disk = Ok d0 /\
    load_leaderboard d0 = JArr [] /\
    leaderboard_file d0 = Some (Parses (JArr [])) /\
    save_file d0 = save_file Sample.board_disk /\
    menu_high_score d0 = Ok None /\
    exists d',
      save_score "Zed!" 3 d0 = Ok d' /\
      load_leaderboard d'
      = JArr [json_entry {| entry_name := sanitize "Zed!"; entry_score := 3 |}].
Proof.
  apply (proj2 (reset_leaderboard_empties Sample.board_disk "Zed!" 3)).
  discriminate.
Defined.

(** X22: after a score has been recorded on a board of well-formed entries
    whose file can be opened for writing, the high score of the menu is the
    highest of the old scores and the new one. *)
Theorem menu_shows_highest_score (name : string) (sc : Z) (d : Disk) (old : list entry) :
  load_leaderboard d = JArr (map json_entry old) ->
  leaderboard_file d <> Some Blocked ->
  exists d' high,
    save_score name sc d = Ok d' /\
    menu_high_score d' = Ok (Some (JNum high)) /\
    sc <= high /\
    Forall (fun e => entry_score e <= high) old /\
    (high = sc \/ exists e, In e old /\ high = entry_score e).
Proof.
  intros Hload Hw.
  set (added := {| entry_name := sanitize name; entry_score := sc |}).
  set (ranked := sort_desc entry_score (old ++ [added])).
  assert (Hperm : Permutation ranked (old ++ [added])) by apply sort_desc_perm.
  assert (Hsorted : StronglySorted (fun a b => entry_score b <= entry_score a) ranked)
    by apply sort_desc_sorted.
  destruct ranked as [| top others] eqn:Hranked.
  { apply Permutation_length in Hperm. rewrite length_app in Hperm. cbn in Hperm. lia. }
  exists (save_leaderboard (map json_entry (top :: others)) d), (entry_score top).
  split; [rewrite <- Hranked; apply save_score_ranked, Hload |].
  split.
  { unfold menu_high_score. rewrite (load_written_leaderboard _ _ Hw). reflexivity. }
  apply StronglySorted_inv in Hsorted. destruct Hsorted as [_ Htop].
  assert (Hall : forall e, In e (old ++ [added]) -> entry_score e <= entry_score top).
  { intros e He. apply (Permutation_in _ (Permutation_sym Hperm)) in He.
    destruct He as [<- | He]; [lia |].
    rewrite Forall_forall in Htop. apply Htop, He. }
  split; [apply (Hall added), in_or_app; right; left; reflexivity |].
  split; [apply Forall_forall; intros e He; apply Hall, in_or_app; left; exact He |].
  assert (Hin : In top (old ++ [added]))
    by (apply (Permutation_in _ Hperm); left; reflexivity).
  apply in_app_or in Hin. destruct Hin as [Hin | [<- | []]].
  - right. exists top. split; [exact Hin | reflexivity].
  - left. reflexivity.
Qed.

Lemma menu_shows_highest_score_witness :
  exists d' high,
    save_score "Zed!" 12 Sample.board_disk = Ok d' /\
    menu_high_score d' = Ok (Some (JNum high)) /\
    12 <= high /\
    Forall (fun e => entry_score e <= high) Sample.board /\
    (high = 12 \/ exists e, In e Sample.board /\ high = entry_score e).
Proof.
  apply (menu_shows_highest_score "Zed!" 12 Sample.board_disk Sample.board).
  - reflexivity.
  - discriminate.
Defined.

(** X23: a leaderboard file that parses but is not a list, or a list one of
    whose items has no score, is not treated as empty: [save_score] raises
    and nothing is written.  An absent file and a file that opens but cannot
    be read as JSON count as an empty board, and the new entry is alone on
    the board written.  A path that cannot be opened counts as an empty board
    too, but there the write is swallowed: the disk is as before and the
    score is not recorded. *)
Theorem save_score_raises_on_odd_board (name : string) (sc : Z) (d : Disk) :
  (forall doc,
     leaderboard_file d = Some (Parses doc) ->
     (forall items, doc <> JArr items) ->
     save_score name sc d = Raised) /\
  (forall items e,
     leaderboard_file d = Some (Parses (JArr items)) ->
     In e items -> subscript e "score" = None ->
     save_score name sc d = Raised) /\
  (leaderboard_file d = None \/
   (exists text, leaderboard_file d = Some (Malformed text)) \/
   leaderboard_file d = Some Unreadable ->
   exists d',
     save_score name sc d = Ok d' /\
     load_leaderboard d'
     = JArr [json_entry {| entry_name := sanitize name; entry_score := sc |}]) /\
  (leaderboard_file d = Some Blocked ->
   save_score name sc d = Ok d /\ load_leaderboard d = JArr []).
Proof.
  split; [| split; [| split]].
  - intros doc Hfile Hshape. unfold save_score, load_leaderboard. rewrite Hfile.
    destruct doc; try reflexivity. exfalso. exact (Hshape items eq_refl).
  - intros items e Hfile Hin He. unfold save_score, load_leaderboard. rewrite Hfile.
    unfold score_keys.
    rewrite (traverse_fails (fun x => subscript x "score") _ e);
      [reflexivity | apply in_or_app; left; exact Hin | exact He].
  - intros Hnone.
    assert (Hload : load_leaderboard d = JArr (map json_entry [])).
    { unfold load_leaderboard.
      destruct Hnone as [-> | [(text & ->) | ->]]; reflexivity. }
    assert (Hw : leaderboard_file d <> Some Blocked).
    { destruct Hnone as [-> | [(text & ->) | ->]]; discriminate. }
    eexists. split; [apply (save_score_ranked name sc d [] Hload) |].
    rewrite (load_written_leaderboard _ _ Hw). reflexivity.
  - intros Hb.
    assert (Hload : load_leaderboard d = JArr (map json_entry []))
      by (apply load_blocked_leaderboard, Hb).
    split; [| exact Hload].
    rewrite (save_score_ranked name sc d [] Hload).
    rewrite save_leaderboard_swallowed by exact Hb. reflexivity.
Qed.

Lemma save_score_raises_on_odd_board_witness :
  save_score "Zed!" 3 Scene.odd_board_disk = Raised.
Proof.
  apply (proj1 (save_score_raises_on_odd_board "Zed!" 3 Scene.odd_board_disk)
           (JObj [("name"%string, JStr "Ada")])).
  - reflexivity.
  - discriminate.
Defined.

(** ** Names once more *)

Lemma lstrip_keeps (l : list ascii) :
  (forall c, hd_error l = Some c -> whitespace c = false) -> lstrip l = l.
Proof.
  intros H. destruct l as [| c l]; [reflexivity |].
  cbn. rewrite (H c eq_refl). reflexivity.
Qed.

Lemma filter_keeps {A : Type} (f : A -> bool) (l : list A) :
  Forall (fun x => f x = true) l -> filter f l = l.
Proof.
  induction 1 as [| x l Hx _ IH]; [reflexivity |].
  cbn. rewrite Hx, IH. reflexivity.
Qed.

(** X24: sanitizing is idempotent: a name as it is stored on the leaderboard
    is stored unchanged when it is submitted again. *)
Theorem sanitize_idempotent (name : string) :
  sanitize (sanitize name) = sanitize name.
Proof.
  destruct (sanitize_clean name) as (Hclass & Hne & Hhd & Hlast).
  cbv zeta in *.
  set (cs := list_ascii_of_string (sanitize name)) in *.
  unfold sanitize at 1. fold cs.
  rewrite (filter_keeps _ _ Hclass). unfold strip.
  rewrite (lstrip_keeps cs Hhd), (lstrip_keeps (rev cs) Hlast), rev_involutive.
  destruct cs as [| c cs'] eqn:Hcs; [contradiction |].
  rewrite <- Hcs. subst cs. apply string_of_list_ascii_of_string.
Qed.

(** ** What the loop leaves alone *)

Section Flags.
Variable cfg : Config.

Lemma spawn_powerup_flags (n : nat) (st : Session) :
  same_flags st (spawn_powerup cfg n st).
Proof.
  revert st. induction n as [| n IH]; intros st; cbn; [split; reflexivity |].
  destruct (pos_in _ _); [| split; reflexivity].
  apply (IH (with_rng_calls st (2 + rng_calls st))).
Qed.

Lemma spawn_obstacle_flags (n : nat) (st : Session) :
  same_flags st (spawn_obstacle cfg n st).
Proof.
  revert st. induction n as [| n IH]; intros st; cbn; [split; reflexivity |].
  destruct (pos_in _ _); [| split; reflexivity].
  apply (IH (with_rng_calls st (2 + rng_calls st))).
Qed.

Lemma bite_flags (st : Session) : same_flags st (bite cfg st).
Proof.
  unfold bite. destruct (chance20 _ _); [| split; reflexivity].
  apply (spawn_powerup_flags 100
           (with_rng_calls
              (with_rng_calls (with_score st (score st + 1)) (24 + rng_calls st))
              (S (24 + rng_calls st)))).
Qed.

Lemma eat_flags (fuel : nat) (st st' : Session) :
  eat cfg fuel st = Continue st' -> same_flags st st'.
Proof.
  unfold eat. destruct (respawn_food cfg fuel (bite cfg st)) as [st1 |] eqn:Hr;
    [| discriminate].
  destruct (respawn_food_spec cfg _ _ _ Hr) as (k & p & Hst1 & _).
  destruct (bite_flags st) as [Hp Hr'].
  assert (H1 : same_flags st st1) by (rewrite Hst1; split; assumption).
  destruct (_ && _); intros H; apply Continue_inj in H; subst st'; [| exact H1].
  destruct (spawn_obstacle_flags 100 st1) as [Hp2 Hr2], H1 as [Hp1 Hr1].
  split; congruence.
Qed.

Lemma set_timer_flags (ms : option Z) (st st' : Session) :
  set_timer ms st = Continue st' -> same_flags st st'.
Proof.
  destruct ms; [| discriminate]. intros H. apply Continue_inj in H. subst.
  split; reflexivity.
Qed.

Lemma collect_flags (head : pos) (st st' : Session) :
  collect cfg head st = Continue st' -> same_flags st st'.
Proof.
  unfold collect. destruct (take_powerup head (powerups st)) as [[p rest] |].
  - destruct (Powerup.type p); intros H; apply set_timer_flags in H; exact H.
  - intros H. apply Continue_inj in H. subst. split; reflexivity.
Qed.

Lemma decay_flags (st st' : Session) :
  decay cfg st = Continue st' -> same_flags st st'.
Proof.
  unfold decay. destruct (powerup_active st).
  - destruct (_ <=? _).
    + intros H. apply set_timer_flags in H. exact H.
    + intros H. apply Continue_inj in H. subst. split; reflexivity.
  - intros H. apply Continue_inj in H. subst. split; reflexivity.
Qed.

Lemma move_tick_flags (fuel : nat) (st st' : Session) :
  move_tick cfg fuel st = Continue st' -> same_flags st st'.
Proof.
  intros Htick.
  destruct (move_tick_phases cfg _ _ _ Htick)
    as (s & head & rest & st1 & st2 & _ & _ & _ & _ & _ & _ & Hbranch & Hc & Hd).
  assert (H1 : same_flags st st1).
  { destruct Hbranch as [(_ & Heat) | (_ & ->)]; [| split; reflexivity].
    apply eat_flags in Heat. exact Heat. }
  destruct (collect_flags _ _ _ Hc) as [Hp2 Hr2].
  destruct (decay_flags _ _ Hd) as [Hp3 Hr3].
  destruct H1 as [Hp1 Hr1]. split; congruence.
Qed.

Lemma resume_running (doc : json) (st st' : Session) :
  resume cfg doc st = Continue st' -> running st' = running st.
Proof.
  unfold resume. destruct (load_game_state doc) as [raw |].
  - destruct doc; try discriminate.
    destruct (typed_snapshot raw) as [snap |]; [| discriminate].
    destruct (int_of (dict_get fields "score" (JNum 0))) as [sc |]; [| discriminate].
    destruct (typed_active (dict_get fields "powerup_active" JNull)) as [act |];
      [| discriminate].
    destruct (int_of (dict_get fields "powerup_timer" (JNum 0))) as [tm |];
      [| discriminate].
    unfold reapply_speed. cbn [powerup_active].
    destruct act as [[] |]; intros H;
      try (apply set_timer_flags in H; destruct H as [_ H]; exact H).
    apply Continue_inj in H. subst. reflexivity.
  - intros H. apply set_timer_flags in H. destruct H as [_ H]. exact H.
Qed.

Lemma load_key_running (st st' : Session) (d d' : Disk) :
  load_key cfg st d = Continue (st', d') ->
  running st' = running st /\ leaderboard_file d' = leaderboard_file d /\
  d' = disk_after_load d.
Proof.
  assert (Hlb : leaderboard_file (disk_after_load d) = leaderboard_file d).
  { unfold disk_after_load, load_game. destruct (save_file d) as [[] |]; reflexivity. }
  unfold load_key. destruct (loaded d) as [doc |].
  - destruct (truthy doc).
    + destruct (resume cfg doc _) as [st1 | | | | | |] eqn:Hres; try discriminate.
      cbn [and_then]. intros H. apply Continue_inj in H. injection H as <- <-.
      apply resume_running in Hres. auto.
    + intros H. apply Continue_inj in H. injection H as <- <-. auto.
  - intros H. apply Continue_inj in H. injection H as <- <-. auto.
Qed.

(** One event: [running] is never set, the leaderboard file never written,
    and the disk changes only on S and L. *)
Lemma handle_event_leaves (fuel : nat) (ev : event) (st st' : Session) (d d' : Disk) :
  handle_event cfg fuel ev st d = Continue (st', d') ->
  (running st = false -> running st' = false) /\
  (ev = QUIT \/ ev = KEYDOWN K_ESCAPE -> running st' = false) /\
  leaderboard_file d' = leaderboard_file d /\
  (no_disk_key ev = true -> d' = d).
Proof.
  destruct ev as [| k | left hit | |]; cbn [handle_event].
  - intros H. apply Continue_inj in H. injection H as <- <-.
    repeat split; intros; reflexivity.
  - destruct (negb (paused st)) eqn:Hp.
    + destruct (movement_keys cfg k st d) as [[st1 d1] | | | | | |] eqn:Hmk;
        try discriminate.
      cbn [and_then fst snd]. intros H. apply Continue_inj in H.
      injection H as <- <-.
      assert (Hmid : running st1 = running st /\
                     leaderboard_file d1 = leaderboard_file d /\
                     (no_disk_key (KEYDOWN k) = true -> d1 = d)).
      { unfold movement_keys in Hmk.
        destruct k; cbn [key_in existsb key_eqb orb andb] in Hmk;
          repeat match type of Hmk with
                 | (if ?c then _ else _) = _ => destruct c
                 end;
          first [ apply load_key_running in Hmk; destruct Hmk as (Hr & Hlb & _);
                  repeat split; try assumption; cbn; intros; discriminate
                | apply Continue_inj in Hmk; injection Hmk as <- <-;
                  repeat split;
                  first [ apply save_game_other_file
                        | cbn; intros; (reflexivity || discriminate) ] ]. }
      destruct Hmid as (Hr & Hlb & Hd).
      split; [| split; [| split; assumption]].
      * intros Hoff. unfold control_keys.
        destruct (key_eqb k K_p); [cbn; congruence |].
        destruct (key_eqb k K_ESCAPE); [reflexivity | congruence].
      * intros [H | H]; [discriminate |]. injection H as ->. reflexivity.
    + cbn [and_then fst snd]. intros H. apply Continue_inj in H.
      injection H as <- <-.
      split; [| split; [| split; reflexivity || auto]].
      * intros Hoff. unfold control_keys.
        destruct (key_eqb k K_p); [cbn; congruence |].
        destruct (key_eqb k K_ESCAPE); [reflexivity | congruence].
      * intros [H | H]; [discriminate |]. injection H as ->. reflexivity.
  - intros H. apply Continue_inj in H. injection H as <- <-.
    repeat split; auto. intros [H | H]; discriminate.
  - destruct (negb (paused st)).
    + destruct (move_tick cfg fuel st) as [st1 | | | | | |] eqn:Htick;
        try discriminate.
      cbn [and_then]. intros H. apply Continue_inj in H. injection H as <- <-.
      destruct (move_tick_flags _ _ _ Htick) as [_ Hr].
      repeat split; auto; try congruence. intros [H | H]; discriminate.
    + intros H. apply Continue_inj in H. injection H as <- <-.
      repeat split; auto. intros [H | H]; discriminate.
  - intros H. apply Continue_inj in H. injection H as <- <-.
    repeat split; auto. intros [H | H]; discriminate.
Qed.

End Flags.

Lemma handle_events_leaves (cfg : Config) (fuel : nat) (evs : list event)
    (st st' : Session) (d d' : Disk) :
  handle_events cfg fuel evs st d = Continue (st', d') ->
  (running st = false -> running st' = false) /\
  leaderboard_file d' = leaderboard_file d /\
  (forallb no_disk_key evs = true -> d' = d).
Proof.
  revert st d. induction evs as [| ev evs IH]; intros st d; cbn [handle_events].
  - intros H. apply Continue_inj in H. injection H as <- <-. auto.
  - destruct (handle_event cfg fuel ev st d) as [[st1 d1] | | | | | |] eqn:Hev;
      try discriminate.
    cbn [and_then fst snd]. intros Hrest.
    destruct (handle_event_leaves cfg _ _ _ _ _ _ Hev) as (Hr1 & _ & Hlb1 & Hd1).
    destruct (IH _ _ Hrest) as (Hr & Hlb & Hd).
    split; [auto |]. split; [congruence |].
    cbn [forallb]. intros H. apply andb_true_iff in H. destruct H as [H1 H2].
    rewrite (Hd H2). apply Hd1, H1.
Qed.

Lemma handle_events_app (cfg : Config) (fuel : nat) (evs1 evs2 : list event)
    (st : Session) (d : Disk) :
  handle_events cfg fuel (evs1 ++ evs2) st d
  = and_then (handle_events cfg fuel evs1 st d)
             (fun sd => handle_events cfg fuel evs2 (fst sd) (snd sd)).
Proof.
  revert st d. induction evs1 as [| ev evs1 IH]; intros st d; [reflexivity |].
  cbn [app handle_events].
  destruct (handle_event cfg fuel ev st d) as [[st1 d1] | | | | | |]; try reflexivity.
  cbn [and_then fst snd]. apply IH.
Qed.

(** X25: nothing in the loop sets [running] again once it is cleared.  When
    a frame brings Escape or the closing of the window, the events queued
    behind it are still handled (the snake may still move, or die), and if
    the frame gets through them [running] is off at its end: unless the game
    was paused in that same frame, [game_loop] returns to the menu. *)
Theorem escape_ends_the_loop
    (cfg : Config) (fuel : nat) (before after : list event) (ev : event)
    (later : list (list event)) (st st' : Session) (d d' : Disk) :
  ev = QUIT \/ ev = KEYDOWN K_ESCAPE ->
  handle_events cfg fuel (before ++ ev :: after) st d = Continue (st', d') ->
  running st' = false /\
  (paused st' = false ->
   play cfg fuel ((before ++ ev :: after) :: later) Playing st d = Returned).
Proof.
  intros Hev Hframe.
  assert (Hoff : running st' = false).
  { rewrite handle_events_app in Hframe.
    destruct (handle_events cfg fuel before st d) as [[st1 d1] | | | | | |];
      try discriminate.
    cbn [and_then fst snd handle_events] in Hframe.
    destruct (handle_event cfg fuel ev st1 d1) as [[st2 d2] | | | | | |] eqn:Hone;
      try discriminate.
    cbn [and_then fst snd] in Hframe.
    destruct (handle_event_leaves cfg _ _ _ _ _ _ Hone) as (_ & Hstop & _).
    destruct (handle_events_leaves cfg _ _ _ _ _ _ Hframe) as (Hkeep & _).
    apply Hkeep, Hstop, Hev. }
  split; [exact Hoff |]. intros Hp.
  cbn [play]. rewrite Hframe. cbn [and_then fst snd]. rewrite Hp, Hoff. reflexivity.
Qed.

Lemma escape_ends_the_loop_witness :
  play (Sample.config Sample.low) 1
       [[MOVE_EVENT; KEYDOWN K_ESCAPE; MOVE_EVENT]; [MOVE_EVENT]] Playing
       Sample.session Sample.empty_disk
  = Returned.
Proof.
  refine (proj2 (escape_ends_the_loop (Sample.config Sample.low) 1
                   [MOVE_EVENT] [MOVE_EVENT] (KEYDOWN K_ESCAPE) [[MOVE_EVENT]]
                   Sample.session _ Sample.empty_disk _ _ eq_refl) eq_refl).
  right. reflexivity.
Defined.


